(** * GLSI: cache-aware search pipeline

    A shallow embedding of the Go packages [cache], [scraper] and [engine]
    of the Go Local Search Indexer, with the parts of the Go standard
    library they call ([strings] with what it takes from [unicode/utf8] and
    [unicode], [crypto/sha256], [fmt] with the verb %x), followed by the
    properties of the pipeline.

    Go strings are byte strings: they are modelled by [string], whose
    characters are the 256 values of [ascii]. *)

From Stdlib Require Import ZArith Ascii String List Lia Bool.
From stdpp Require Import base gmap strings list.

Local Open Scope Z_scope.

(** ** Package strings *)

Module strings.

Definition byteVal (c : ascii) : Z := Z.of_N (N_of_ascii c).

Definition byteOf (n : Z) : ascii := ascii_of_N (Z.to_N n).

Fixpoint ofBytes (l : list Z) : string :=
  match l with
  | nil => EmptyString
  | b :: l' => String (byteOf b) (ofBytes l')
  end.

(** []byte(s) *)
Fixpoint toBytes (s : string) : list Z :=
  match s with
  | EmptyString => nil
  | String c s' => byteVal c :: toBytes s'
  end.

(** The table [asciiSpace] of package strings: \t \n \v \f \r and space. *)
Definition asciiSpace (c : ascii) : bool :=
  let v := byteVal c in
  ((9 <=? v) && (v <=? 13)) || (v =? 32).

(** The white space runes of [unicode.IsSpace] above 0x7F, by their UTF-8
    encoding: U+0085 and U+00A0 on two bytes; U+1680, U+2000 to U+200A,
    U+2028, U+2029, U+202F, U+205F and U+3000 on three. *)
Definition space2 (a b : ascii) : bool :=
  (byteVal a =? 0xC2) && ((byteVal b =? 0x85) || (byteVal b =? 0xA0)).

Definition space3 (a b c : ascii) : bool :=
  let x := byteVal a in
  let y := byteVal b in
  let z := byteVal c in
  ((x =? 0xE1) && (y =? 0x9A) && (z =? 0x80))
  || ((x =? 0xE2) && (y =? 0x80)
      && (((0x80 <=? z) && (z <=? 0x8A)) || (z =? 0xA8) || (z =? 0xA9) || (z =? 0xAF)))
  || ((x =? 0xE2) && (y =? 0x81) && (z =? 0x9F))
  || ((x =? 0xE3) && (y =? 0x80) && (z =? 0x80)).

(** [spaceRune s] holds when [s] is the encoding of exactly one white
    space rune. *)
Definition spaceRune (s : string) : bool :=
  match s with
  | String a EmptyString => asciiSpace a
  | String a (String b EmptyString) => space2 a b
  | String a (String b (String c EmptyString)) => space3 a b c
  | _ => false
  end.

(** TrimLeftFunc(s, unicode.IsSpace): a rune decoded at the front of [s]
    is a white space rune exactly when [s] starts with its encoding, the
    decoder accepting shortest encodings only. *)
Fixpoint TrimLeft (s : string) : string :=
  match s with
  | String a r1 =>
      if asciiSpace a then TrimLeft r1
      else
        match r1 with
        | String b r2 =>
            if space2 a b then TrimLeft r2
            else
              match r2 with
              | String c r3 => if space3 a b c then TrimLeft r3 else s
              | EmptyString => s
              end
        | EmptyString => s
        end
  | EmptyString => s
  end.

(** TrimRightFunc(s, unicode.IsSpace): the last rune of [s] is a white
    space rune exactly when [s] ends with its encoding. What is left of
    [String a s'] is [a] followed by what is left of [s'], unless that is
    one white space rune as a whole. *)
Fixpoint TrimRight (s : string) : string :=
  match s with
  | EmptyString => EmptyString
  | String a s' =>
      let t := TrimRight s' in
      if spaceRune (String a t) then EmptyString else String a t
  end.

(** strings.TrimSpace: the ASCII fast path and the fall-back to
    TrimFunc(unicode.IsSpace) compute the same slice. *)
Definition TrimSpace (s : string) : string := TrimRight (TrimLeft s).

Definition isUpper (c : ascii) : bool :=
  (65 <=? byteVal c) && (byteVal c <=? 90).

Definition lowerByte (c : ascii) : ascii :=
  if isUpper c then byteOf (byteVal c + 32) else c.

(** *** Packages utf8 and unicode, as strings.Map and strings.ToLower call
    them *)

Module utf8.

Definition RuneError : Z := 0xFFFD.
Definition RuneSelf : Z := 0x80.
Definition MaxRune : Z := 0x10FFFF.
Definition surrogateMin : Z := 0xD800.
Definition surrogateMax : Z := 0xDFFF.

(** The tables [first] and [acceptRanges]: for the first byte of a
    sequence of several bytes, the size of the sequence and the range
    accepted for its second byte; [None] for a byte below 0x80 and for a
    byte that starts no sequence. *)
Definition first (b : Z) : option (Z * Z * Z) :=
  if (0xC2 <=? b) && (b <=? 0xDF) then Some (2, 0x80, 0xBF)
  else if b =? 0xE0 then Some (3, 0xA0, 0xBF)
  else if (0xE1 <=? b) && (b <=? 0xEC) then Some (3, 0x80, 0xBF)
  else if b =? 0xED then Some (3, 0x80, 0x9F)
  else if (0xEE <=? b) && (b <=? 0xEF) then Some (3, 0x80, 0xBF)
  else if b =? 0xF0 then Some (4, 0x90, 0xBF)
  else if (0xF1 <=? b) && (b <=? 0xF3) then Some (4, 0x80, 0xBF)
  else if b =? 0xF4 then Some (4, 0x80, 0x8F)
  else None.

(** A byte outside locb..hicb is no continuation byte. *)
Definition notContinuation (b : Z) : bool := (b <? 0x80) || (0xBF <? b).

(** utf8.DecodeRuneInString: the rune at the front of [s] and its width
    in bytes; (RuneError, 1) for an encoding that is not valid. The test
    n < sz of the source is the empty string met by one of the matches. *)
Definition DecodeRuneInString (s : string) : Z * nat :=
  match s with
  | EmptyString => (RuneError, 0%nat)
  | String c0 t0 =>
      let s0 := byteVal c0 in
      if s0 <? RuneSelf then (s0, 1%nat)
      else
        match first s0 with
        | None => (RuneError, 1%nat)
        | Some (sz, lo, hi) =>
            match t0 with
            | EmptyString => (RuneError, 1%nat)
            | String c1 t1 =>
                let s1 := byteVal c1 in
                if (s1 <? lo) || (hi <? s1) then (RuneError, 1%nat)
                else if sz <=? 2
                then (Z.lor (Z.shiftl (Z.land s0 0x1F) 6) (Z.land s1 0x3F), 2%nat)
                else
                  match t1 with
                  | EmptyString => (RuneError, 1%nat)
                  | String c2 t2 =>
                      let s2 := byteVal c2 in
                      if notContinuation s2 then (RuneError, 1%nat)
                      else if sz <=? 3
                      then (Z.lor (Z.lor (Z.shiftl (Z.land s0 0x0F) 12)
                                         (Z.shiftl (Z.land s1 0x3F) 6))
                                  (Z.land s2 0x3F), 3%nat)
                      else
                        match t2 with
                        | EmptyString => (RuneError, 1%nat)
                        | String c3 _ =>
                            let s3 := byteVal c3 in
                            if notContinuation s3 then (RuneError, 1%nat)
                            else (Z.lor (Z.lor (Z.lor (Z.shiftl (Z.land s0 0x07) 18)
                                                      (Z.shiftl (Z.land s1 0x3F) 12))
                                               (Z.shiftl (Z.land s2 0x3F) 6))
                                        (Z.land s3 0x3F), 4%nat)
                        end
                  end
            end
        end
  end.

(** The last, the last two and the last three bytes of an encoding. *)
Definition tail1 (r : Z) : string :=
  String (byteOf (Z.lor 0x80 (Z.land r 0x3F))) EmptyString.

Definition tail2 (r : Z) : string :=
  String (byteOf (Z.lor 0x80 (Z.land (Z.shiftr r 6) 0x3F))) (tail1 r).

Definition tail3 (r : Z) : string :=
  String (byteOf (Z.lor 0x80 (Z.land (Z.shiftr r 12) 0x3F))) (tail2 r).

(** utf8.AppendRune, the bytes it appends: a rune that is negative (large
    as a uint32), above MaxRune or a surrogate is written as RuneError. *)
Definition AppendRune (r : Z) : string :=
  if (0 <=? r) && (r <=? 0x7F) then String (byteOf r) EmptyString
  else if (0 <=? r) && (r <=? 0x7FF)
  then String (byteOf (Z.lor 0xC0 (Z.shiftr r 6))) (tail1 r)
  else if (r <? 0) || (MaxRune <? r) || ((surrogateMin <=? r) && (r <=? surrogateMax))
  then String (byteOf (Z.lor 0xE0 (Z.shiftr RuneError 12))) (tail2 RuneError)
  else if r <=? 0xFFFF
  then String (byteOf (Z.lor 0xE0 (Z.shiftr r 12))) (tail2 r)
  else String (byteOf (Z.lor 0xF0 (Z.shiftr r 18))) (tail3 r).

(** utf8.ValidRune: a rune that can be encoded, no surrogate. *)
Definition ValidRune (r : Z) : bool :=
  ((0 <=? r) && (r <? surrogateMin)) || ((surrogateMax <? r) && (r <=? MaxRune)).

End utf8.

Module unicode.

Definition MaxASCII : Z := 0x7F.

(** The lower-case column of the table CaseRanges (Unicode 15.0.0): from
    Lo to Hi every Stride-th rune has its lower case Delta further on. The
    table of the source carries the upper-case and title-case deltas as
    well and writes a range of alternating upper and lower case (its
    UpperLower) where this one has the stride 2. *)
Definition CaseRanges : list (Z * Z * Z * Z) :=
  [ (0x41, 0x5A, 1, 32); (0xC0, 0xD6, 1, 32); (0xD8, 0xDE, 1, 32); (0x100, 0x12E, 2, 1);
    (0x130, 0x130, 1, (-199)); (0x132, 0x136, 2, 1); (0x139, 0x147, 2, 1);
    (0x14A, 0x176, 2, 1); (0x178, 0x178, 1, (-121)); (0x179, 0x17D, 2, 1);
    (0x181, 0x181, 1, 210); (0x182, 0x184, 2, 1); (0x186, 0x186, 1, 206);
    (0x187, 0x187, 1, 1); (0x189, 0x18A, 1, 205); (0x18B, 0x18B, 1, 1);
    (0x18E, 0x18E, 1, 79); (0x18F, 0x18F, 1, 202); (0x190, 0x190, 1, 203);
    (0x191, 0x191, 1, 1); (0x193, 0x193, 1, 205); (0x194, 0x194, 1, 207);
    (0x196, 0x196, 1, 211); (0x197, 0x197, 1, 209); (0x198, 0x198, 1, 1);
    (0x19C, 0x19C, 1, 211); (0x19D, 0x19D, 1, 213); (0x19F, 0x19F, 1, 214);
    (0x1A0, 0x1A4, 2, 1); (0x1A6, 0x1A6, 1, 218); (0x1A7, 0x1A7, 1, 1);
    (0x1A9, 0x1A9, 1, 218); (0x1AC, 0x1AC, 1, 1); (0x1AE, 0x1AE, 1, 218);
    (0x1AF, 0x1AF, 1, 1); (0x1B1, 0x1B2, 1, 217); (0x1B3, 0x1B5, 2, 1);
    (0x1B7, 0x1B7, 1, 219); (0x1B8, 0x1B8, 1, 1); (0x1BC, 0x1BC, 1, 1);
    (0x1C4, 0x1C4, 1, 2); (0x1C5, 0x1C5, 1, 1); (0x1C7, 0x1C7, 1, 2);
    (0x1C8, 0x1C8, 1, 1); (0x1CA, 0x1CA, 1, 2); (0x1CB, 0x1DB, 2, 1);
    (0x1DE, 0x1EE, 2, 1); (0x1F1, 0x1F1, 1, 2); (0x1F2, 0x1F4, 2, 1);
    (0x1F6, 0x1F6, 1, (-97)); (0x1F7, 0x1F7, 1, (-56)); (0x1F8, 0x21E, 2, 1);
    (0x220, 0x220, 1, (-130)); (0x222, 0x232, 2, 1); (0x23A, 0x23A, 1, 10795);
    (0x23B, 0x23B, 1, 1); (0x23D, 0x23D, 1, (-163)); (0x23E, 0x23E, 1, 10792);
    (0x241, 0x241, 1, 1); (0x243, 0x243, 1, (-195)); (0x244, 0x244, 1, 69);
    (0x245, 0x245, 1, 71); (0x246, 0x24E, 2, 1); (0x370, 0x372, 2, 1);
    (0x376, 0x376, 1, 1); (0x37F, 0x37F, 1, 116); (0x386, 0x386, 1, 38);
    (0x388, 0x38A, 1, 37); (0x38C, 0x38C, 1, 64); (0x38E, 0x38F, 1, 63);
    (0x391, 0x3A1, 1, 32); (0x3A3, 0x3AB, 1, 32); (0x3CF, 0x3CF, 1, 8);
    (0x3D8, 0x3EE, 2, 1); (0x3F4, 0x3F4, 1, (-60)); (0x3F7, 0x3F7, 1, 1);
    (0x3F9, 0x3F9, 1, (-7)); (0x3FA, 0x3FA, 1, 1); (0x3FD, 0x3FF, 1, (-130));
    (0x400, 0x40F, 1, 80); (0x410, 0x42F, 1, 32); (0x460, 0x480, 2, 1);
    (0x48A, 0x4BE, 2, 1); (0x4C0, 0x4C0, 1, 15); (0x4C1, 0x4CD, 2, 1);
    (0x4D0, 0x52E, 2, 1); (0x531, 0x556, 1, 48); (0x10A0, 0x10C5, 1, 7264);
    (0x10C7, 0x10C7, 1, 7264); (0x10CD, 0x10CD, 1, 7264); (0x13A0, 0x13EF, 1, 38864);
    (0x13F0, 0x13F5, 1, 8); (0x1C90, 0x1CBA, 1, (-3008)); (0x1CBD, 0x1CBF, 1, (-3008));
    (0x1E00, 0x1E94, 2, 1); (0x1E9E, 0x1E9E, 1, (-7615)); (0x1EA0, 0x1EFE, 2, 1);
    (0x1F08, 0x1F0F, 1, (-8)); (0x1F18, 0x1F1D, 1, (-8)); (0x1F28, 0x1F2F, 1, (-8));
    (0x1F38, 0x1F3F, 1, (-8)); (0x1F48, 0x1F4D, 1, (-8)); (0x1F59, 0x1F5F, 2, (-8));
    (0x1F68, 0x1F6F, 1, (-8)); (0x1F88, 0x1F8F, 1, (-8)); (0x1F98, 0x1F9F, 1, (-8));
    (0x1FA8, 0x1FAF, 1, (-8)); (0x1FB8, 0x1FB9, 1, (-8)); (0x1FBA, 0x1FBB, 1, (-74));
    (0x1FBC, 0x1FBC, 1, (-9)); (0x1FC8, 0x1FCB, 1, (-86)); (0x1FCC, 0x1FCC, 1, (-9));
    (0x1FD8, 0x1FD9, 1, (-8)); (0x1FDA, 0x1FDB, 1, (-100)); (0x1FE8, 0x1FE9, 1, (-8));
    (0x1FEA, 0x1FEB, 1, (-112)); (0x1FEC, 0x1FEC, 1, (-7)); (0x1FF8, 0x1FF9, 1, (-128));
    (0x1FFA, 0x1FFB, 1, (-126)); (0x1FFC, 0x1FFC, 1, (-9)); (0x2126, 0x2126, 1, (-7517));
    (0x212A, 0x212A, 1, (-8383)); (0x212B, 0x212B, 1, (-8262)); (0x2132, 0x2132, 1, 28);
    (0x2160, 0x216F, 1, 16); (0x2183, 0x2183, 1, 1); (0x24B6, 0x24CF, 1, 26);
    (0x2C00, 0x2C2F, 1, 48); (0x2C60, 0x2C60, 1, 1); (0x2C62, 0x2C62, 1, (-10743));
    (0x2C63, 0x2C63, 1, (-3814)); (0x2C64, 0x2C64, 1, (-10727)); (0x2C67, 0x2C6B, 2, 1);
    (0x2C6D, 0x2C6D, 1, (-10780)); (0x2C6E, 0x2C6E, 1, (-10749));
    (0x2C6F, 0x2C6F, 1, (-10783)); (0x2C70, 0x2C70, 1, (-10782)); (0x2C72, 0x2C72, 1, 1);
    (0x2C75, 0x2C75, 1, 1); (0x2C7E, 0x2C7F, 1, (-10815)); (0x2C80, 0x2CE2, 2, 1);
    (0x2CEB, 0x2CED, 2, 1); (0x2CF2, 0x2CF2, 1, 1); (0xA640, 0xA66C, 2, 1);
    (0xA680, 0xA69A, 2, 1); (0xA722, 0xA72E, 2, 1); (0xA732, 0xA76E, 2, 1);
    (0xA779, 0xA77B, 2, 1); (0xA77D, 0xA77D, 1, (-35332)); (0xA77E, 0xA786, 2, 1);
    (0xA78B, 0xA78B, 1, 1); (0xA78D, 0xA78D, 1, (-42280)); (0xA790, 0xA792, 2, 1);
    (0xA796, 0xA7A8, 2, 1); (0xA7AA, 0xA7AA, 1, (-42308)); (0xA7AB, 0xA7AB, 1, (-42319));
    (0xA7AC, 0xA7AC, 1, (-42315)); (0xA7AD, 0xA7AD, 1, (-42305));
    (0xA7AE, 0xA7AE, 1, (-42308)); (0xA7B0, 0xA7B0, 1, (-42258));
    (0xA7B1, 0xA7B1, 1, (-42282)); (0xA7B2, 0xA7B2, 1, (-42261));
    (0xA7B3, 0xA7B3, 1, 928); (0xA7B4, 0xA7C2, 2, 1); (0xA7C4, 0xA7C4, 1, (-48));
    (0xA7C5, 0xA7C5, 1, (-42307)); (0xA7C6, 0xA7C6, 1, (-35384)); (0xA7C7, 0xA7C9, 2, 1);
    (0xA7D0, 0xA7D0, 1, 1); (0xA7D6, 0xA7D8, 2, 1); (0xA7F5, 0xA7F5, 1, 1);
    (0xFF21, 0xFF3A, 1, 32); (0x10400, 0x10427, 1, 40); (0x104B0, 0x104D3, 1, 40);
    (0x10570, 0x1057A, 1, 39); (0x1057C, 0x1058A, 1, 39); (0x1058C, 0x10592, 1, 39);
    (0x10594, 0x10595, 1, 39); (0x10C80, 0x10CB2, 1, 64); (0x118A0, 0x118BF, 1, 32);
    (0x16E40, 0x16E5F, 1, 32); (0x1E900, 0x1E921, 1, 34) ].

(** A range holds the rune [r]. *)
Definition holds (r lo hi stride : Z) : bool :=
  if lo <=? r
  then if r <=? hi then (r - lo) mod stride =? 0 else false
  else false.

(** unicode.To for LowerCase: the range of the rune, if there is one,
    gives the delta. *)
Fixpoint to (r : Z) (caseRange : list (Z * Z * Z * Z)) : Z :=
  match caseRange with
  | nil => r
  | (lo, hi, stride, delta) :: rest =>
      if holds r lo hi stride then r + delta else to r rest
  end.

Definition ToLower (r : Z) : Z :=
  if r <=? MaxASCII
  then if (65 <=? r) && (r <=? 90) then r + 32 else r
  else to r CaseRanges.

(** The upper-case column of the same table. *)
Definition UpperCaseRanges : list (Z * Z * Z * Z) :=
  [ (0x61, 0x7A, 1, (-32)); (0xB5, 0xB5, 1, 743); (0xE0, 0xF6, 1, (-32));
    (0xF8, 0xFE, 1, (-32)); (0xFF, 0xFF, 1, 121); (0x101, 0x12F, 2, (-1));
    (0x131, 0x131, 1, (-232)); (0x133, 0x137, 2, (-1)); (0x13A, 0x148, 2, (-1));
    (0x14B, 0x177, 2, (-1)); (0x17A, 0x17E, 2, (-1)); (0x17F, 0x17F, 1, (-300));
    (0x180, 0x180, 1, 195); (0x183, 0x185, 2, (-1)); (0x188, 0x188, 1, (-1));
    (0x18C, 0x18C, 1, (-1)); (0x192, 0x192, 1, (-1)); (0x195, 0x195, 1, 97);
    (0x199, 0x199, 1, (-1)); (0x19A, 0x19A, 1, 163); (0x19E, 0x19E, 1, 130);
    (0x1A1, 0x1A5, 2, (-1)); (0x1A8, 0x1A8, 1, (-1)); (0x1AD, 0x1AD, 1, (-1));
    (0x1B0, 0x1B0, 1, (-1)); (0x1B4, 0x1B6, 2, (-1)); (0x1B9, 0x1B9, 1, (-1));
    (0x1BD, 0x1BD, 1, (-1)); (0x1BF, 0x1BF, 1, 56); (0x1C5, 0x1C5, 1, (-1));
    (0x1C6, 0x1C6, 1, (-2)); (0x1C8, 0x1C8, 1, (-1)); (0x1C9, 0x1C9, 1, (-2));
    (0x1CB, 0x1CB, 1, (-1)); (0x1CC, 0x1CC, 1, (-2)); (0x1CE, 0x1DC, 2, (-1));
    (0x1DD, 0x1DD, 1, (-79)); (0x1DF, 0x1EF, 2, (-1)); (0x1F2, 0x1F2, 1, (-1));
    (0x1F3, 0x1F3, 1, (-2)); (0x1F5, 0x1F5, 1, (-1)); (0x1F9, 0x21F, 2, (-1));
    (0x223, 0x233, 2, (-1)); (0x23C, 0x23C, 1, (-1)); (0x23F, 0x240, 1, 10815);
    (0x242, 0x242, 1, (-1)); (0x247, 0x24F, 2, (-1)); (0x250, 0x250, 1, 10783);
    (0x251, 0x251, 1, 10780); (0x252, 0x252, 1, 10782); (0x253, 0x253, 1, (-210));
    (0x254, 0x254, 1, (-206)); (0x256, 0x257, 1, (-205)); (0x259, 0x259, 1, (-202));
    (0x25B, 0x25B, 1, (-203)); (0x25C, 0x25C, 1, 42319); (0x260, 0x260, 1, (-205));
    (0x261, 0x261, 1, 42315); (0x263, 0x263, 1, (-207)); (0x265, 0x265, 1, 42280);
    (0x266, 0x266, 1, 42308); (0x268, 0x268, 1, (-209)); (0x269, 0x269, 1, (-211));
    (0x26A, 0x26A, 1, 42308); (0x26B, 0x26B, 1, 10743); (0x26C, 0x26C, 1, 42305);
    (0x26F, 0x26F, 1, (-211)); (0x271, 0x271, 1, 10749); (0x272, 0x272, 1, (-213));
    (0x275, 0x275, 1, (-214)); (0x27D, 0x27D, 1, 10727); (0x280, 0x280, 1, (-218));
    (0x282, 0x282, 1, 42307); (0x283, 0x283, 1, (-218)); (0x287, 0x287, 1, 42282);
    (0x288, 0x288, 1, (-218)); (0x289, 0x289, 1, (-69)); (0x28A, 0x28B, 1, (-217));
    (0x28C, 0x28C, 1, (-71)); (0x292, 0x292, 1, (-219)); (0x29D, 0x29D, 1, 42261);
    (0x29E, 0x29E, 1, 42258); (0x345, 0x345, 1, 84); (0x371, 0x373, 2, (-1));
    (0x377, 0x377, 1, (-1)); (0x37B, 0x37D, 1, 130); (0x3AC, 0x3AC, 1, (-38));
    (0x3AD, 0x3AF, 1, (-37)); (0x3B1, 0x3C1, 1, (-32)); (0x3C2, 0x3C2, 1, (-31));
    (0x3C3, 0x3CB, 1, (-32)); (0x3CC, 0x3CC, 1, (-64)); (0x3CD, 0x3CE, 1, (-63));
    (0x3D0, 0x3D0, 1, (-62)); (0x3D1, 0x3D1, 1, (-57)); (0x3D5, 0x3D5, 1, (-47));
    (0x3D6, 0x3D6, 1, (-54)); (0x3D7, 0x3D7, 1, (-8)); (0x3D9, 0x3EF, 2, (-1));
    (0x3F0, 0x3F0, 1, (-86)); (0x3F1, 0x3F1, 1, (-80)); (0x3F2, 0x3F2, 1, 7);
    (0x3F3, 0x3F3, 1, (-116)); (0x3F5, 0x3F5, 1, (-96)); (0x3F8, 0x3F8, 1, (-1));
    (0x3FB, 0x3FB, 1, (-1)); (0x430, 0x44F, 1, (-32)); (0x450, 0x45F, 1, (-80));
    (0x461, 0x481, 2, (-1)); (0x48B, 0x4BF, 2, (-1)); (0x4C2, 0x4CE, 2, (-1));
    (0x4CF, 0x4CF, 1, (-15)); (0x4D1, 0x52F, 2, (-1)); (0x561, 0x586, 1, (-48));
    (0x10D0, 0x10FA, 1, 3008); (0x10FD, 0x10FF, 1, 3008); (0x13F8, 0x13FD, 1, (-8));
    (0x1C80, 0x1C80, 1, (-6254)); (0x1C81, 0x1C81, 1, (-6253));
    (0x1C82, 0x1C82, 1, (-6244)); (0x1C83, 0x1C84, 1, (-6242));
    (0x1C85, 0x1C85, 1, (-6243)); (0x1C86, 0x1C86, 1, (-6236));
    (0x1C87, 0x1C87, 1, (-6181)); (0x1C88, 0x1C88, 1, 35266); (0x1D79, 0x1D79, 1, 35332);
    (0x1D7D, 0x1D7D, 1, 3814); (0x1D8E, 0x1D8E, 1, 35384); (0x1E01, 0x1E95, 2, (-1));
    (0x1E9B, 0x1E9B, 1, (-59)); (0x1EA1, 0x1EFF, 2, (-1)); (0x1F00, 0x1F07, 1, 8);
    (0x1F10, 0x1F15, 1, 8); (0x1F20, 0x1F27, 1, 8); (0x1F30, 0x1F37, 1, 8);
    (0x1F40, 0x1F45, 1, 8); (0x1F51, 0x1F57, 2, 8); (0x1F60, 0x1F67, 1, 8);
    (0x1F70, 0x1F71, 1, 74); (0x1F72, 0x1F75, 1, 86); (0x1F76, 0x1F77, 1, 100);
    (0x1F78, 0x1F79, 1, 128); (0x1F7A, 0x1F7B, 1, 112); (0x1F7C, 0x1F7D, 1, 126);
    (0x1F80, 0x1F87, 1, 8); (0x1F90, 0x1F97, 1, 8); (0x1FA0, 0x1FA7, 1, 8);
    (0x1FB0, 0x1FB1, 1, 8); (0x1FB3, 0x1FB3, 1, 9); (0x1FBE, 0x1FBE, 1, (-7205));
    (0x1FC3, 0x1FC3, 1, 9); (0x1FD0, 0x1FD1, 1, 8); (0x1FE0, 0x1FE1, 1, 8);
    (0x1FE5, 0x1FE5, 1, 7); (0x1FF3, 0x1FF3, 1, 9); (0x214E, 0x214E, 1, (-28));
    (0x2170, 0x217F, 1, (-16)); (0x2184, 0x2184, 1, (-1)); (0x24D0, 0x24E9, 1, (-26));
    (0x2C30, 0x2C5F, 1, (-48)); (0x2C61, 0x2C61, 1, (-1)); (0x2C65, 0x2C65, 1, (-10795));
    (0x2C66, 0x2C66, 1, (-10792)); (0x2C68, 0x2C6C, 2, (-1)); (0x2C73, 0x2C73, 1, (-1));
    (0x2C76, 0x2C76, 1, (-1)); (0x2C81, 0x2CE3, 2, (-1)); (0x2CEC, 0x2CEE, 2, (-1));
    (0x2CF3, 0x2CF3, 1, (-1)); (0x2D00, 0x2D25, 1, (-7264));
    (0x2D27, 0x2D27, 1, (-7264)); (0x2D2D, 0x2D2D, 1, (-7264));
    (0xA641, 0xA66D, 2, (-1)); (0xA681, 0xA69B, 2, (-1)); (0xA723, 0xA72F, 2, (-1));
    (0xA733, 0xA76F, 2, (-1)); (0xA77A, 0xA77C, 2, (-1)); (0xA77F, 0xA787, 2, (-1));
    (0xA78C, 0xA78C, 1, (-1)); (0xA791, 0xA793, 2, (-1)); (0xA794, 0xA794, 1, 48);
    (0xA797, 0xA7A9, 2, (-1)); (0xA7B5, 0xA7C3, 2, (-1)); (0xA7C8, 0xA7CA, 2, (-1));
    (0xA7D1, 0xA7D1, 1, (-1)); (0xA7D7, 0xA7D9, 2, (-1)); (0xA7F6, 0xA7F6, 1, (-1));
    (0xAB53, 0xAB53, 1, (-928)); (0xAB70, 0xABBF, 1, (-38864));
    (0xFF41, 0xFF5A, 1, (-32)); (0x10428, 0x1044F, 1, (-40));
    (0x104D8, 0x104FB, 1, (-40)); (0x10597, 0x105A1, 1, (-39));
    (0x105A3, 0x105B1, 1, (-39)); (0x105B3, 0x105B9, 1, (-39));
    (0x105BB, 0x105BC, 1, (-39)); (0x10CC0, 0x10CF2, 1, (-64));
    (0x118C0, 0x118DF, 1, (-32)); (0x16E60, 0x16E7F, 1, (-32));
    (0x1E922, 0x1E943, 1, (-34)) ].

Definition ToUpper (r : Z) : Z :=
  if r <=? MaxASCII
  then if (97 <=? r) && (r <=? 122) then r - 32 else r
  else to r UpperCaseRanges.

End unicode.

(** s[n:] *)
Fixpoint skip (n : nat) (s : string) : string :=
  match n, s with
  | S n', String _ s' => skip n' s'
  | _, _ => s
  end.

(** The runes that [for _, c := range s] yields: the rune decoded at the
    front, then those of the rest; a byte that starts no valid encoding
    yields RuneError with the width 1. Every width being at least 1, the
    length of [s] is fuel enough. *)
Fixpoint rangeOver (fuel : nat) (s : string) : list Z :=
  match fuel with
  | O => nil
  | S fuel' =>
      match s with
      | EmptyString => nil
      | String _ _ =>
          let '(c, width) := utf8.DecodeRuneInString s in
          c :: rangeOver fuel' (skip width s)
      end
  end.

Definition runes (s : string) : list Z := rangeOver (String.length s) s.

(** strings.Map: every rune of [s] is replaced by its image, written
    with WriteRune, and dropped when the image is negative. The source
    copies the bytes of [s] up to the first rune that changes, or the first
    byte that is no valid encoding, and writes the images from there on; a
    valid rune left unchanged has the bytes WriteRune gives it, so the
    result is the one below. *)
Definition Map (mapping : Z -> Z) (s : string) : string :=
  fold_right
    (fun c out =>
       let r := mapping c in
       if 0 <=? r then utf8.AppendRune r +:+ out else out)
    EmptyString (runes s).

Fixpoint isASCII (s : string) : bool :=
  match s with
  | EmptyString => true
  | String c s' => (byteVal c <? utf8.RuneSelf) && isASCII s'
  end.

Fixpoint hasUpper (s : string) : bool :=
  match s with
  | EmptyString => false
  | String c s' => isUpper c || hasUpper s'
  end.

(** The loop of ToLower over a string of ASCII bytes. *)
Fixpoint lowerBytes (s : string) : string :=
  match s with
  | EmptyString => EmptyString
  | String c s' => String (lowerByte c) (lowerBytes s')
  end.

(** strings.ToLower: a string of bytes below 0x80 is lowered byte by
    byte, or returned as it is when it has no upper-case letter; any other
    string goes through Map(unicode.ToLower, s). *)
Definition ToLower (s : string) : string :=
  if isASCII s
  then if hasUpper s then lowerBytes s else s
  else Map unicode.ToLower s.

Fixpoint HasPrefix (s prefix : string) {struct prefix} : bool :=
  match prefix with
  | EmptyString => true
  | String p prefix' =>
      match s with
      | String c s' => if Ascii.eqb c p then HasPrefix s' prefix' else false
      | EmptyString => false
      end
  end.

(** strings.Split(s, sep) for a separator [sep] of one byte, the only
    use the engine makes of it. The result is never empty. *)
Fixpoint Split (s : string) (sep : ascii) : list string :=
  match s with
  | EmptyString => EmptyString :: nil
  | String c s' =>
      if Ascii.eqb c sep then EmptyString :: Split s' sep
      else
        match Split s' sep with
        | line :: rest => String c line :: rest
        | nil => String c EmptyString :: nil
        end
  end.

(** strings.Contains. *)
Fixpoint Contains (s substr : string) {struct s} : bool :=
  HasPrefix s substr
  || match s with
     | EmptyString => false
     | String _ s' => Contains s' substr
     end.

End strings.

(** ** Package crypto/sha256 and the verb %x of package fmt

    SHA-256 as FIPS 180-4 defines it, on 32-bit words kept in [Z] and
    reduced modulo 2^32 after each addition. *)

Module sha256.

Definition w32 (x : Z) : Z := x mod 2 ^ 32.

Definition rotr (x n : Z) : Z :=
  w32 (Z.lor (Z.shiftr x n) (Z.shiftl x (32 - n))).

Definition not32 (x : Z) : Z := Z.lxor x 0xFFFFFFFF.

(** The first 64 primes, by trial division. *)
Definition isPrime (n : Z) : bool :=
  forallb (fun d => negb (n mod d =? 0)) (map Z.of_nat (seq 2 (Z.to_nat n - 2))).

Definition primes : list Z :=
  Eval vm_compute in firstn 64 (List.filter isPrime (map Z.of_nat (seq 2 310))).

(** The integer cube root of [n], bit by bit from bit [bits] down. *)
Fixpoint root3 (bits : nat) (n r : Z) : Z :=
  match bits with
  | O => r
  | S b =>
      let c := r + 2 ^ Z.of_nat b in
      root3 b n (if c * c * c <=? n then c else r)
  end.

(** The round constants: the first 32 bits of the fractional parts of the
    cube roots of the first 64 primes. *)
Definition K : list Z :=
  Eval vm_compute in map (fun p => w32 (root3 36 (p * 2 ^ 96) 0)) primes.

Record digest := Digest {
  h0 : Z; h1 : Z; h2 : Z; h3 : Z; h4 : Z; h5 : Z; h6 : Z; h7 : Z
}.

(** The initial hash value: the first 32 bits of the fractional parts of
    the square roots of the first 8 primes. *)
Definition frac2 (p : Z) : Z := w32 (Z.sqrt (p * 2 ^ 64)).

Definition init : digest :=
  Eval vm_compute in
    Digest (frac2 2) (frac2 3) (frac2 5) (frac2 7)
           (frac2 11) (frac2 13) (frac2 17) (frac2 19).

(** One round on the working variables a..h. *)
Definition round (d : digest) (kw : Z * Z) : digest :=
  let '(Digest a b c d0 e f g h) := d in
  let s1 := Z.lxor (Z.lxor (rotr e 6) (rotr e 11)) (rotr e 25) in
  let ch := Z.lxor (Z.land e f) (Z.land (not32 e) g) in
  let t1 := w32 (h + s1 + ch + fst kw + snd kw) in
  let s0 := Z.lxor (Z.lxor (rotr a 2) (rotr a 13)) (rotr a 22) in
  let maj := Z.lxor (Z.lxor (Z.land a b) (Z.land a c)) (Z.land b c) in
  let t2 := w32 (s0 + maj) in
  Digest (w32 (t1 + t2)) a b c (w32 (d0 + t1)) e f g.

(** The message schedule, latest word first: [extend n ws] adds [n]
    words to the 16 words of the block. *)
Fixpoint extend (n : nat) (ws : list Z) : list Z :=
  match n with
  | O => ws
  | S n' =>
      let w2 := nth 1 ws 0 in
      let w7 := nth 6 ws 0 in
      let w15 := nth 14 ws 0 in
      let w16 := nth 15 ws 0 in
      let sg0 := Z.lxor (Z.lxor (rotr w15 7) (rotr w15 18)) (Z.shiftr w15 3) in
      let sg1 := Z.lxor (Z.lxor (rotr w2 17) (rotr w2 19)) (Z.shiftr w2 10) in
      extend n' (w32 (sg1 + w7 + sg0 + w16) :: ws)
  end.

(** Big-endian words of a block. *)
Fixpoint words (n : nat) (bs : list Z) : list Z :=
  match n with
  | O => nil
  | S n' =>
      (nth 0 bs 0 * 2 ^ 24 + nth 1 bs 0 * 2 ^ 16 + nth 2 bs 0 * 2 ^ 8 + nth 3 bs 0)
        :: words n' (skipn 4 bs)
  end.

Definition block (d : digest) (bs : list Z) : digest :=
  let ws := rev (extend 48 (rev (words 16 bs))) in
  let r := fold_left round (combine K ws) d in
  Digest (w32 (h0 d + h0 r)) (w32 (h1 d + h1 r)) (w32 (h2 d + h2 r)) (w32 (h3 d + h3 r))
         (w32 (h4 d + h4 r)) (w32 (h5 d + h5 r)) (w32 (h6 d + h6 r)) (w32 (h7 d + h7 r)).

Fixpoint blocks (n : nat) (d : digest) (bs : list Z) : digest :=
  match n with
  | O => d
  | S n' => blocks n' (block d (firstn 64 bs)) (skipn 64 bs)
  end.

(** The length in bits, a uint64, on eight bytes, most significant first. *)
Definition lenBytes (len : Z) : list Z :=
  let bits := (len * 8) mod 2 ^ 64 in
  map (fun i => Z.shiftr bits (8 * i) mod 256) [7; 6; 5; 4; 3; 2; 1; 0].

Definition pad (msg : list Z) : list Z :=
  let len := Z.of_nat (length msg) in
  msg ++ 0x80 :: repeat 0 (Z.to_nat ((55 - len) mod 64)) ++ lenBytes len.

Definition wordBytes (w : Z) : list Z :=
  [ Z.shiftr w 24 mod 256; Z.shiftr w 16 mod 256; Z.shiftr w 8 mod 256; w mod 256 ].

(** sha256.Sum256: the 32 bytes of the digest. *)
Definition Sum256 (msg : list Z) : list Z :=
  let p := pad msg in
  let '(Digest a b c d e f g h) := blocks (length p / 64)%nat init p in
  wordBytes a ++ wordBytes b ++ wordBytes c ++ wordBytes d
    ++ wordBytes e ++ wordBytes f ++ wordBytes g ++ wordBytes h.

End sha256.

Module fmt.

Definition hexDigit (n : Z) : ascii :=
  if n <? 10 then strings.byteOf (48 + n) else strings.byteOf (87 + n).

(** fmt.Sprintf("%x", h) for a byte array [h]: two lower-case hexadecimal
    digits per byte. *)
Fixpoint hex (bs : list Z) : string :=
  match bs with
  | nil => EmptyString
  | b :: bs' => String (hexDigit (b / 16)) (String (hexDigit (b mod 16)) (hex bs'))
  end.

End fmt.

(** ** Errors

    The Go code builds its errors with fmt.Errorf; one constructor stands
    for each message format, the wrapped cause (%w) as an argument. *)

Inductive error : Type :=
| SqlClosed                                   (* sql: database is closed *)
| External (msg : string)                     (* reported by the network or a parser *)
| CacheGetError (queryHash : string) (cause : error)   (* cache: get %q: %w *)
| CacheSetError (queryHash : string) (cause : error)   (* cache: set %q: %w *)
| CacheClearError (cause : error)                      (* cache: clear: %w *)
| EngineCacheGet (cause : error)              (* engine: cache get: %w *)
| EngineSearch (cause : error)                (* engine: search: %w *)
| EngineNoResults (query : string)            (* engine: no search results for %q *)
| EngineAllFailed (query : string)            (* engine: all pages failed to scrape for %q *)
| EngineCacheSet (cause : error)              (* engine: cache set: %w *)
| EngineClearCache (cause : error).           (* engine: clear cache: %w *)

(** ** Package time

    Instants are nanoseconds since the Unix epoch; a Duration is an int64
    count of nanoseconds. *)

Module time.

Definition Second : Z := 1000000000.
Definition Hour : Z := 3600 * Second.

Definition minDuration : Z := - 2 ^ 63.
Definition maxDuration : Z := 2 ^ 63 - 1.

(** Time.Sub saturates at the bounds of Duration. *)
Definition Sub (t u : Z) : Z :=
  Z.max minDuration (Z.min maxDuration (t - u)).

(** time.Since(t) at the instant [now]. *)
Definition Since (now t : Z) : Z := Sub now t.

End time.

(** ** Package cache *)

Module cache.

Definition cacheTTL : Z := 24 * time.Hour.

(** A row of table [cache]; [query_hash] is the primary key and [content]
    is NOT NULL. [updated_at] holds CURRENT_TIMESTAMP, which SQLite keeps
    to the second: it is counted in seconds since the epoch. *)
Record row := Row {
  content : string;
  updated_at : Z
}.

(** The state behind a [*Cache]: the rows of the table by key, and
    whether the handle has been closed. *)
Record Cache := mkCache {
  rows : gmap string row;
  closed : bool
}.

(** CURRENT_TIMESTAMP at the instant [now]. *)
Definition CURRENT_TIMESTAMP (now : Z) : Z := now / time.Second.

(** The time.Time that Scan builds from a stored [updated_at]. *)
Definition scanTime (stamp : Z) : Z := stamp * time.Second.

Definition Get (now : Z) (queryHash : string) (c : Cache)
  : string * bool * option error :=
  if closed c then (EmptyString, false, Some (CacheGetError queryHash SqlClosed))
  else
    match rows c !! queryHash with
    | None => (EmptyString, false, None)
    | Some r =>
        if time.Since now (scanTime (updated_at r)) >? cacheTTL
        then (EmptyString, false, None)
        else (content r, true, None)
    end.

(** Cache.Set; [Set] alone is a reserved word. *)
Definition Set_ (now : Z) (queryHash content : string) (c : Cache)
  : Cache * option error :=
  if closed c then (c, Some (CacheSetError queryHash SqlClosed))
  else
    (mkCache (<[queryHash := Row content (CURRENT_TIMESTAMP now)]> (rows c)) (closed c),
     None).

Definition Clear (queryHash : string) (c : Cache) : Cache * option error :=
  if closed c then (c, Some (CacheClearError SqlClosed))
  else if String.eqb queryHash EmptyString
       then (mkCache ∅ (closed c), None)
       else (mkCache (delete queryHash (rows c)) (closed c), None).

Definition Close (c : Cache) : Cache * option error :=
  (mkCache (rows c) true, None).

End cache.

(** ** Package strconv *)

Module strconv.

Definition minInt : Z := - 2 ^ 63.
Definition maxInt : Z := 2 ^ 63 - 1.

(** The value of a string of decimal digits read after [acc], if it is
    one. *)
Fixpoint digits (s : string) (acc : Z) : option Z :=
  match s with
  | EmptyString => Some acc
  | String c s' =>
      let d := strings.byteVal c - 48 in
      if (0 <=? d) && (d <=? 9) then digits s' (acc * 10 + d) else None
  end.

(** strconv.Atoi on a 64-bit platform, [None] standing for any error: an
    optional sign, then one decimal digit or more and nothing else, the
    value within the range of int. *)
Definition Atoi (s : string) : option Z :=
  match s with
  | EmptyString => None
  | String c rest =>
      let neg := Ascii.eqb c "-" in
      let body := if neg || Ascii.eqb c "+" then rest else s in
      match body with
      | EmptyString => None
      | String _ _ =>
          match digits body 0 with
          | Some n =>
              let v := if neg then - n else n in
              if (minInt <=? v) && (v <=? maxInt) then Some v else None
          | None => None
          end
      end
  end.

(** The decimal digits of [n], not negative, written before [rest]. *)
Fixpoint digitsOf (fuel : nat) (n : Z) (rest : string) : string :=
  match fuel with
  | O => rest
  | S fuel' =>
      let rest' := String (strings.byteOf (48 + n mod 10)) rest in
      if n <? 10 then rest' else digitsOf fuel' (n / 10) rest'
  end.

(** strconv.FormatInt(n, 10), which is also what the verb %d prints, for
    an int [n]: 20 digits are enough. *)
Definition FormatInt (n : Z) : string :=
  if n <? 0 then String "-" (digitsOf 20 (- n) EmptyString)
  else digitsOf 20 n EmptyString.

End strconv.

(** ** Package net/url *)

Module url.

Definition unreserved (c : ascii) : bool :=
  let v := strings.byteVal c in
  ((97 <=? v) && (v <=? 122)) || ((65 <=? v) && (v <=? 90))
  || ((48 <=? v) && (v <=? 57))
  || (v =? 45) || (v =? 95) || (v =? 46) || (v =? 126).

Definition upperhex (n : Z) : ascii :=
  if n <? 10 then strings.byteOf (48 + n) else strings.byteOf (55 + n).

(** url.QueryEscape: letters, digits and - _ . ~ are kept, a space
    becomes +, any other byte %XX. *)
Fixpoint QueryEscape (s : string) : string :=
  match s with
  | EmptyString => EmptyString
  | String c s' =>
      if unreserved c then String c (QueryEscape s')
      else if Ascii.eqb c " " then String "+" (QueryEscape s')
      else String "%" (String (upperhex (strings.byteVal c / 16))
                         (String (upperhex (strings.byteVal c mod 16)) (QueryEscape s')))
  end.

(** stringContainsCTLByte: a byte below 0x20, or 0x7F. *)
Fixpoint stringContainsCTLByte (s : string) : bool :=
  match s with
  | EmptyString => false
  | String c s' =>
      (strings.byteVal c <? 32) || (strings.byteVal c =? 0x7F)
      || stringContainsCTLByte s'
  end.

(** What url.Parse keeps of strings.Cut(rawURL, "#") for its parser: the
    part before the first '#'. *)
Fixpoint beforeFragment (rawURL : string) : string :=
  match rawURL with
  | EmptyString => EmptyString
  | String c s' =>
      if Ascii.eqb c "#" then EmptyString else String c (beforeFragment s')
  end.

(** The first test of url.Parse, the one http.NewRequestWithContext fails
    on for a control byte: the fragment is cut off, and what is left is
    refused ("invalid control character in URL") when it holds a control
    byte. The fragment itself goes through setFragment, which refuses
    malformed escapes only. *)
Definition invalidControl (rawURL : string) : bool :=
  stringContainsCTLByte (beforeFragment rawURL).

End url.

(** ** Package search *)

Module search.

Record Result := mkResult {
  URL : string;
  Title : string
}.

(** An anchor of the fetched page as goquery presents it: its href
    attribute if it has one, its text, and what url.Parse and Query().Get
    make of the href, [None] when it does not parse and otherwise the
    value of the parameter the scraper reads (q on a Google page, uddg on a
    DuckDuckGo page). *)
Record Anchor := mkAnchor {
  href : option string;
  text : string;
  target : option string
}.

(** A div of class g: its first anchor (with no href and no text when the
    div has none) and the text of its first h3. *)
Record Block := mkBlock {
  link : Anchor;
  heading : string
}.

(** The selections the scrapers make in a document: div.g, a and
    a.result__a. *)
Record Document := mkDocument {
  blocks : list Block;
  anchors : list Anchor;
  resultAnchors : list Anchor
}.

(** fetchDocument, seen from the scrapers: the document behind a URL, or
    the failure of the request, of the status check or of the parser. *)
Definition Web : Type := string -> Document + error.

Record Bases := mkBases {
  baseURLGoogle : string;
  baseURLDuckDuckGo : string
}.

Inductive failure : Type :=
| GoogleFailed (cause : error)          (* search google: %w *)
| DuckDuckGoFailed (cause : error).     (* search duckduckgo: %w *)

Definition len (results : list Result) : Z := Z.of_nat (length results).

(** The closure searchGoogle runs on each div.g. *)
Definition googleBlock (count : Z) (results : list Result) (s : Block) : list Result :=
  if count <=? len results then results
  else
    match href (link s) with
    | None => results
    | Some h =>
        if String.eqb h EmptyString then results
        else if strings.HasPrefix h "/" || strings.Contains h "google.com" then results
        else
          let title := if String.eqb (heading s) EmptyString then text (link s)
                       else heading s in
          results ++ [mkResult h (strings.TrimSpace title)]
    end.

(** The closure of the fallback of searchGoogle, on each anchor. *)
Definition googleAnchor (count : Z) (results : list Result) (s : Anchor) : list Result :=
  if count <=? len results then results
  else
    match href s with
    | None => results
    | Some h =>
        let h := if strings.HasPrefix h "/url?"
                 then match target s with
                      | Some q => q
                      | None => h
                      end
                 else h in
        if String.eqb h EmptyString || negb (strings.HasPrefix h "http") then results
        else if strings.Contains h "google.com" || strings.Contains h "youtube.com"
        then results
        else
          let title := strings.TrimSpace (text s) in
          if String.eqb title EmptyString || (200 <? Z.of_nat (String.length title))
          then results
          else results ++ [mkResult h title]
    end.

(** The address searchGoogle requests, its variable u. *)
Definition googleURL (bases : Bases) (query : string) (count : Z) : string :=
  baseURLGoogle bases +:+ "/search?q=" +:+ url.QueryEscape query
  +:+ "&num=" +:+ strconv.FormatInt count.

Definition searchGoogle (bases : Bases) (web : Web) (query : string) (count : Z)
  : list Result + failure :=
  match web (googleURL bases query count) with
  | inr err => inr (GoogleFailed err)
  | inl doc =>
      let results := fold_left (googleBlock count) (blocks doc) nil in
      let results :=
        match results with
        | nil => fold_left (googleAnchor count) (anchors doc) results
        | _ :: _ => results
        end in
      inl results
  end.

(** The closure searchDuckDuckGo runs on each a.result__a. *)
Definition duckAnchor (count : Z) (results : list Result) (s : Anchor) : list Result :=
  if count <=? len results then results
  else
    match href s with
    | None => results
    | Some h =>
        if String.eqb h EmptyString then results
        else
          let h := if strings.Contains h "duckduckgo.com/l/?"
                   then match target s with
                        | Some uddg => if String.eqb uddg EmptyString then h else uddg
                        | None => h
                        end
                   else h in
          results ++ [mkResult h (strings.TrimSpace (text s))]
    end.

(** The address searchDuckDuckGo requests, its variable u. *)
Definition duckDuckGoURL (bases : Bases) (query : string) : string :=
  baseURLDuckDuckGo bases +:+ "/html/?q=" +:+ url.QueryEscape query.

Definition searchDuckDuckGo (bases : Bases) (web : Web) (query : string) (count : Z)
  : list Result + failure :=
  match web (duckDuckGoURL bases query) with
  | inr err => inr (DuckDuckGoFailed err)
  | inl doc => inl (fold_left (duckAnchor count) (resultAnchors doc) nil)
  end.

(** search.Search: "duckduckgo" and "ddg", in any letter case, select
    DuckDuckGo, every other name Google. *)
Definition Search (bases : Bases) (web : Web) (query : string) (count : Z)
    (engine : string) : list Result + failure :=
  let name := strings.ToLower engine in
  if String.eqb name "duckduckgo" || String.eqb name "ddg"
  then searchDuckDuckGo bases web query count
  else searchGoogle bases web query count.

End search.

(** ** Package scraper *)

Module scraper.

Record ScrapedPage := mkPage {
  URL : string;
  Content : string;
  Err : option error
}.

(** The zero value, as make([]ScrapedPage, n) fills the slice. *)
Definition zeroPage : ScrapedPage := mkPage EmptyString EmptyString None.

(** The network, seen from Scrape: what the goroutine started for index
    [idx] obtains for [rawURL], the text readability extracts or the
    failure of the request, of the status check or of the parser. *)
Definition Network : Type := nat -> string -> string + error.

(** scrapeSingle: every failing return carries the empty string. *)
Definition scrapeSingle (net : Network) (idx : nat) (rawURL : string)
  : string * option error :=
  match net idx rawURL with
  | inl text => (text, None)
  | inr e => (EmptyString, Some e)
  end.

(** The body of one goroutine: results[idx] = ScrapedPage{...}. *)
Definition task (net : Network) (results : list ScrapedPage)
    (idx : nat) (rawURL : string) : list ScrapedPage :=
  let '(content, err) := scrapeSingle net idx rawURL in
  <[idx := mkPage rawURL content err]> results.

(** The goroutines complete in the order [sched], a list of indexes. *)
Definition complete (net : Network) (urls : list string)
    (results : list ScrapedPage) (sched : list nat) : list ScrapedPage :=
  fold_left
    (fun res idx =>
       match urls !! idx with
       | Some u => task net res idx u
       | None => res
       end)
    sched results.

(** Scrape under a schedule: one goroutine per index of [urls], and
    wg.Wait() returns once each of them has completed. *)
Definition ScrapeUnder (sched : list nat) (net : Network) (urls : list string)
  : list ScrapedPage :=
  complete net urls (replicate (length urls) zeroPage) sched.

(** Scrape, the goroutines completing in the order they were started. *)
Definition Scrape (net : Network) (urls : list string) : list ScrapedPage :=
  ScrapeUnder (seq 0 (length urls)) net urls.

End scraper.

(** ** Package engine *)

Module engine.

Import scraper.

Record Config := mkConfig {
  SearchEngine : string;
  RateLimit : Z
}.

Record SearchResult := mkSearchResult {
  Content : string;
  ResultCount : Z;
  FromCache : bool
}.

Definition newline : ascii := strings.byteOf 10.
Definition nl : string := String newline EmptyString.

(** The divider between two sections. *)
Definition divider : string := nl +:+ nl +:+ "---" +:+ nl +:+ nl.

(** queryHash: SHA-256 of the normalized query, in hexadecimal. *)
Definition queryHash (query : string) : string :=
  let normalized := strings.TrimSpace (strings.ToLower query) in
  let h := sha256.Sum256 (strings.toBytes normalized) in
  fmt.hex h.

Definition skipped (p : ScrapedPage) : bool :=
  match Err p with
  | Some _ => true
  | None => String.eqb (strings.TrimSpace (scraper.Content p)) EmptyString
  end.

(** One iteration of the loop of consolidate on the builder [b] and the
    counter [count]. *)
Definition consolidateStep (acc : string * Z) (p : ScrapedPage) : string * Z :=
  let '(b, count) := acc in
  if skipped p then (b, count)
  else
    let b := if 0 <? count then b +:+ divider else b in
    (b +:+ "## " +:+ URL p +:+ nl +:+ nl +:+ strings.TrimSpace (scraper.Content p),
     count + 1).

Definition consolidate (pages : list ScrapedPage) : string * Z :=
  fold_left consolidateStep pages (EmptyString, 0).

Definition countSections (content : string) : Z :=
  fold_left
    (fun count line => if strings.HasPrefix line "## " then count + 1 else count)
    (strings.Split content newline) 0.

(** *** The world around one call

    The collaborators of the engine are the search package, which
    scrapes a result page, and the network behind the scraper. *)
Record Env := mkEnv {
  searchSearch : string -> Z -> string -> list search.Result + error;
  searchTime : Z;          (* how long search.Search takes *)
  network : Network;
  scrapeTime : Z           (* how long scraper.Scrape takes *)
}.

Record World := mkWorld {
  store : cache.Cache;     (* what e.cache points to *)
  clock : Z
}.

Inductive Event : Type :=
| CacheRead (queryHash : string)
| Discover (query : string) (count : Z) (searchEngine : string)
| Sleep (d : Z)
| Fetch (urls : list string)
| CacheWrite (queryHash content : string)
| CacheDelete (queryHash : string).

(** What a call leaves behind: its result, the world after it and the
    effects it performed, in order. *)
Record Out (A : Type) := mkOut {
  res : error + A;
  world : World;
  events : list Event
}.
Arguments mkOut {A}.
Arguments res {A}.
Arguments world {A}.
Arguments events {A}.

Definition M (A : Type) : Type := World -> Out A.

Definition ret {A} (a : A) : M A := fun w => mkOut (inr a) w nil.

Definition fail {A} (e : error) : M A := fun w => mkOut (inl e) w nil.

Definition bind {A B} (m : M A) (k : A -> M B) : M B :=
  fun w =>
    let o := m w in
    match res o with
    | inl e => mkOut (inl e) (world o) (events o)
    | inr a =>
        let o' := k a (world o) in
        mkOut (res o') (world o') (events o ++ events o')
    end.

(** fmt.Errorf("...: %w", err) on the error of [m]. *)
Definition wrap {A} (f : error -> error) (m : M A) : M A :=
  fun w =>
    let o := m w in
    match res o with
    | inl e => mkOut (inl (f e)) (world o) (events o)
    | inr a => o
    end.

Notation "x <- m ;; k" := (bind m (fun x => k))
  (at level 100, m at next level, right associativity).
Notation "m ;;; k" := (bind m (fun _ => k))
  (at level 100, right associativity).

Definition ofErr (err : option error) : error + unit :=
  match err with
  | Some e => inl e
  | None => inr tt
  end.

Definition cacheGet (queryHash : string) : M (string * bool) :=
  fun w =>
    let '(content, hit, err) := cache.Get (clock w) queryHash (store w) in
    mkOut (match err with Some e => inl e | None => inr (content, hit) end)
          w [CacheRead queryHash].

Definition cacheSet (queryHash content : string) : M unit :=
  fun w =>
    let '(c, err) := cache.Set_ (clock w) queryHash content (store w) in
    mkOut (ofErr err) (mkWorld c (clock w)) [CacheWrite queryHash content].

Definition cacheClear (queryHash : string) : M unit :=
  fun w =>
    let '(c, err) := cache.Clear queryHash (store w) in
    mkOut (ofErr err) (mkWorld c (clock w)) [CacheDelete queryHash].

Definition discover (env : Env) (query : string) (count : Z) (eng : string)
  : M (list search.Result) :=
  fun w =>
    mkOut (match searchSearch env query count eng with
           | inl results => inr results
           | inr e => inl e
           end)
          (mkWorld (store w) (clock w + searchTime env))
          [Discover query count eng].

Definition sleep (d : Z) : M unit :=
  fun w => mkOut (inr tt) (mkWorld (store w) (clock w + d)) [Sleep d].

Definition scrape (env : Env) (urls : list string) : M (list ScrapedPage) :=
  fun w =>
    mkOut (inr (Scrape (network env) urls))
          (mkWorld (store w) (clock w + scrapeTime env))
          [Fetch urls].

(** Steps 2 to 5 of Search: what runs when no cached answer is
    returned. *)
Definition pipeline (config : Config) (env : Env) (hash query : string)
    (count : Z) : M SearchResult :=
  results <- wrap EngineSearch (discover env query count (SearchEngine config)) ;;
  match results with
  | nil => fail (EngineNoResults query)
  | _ :: _ =>
      (if 0 <? RateLimit config then sleep (RateLimit config) else ret tt) ;;;
      let urls := map search.URL results in
      pages <- scrape env urls ;;
      let '(content, resultCount) := consolidate pages in
      if String.eqb content EmptyString then fail (EngineAllFailed query)
      else
        wrap EngineCacheSet (cacheSet hash content) ;;;
        ret (mkSearchResult content resultCount false)
  end.

Definition Search (config : Config) (env : Env) (query : string) (count : Z)
    (force : bool) : M SearchResult :=
  let hash := queryHash query in
  if negb force then
    got <- wrap EngineCacheGet (cacheGet hash) ;;
    let '(content, hit) := got in
    if (hit : bool) then ret (mkSearchResult content (countSections content) true)
    else pipeline config env hash query count
  else pipeline config env hash query count.

Definition ClearCache (query : string) : M unit :=
  let hash := if negb (String.eqb query EmptyString) then queryHash query
              else EmptyString in
  wrap EngineClearCache (cacheClear hash).

End engine.

(** ** The vocabulary of the specification

    The definitions of this module follow the words of the specification;
    the theorems below compare them with the code above. *)

Module Spec.

Import scraper engine.

(** strings.Join. *)
Fixpoint Join (elems : list string) (sep : string) : string :=
  match elems with
  | nil => EmptyString
  | x :: rest =>
      match rest with
      | nil => x
      | _ :: _ => x +:+ sep +:+ Join rest sep
      end
  end.

(** A fetch result survives consolidation when it carries no error and
    its text is not white space only. *)
Definition survivor (p : ScrapedPage) : bool :=
  match Err p with
  | None => negb (String.eqb (strings.TrimSpace (scraper.Content p)) EmptyString)
  | Some _ => false
  end.

Definition survivors (pages : list ScrapedPage) : list ScrapedPage :=
  List.filter survivor pages.

(** The text of a survivor as the document includes it. *)
Definition text (p : ScrapedPage) : string :=
  strings.TrimSpace (scraper.Content p).

(** A section: the header line naming the source URL, a blank line, the
    text. *)
Definition section (p : ScrapedPage) : string :=
  "## " +:+ URL p +:+ nl +:+ nl +:+ text p.

Definition document (pages : list ScrapedPage) : string :=
  Join (map section (survivors pages)) divider.

Definition survivorCount (pages : list ScrapedPage) : Z :=
  Z.of_nat (length (survivors pages)).

(** A line that begins with the marker of a section header. *)
Definition headerLine (line : string) : bool := strings.HasPrefix line "## ".

(** [s] contains a line beginning with the marker. *)
Definition hasHeaderLine (s : string) : Prop :=
  exists line, In line (strings.Split s newline) /\ headerLine line = true.

(** A line of [s] after its first begins with the marker: [s] contains
    a line break followed by the marker. *)
Definition hasLaterHeaderLine (s : string) : Prop :=
  exists line, In line (tl (strings.Split s newline)) /\ headerLine line = true.

(** The number of lines of [s] that begin with the marker. *)
Definition headers (s : string) : nat :=
  length (List.filter headerLine (strings.Split s newline)).

(** The same, the first line of [u] left out. *)
Definition laterHeaders (u : string) : nat :=
  length (List.filter headerLine (tl (strings.Split u newline))).

(** What a survivor adds to the count beyond its own header. *)
Definition extra (p : ScrapedPage) : nat :=
  (laterHeaders (URL p) + headers (text p))%nat.

Fixpoint total (l : list nat) : nat :=
  match l with
  | nil => 0%nat
  | n :: l' => (n + total l')%nat
  end.

(** Two runes are the same letter when they are equal or one is the
    lower-case form of the other. *)
Definition sameLetter (a b : Z) : Prop :=
  a = b \/ strings.unicode.ToLower a = b \/ strings.unicode.ToLower b = a.

(** Two strings that differ only in letter case: rune by rune, they
    hold the same letters. *)
Definition caseVariant (s t : string) : Prop :=
  Forall2 sameLetter (strings.runes s) (strings.runes t).

(** The runes of a range of the case table. *)
Definition points (e : Z * Z * Z * Z) : list Z :=
  let '(lo, hi, stride, _) := e in
  List.filter (fun r => (r - lo) mod stride =? 0)
    (map (fun k => lo + Z.of_nat k) (seq 0 (Z.to_nat (hi - lo + 1)))).

(** The runes that have a lower-case form other than themselves. *)
Definition cased : list Z := flat_map points strings.unicode.CaseRanges.

(** A string made of white space runes only. *)
Inductive whiteSpace : string -> Prop :=
| whiteSpace_nil : whiteSpace EmptyString
| whiteSpace_rune r s :
    strings.spaceRune r = true -> whiteSpace s -> whiteSpace (r +:+ s).

(** Two queries that differ only in leading and trailing white space or
    in that letters of the one are the lower-case forms of the letters of
    the other: white space around two cores that hold the same letters. *)
Definition sameQuery (q1 q2 : string) : Prop :=
  exists l1 c1 r1 l2 c2 r2,
    q1 = l1 +:+ c1 +:+ r1 /\ q2 = l2 +:+ c2 +:+ r2
    /\ whiteSpace l1 /\ whiteSpace r1 /\ whiteSpace l2 /\ whiteSpace r2
    /\ caseVariant c1 c2.

(** Letter case as the claim has it, with no word on which form is the
    reference: two runes are forms of one letter when they are equal or
    one is the lower-case or the upper-case form of the other. *)
Definition caseForms (a b : Z) : Prop :=
  sameLetter a b
  \/ strings.unicode.ToUpper a = b \/ strings.unicode.ToUpper b = a.

Definition caseFormVariant (s t : string) : Prop :=
  Forall2 caseForms (strings.runes s) (strings.runes t).

(** Two queries that differ only in the case forms of their letters or
    in leading and trailing white space. *)
Definition sameQueryAnyCase (q1 q2 : string) : Prop :=
  exists l1 c1 r1 l2 c2 r2,
    q1 = l1 +:+ c1 +:+ r1 /\ q2 = l2 +:+ c2 +:+ r2
    /\ whiteSpace l1 /\ whiteSpace r1 /\ whiteSpace l2 /\ whiteSpace r2
    /\ caseFormVariant c1 c2.

(** The digits of lower-case hexadecimal. *)
Definition isHexDigit (c : ascii) : bool :=
  let v := strings.byteVal c in
  ((48 <=? v) && (v <=? 57)) || ((97 <=? v) && (v <=? 102)).

Fixpoint allHex (s : string) : bool :=
  match s with
  | EmptyString => true
  | String c s' => isHexDigit c && allHex s'
  end.

(** A byte that is not a continuation byte of UTF-8. *)
Definition startByte (b : ascii) : Prop :=
  strings.byteVal b < 0x80 \/ 0xC0 <= strings.byteVal b.

Definition cleanStart (s : string) : Prop :=
  match s with
  | EmptyString => True
  | String b _ => startByte b
  end.

(** The result of the goroutine started for index [idx] and URL [u]. *)
Definition fetched (net : Network) (idx : nat) (u : string) : ScrapedPage :=
  mkPage u (fst (scrapeSingle net idx u)) (snd (scrapeSingle net idx u)).

(** A network behind which the request is created as scrapeSingle creates
    it: for a URL that url.Parse refuses for a control byte the goroutine
    obtains the error of http.NewRequestWithContext. *)
Definition checksRequest (net : Network) : Prop :=
  forall idx u, url.invalidControl u = true -> exists e, net idx u = inr e.

(** The fetches that failed. *)
Definition failure (p : ScrapedPage) : bool :=
  match Err p with
  | Some _ => true
  | None => false
  end.

(** The fetches that succeeded with a text of white space only. *)
Definition blank (p : ScrapedPage) : bool :=
  match Err p with
  | Some _ => false
  | None => String.eqb (strings.TrimSpace (scraper.Content p)) EmptyString
  end.

(** The rate-limit wait of a call: one fixed delay, skipped when the
    configured delay is not positive. *)
Definition pause (config : Config) : list Event :=
  if 0 <? RateLimit config then [Sleep (RateLimit config)] else [].

Definition pauseTime (config : Config) : Z :=
  if 0 <? RateLimit config then RateLimit config else 0.

(** The instant at which a run that fetched reaches the cache again. *)
Definition storeTime (config : Config) (env : Env) (w : World) : Z :=
  clock w + searchTime env + pauseTime config + scrapeTime env.

(** The ways through steps 2 to 5 of a run, by the answer of discovery, the
    number of survivors and the state of the store. *)
Inductive Run (config : Config) (env : Env) (hash query : string) (count : Z)
    (w : World) : Out SearchResult -> Prop :=
| RunDiscoveryError e :
    searchSearch env query count (SearchEngine config) = inr e ->
    Run config env hash query count w
      (mkOut (inl (EngineSearch e))
             (mkWorld (store w) (clock w + searchTime env))
             [Discover query count (SearchEngine config)])
| RunNoResults :
    searchSearch env query count (SearchEngine config) = inl nil ->
    Run config env hash query count w
      (mkOut (inl (EngineNoResults query))
             (mkWorld (store w) (clock w + searchTime env))
             [Discover query count (SearchEngine config)])
| RunAllFailed results :
    searchSearch env query count (SearchEngine config) = inl results ->
    results <> nil ->
    survivors (Scrape (network env) (map search.URL results)) = nil ->
    Run config env hash query count w
      (mkOut (inl (EngineAllFailed query))
             (mkWorld (store w) (storeTime config env w))
             (Discover query count (SearchEngine config)
                :: pause config ++ [Fetch (map search.URL results)]))
| RunStoreError results :
    searchSearch env query count (SearchEngine config) = inl results ->
    results <> nil ->
    survivors (Scrape (network env) (map search.URL results)) <> nil ->
    cache.closed (store w) = true ->
    Run config env hash query count w
      (mkOut (inl (EngineCacheSet (CacheSetError hash SqlClosed)))
             (mkWorld (store w) (storeTime config env w))
             (Discover query count (SearchEngine config)
                :: pause config
                ++ [Fetch (map search.URL results);
                    CacheWrite hash
                      (document (Scrape (network env) (map search.URL results)))]))
| RunStored results :
    searchSearch env query count (SearchEngine config) = inl results ->
    results <> nil ->
    survivors (Scrape (network env) (map search.URL results)) <> nil ->
    cache.closed (store w) = false ->
    Run config env hash query count w
      (mkOut (inr (mkSearchResult
                     (document (Scrape (network env) (map search.URL results)))
                     (survivorCount (Scrape (network env) (map search.URL results)))
                     false))
             (mkWorld
                (fst (cache.Set_ (storeTime config env w) hash
                        (document (Scrape (network env) (map search.URL results)))
                        (store w)))
                (storeTime config env w))
             (Discover query count (SearchEngine config)
                :: pause config
                ++ [Fetch (map search.URL results);
                    CacheWrite hash
                      (document (Scrape (network env) (map search.URL results)))])).

(** The ways through Search: forced, failing or hitting or missing on
    the cache read. *)
Inductive SearchRun (config : Config) (env : Env) (query : string) (count : Z)
    (w : World) : bool -> Out SearchResult -> Prop :=
| SearchForced o :
    Run config env (queryHash query) query count w o ->
    SearchRun config env query count w true o
| SearchReadError content hit e :
    cache.Get (clock w) (queryHash query) (store w) = (content, hit, Some e) ->
    SearchRun config env query count w false
      (mkOut (inl (EngineCacheGet e)) w [CacheRead (queryHash query)])
| SearchHit content :
    cache.Get (clock w) (queryHash query) (store w) = (content, true, None) ->
    SearchRun config env query count w false
      (mkOut (inr (mkSearchResult content (countSections content) true)) w
             [CacheRead (queryHash query)])
| SearchMiss content o :
    cache.Get (clock w) (queryHash query) (store w) = (content, false, None) ->
    Run config env (queryHash query) query count w o ->
    SearchRun config env query count w false
      (mkOut (res o) (world o) (CacheRead (queryHash query) :: events o)).

End Spec.

(** ** Concrete worlds

    Small instances of the collaborators, on which the properties below
    are also evaluated. *)

Module Examples.

Import scraper engine.

Definition config : Config := mkConfig "google" 0.

Definition configDuck : Config := mkConfig "duckduckgo" 0.

(** The error of the tests of package engine. *)
Definition errDummy : error := External "dummy error".

Definition emptyStore : cache.Cache := cache.mkCache ∅ false.

Definition emptyWorld : World := mkWorld emptyStore 0.

(** A store holding one fresh entry for the query "q". *)
Definition cachedWorld : World :=
  mkWorld (cache.mkCache {[ queryHash "q" := cache.Row "cached" 0 ]} false) 0.

(** Discovery answers, with no candidate. *)
Definition envEmpty : Env :=
  mkEnv (fun _ _ _ => inl []) 0 (fun _ _ => inr (External "unreachable")) 0.

(** Discovery finds two pages and no fetch succeeds: the first times
    out, the second is blank. *)
Definition envAllFail : Env :=
  mkEnv (fun _ _ _ => inl [search.mkResult "u1" "first"; search.mkResult "u2" "second"])
        0
        (fun idx _ => match idx with
                      | O => inr (External "timeout")
                      | S _ => inl "  "
                      end)
        0.

(** Discovery finds two pages and both fetches succeed. *)
Definition envTwoPages : Env :=
  mkEnv (fun _ _ _ => inl [search.mkResult "u1" "first"; search.mkResult "u2" "second"])
        0
        (fun idx _ => match idx with
                      | O => inl "Goroutines..."
                      | S _ => inl "Table-driven tests..."
                      end)
        0.

(** The capital and the small e with acute accent, and the Kelvin sign,
    whose lower-case form is the letter k. *)
Definition capitalEAcute : string := strings.ofBytes [0xC3; 0x89].
Definition smallEAcute : string := strings.ofBytes [0xC3; 0xA9].
Definition kelvin : string := strings.ofBytes [0xE2; 0x84; 0xAA].

(** The Greek word for street in capitals and in small letters, the
    latter ending in the final sigma, whose capital is the capital sigma
    and which is its own lower-case form. *)
Definition capitalOdos : string :=
  strings.ofBytes [0xCE; 0x9F; 0xCE; 0x94; 0xCE; 0x9F; 0xCE; 0xA3].
Definition smallOdos : string :=
  strings.ofBytes [0xCE; 0xBF; 0xCE; 0xB4; 0xCE; 0xBF; 0xCF; 0x82].

(** An address whose fragment holds a line break followed by the marker
    of a section header. *)
Definition urlBreak : string := "https://a.example/#" +:+ nl +:+ "## x".

Definition bases : search.Bases :=
  search.mkBases "https://www.google.com" "https://html.duckduckgo.com".

(** A result page of DuckDuckGo with one result, whose href is that
    address. *)
Definition webBreak : search.Web :=
  fun _ =>
    inl (search.mkDocument nil nil [search.mkAnchor (Some urlBreak) "T" None]).

(** Discovery scrapes that page; the request for an address is created as
    http.NewRequestWithContext does, and the page behind it reads "t". *)
Definition envBreak : Env :=
  mkEnv (fun query count eng =>
           match search.Search bases webBreak query count eng with
           | inl results => inl results
           | inr _ => inr (External "search")
           end)
        0
        (fun _ u =>
           if url.invalidControl u
           then inr (External "net/url: invalid control character in URL")
           else inl "t")
        0.

End Examples.

(** ** Package api *)

Module api.

Import engine.

(** The text of an error field: a literal, or err.Error() for an error
    of the engine, kept as the error whose text it is. *)
Inductive message : Type :=
| Text (s : string)
| ErrorText (e : error).

Record apiResponse := mkResponse {
  Content : string;
  ResultCount : Z;
  FromCache : bool;
  Error : message;
  Status : string
}.

(** What a handler reads of a request: the method and the values of the
    query parameters q, count and force, empty when absent. *)
Record Request := mkRequest {
  Method : string;
  q : string;
  count : string;
  force : string
}.

(** What a handler leaves: the status and the value given to writeJSON,
    the world after the call and the effects of the engine. *)
Record Reply := mkReply {
  code : Z;
  body : apiResponse;
  after : World;
  effects : list Event
}.

Definition failureBody (m : message) : apiResponse :=
  mkResponse EmptyString 0 false m EmptyString.

Definition okBody : apiResponse :=
  mkResponse EmptyString 0 false (Text EmptyString) "ok".

Definition searchHandler (config : Config) (env : Env) (r : Request) (w : World) : Reply :=
  if negb (String.eqb (Method r) "GET")
  then mkReply 405 (failureBody (Text "method not allowed")) w nil
  else if String.eqb (q r) EmptyString
  then mkReply 400 (failureBody (Text "missing required query parameter 'q'")) w nil
  else
    let count :=
      if String.eqb (count r) EmptyString then 5
      else match strconv.Atoi (count r) with
           | Some n => if 0 <? n then n else 5
           | None => 5
           end in
    let force := String.eqb (force r) "true" || String.eqb (force r) "1" in
    let o := Search config env (q r) count force w in
    match res o with
    | inl err => mkReply 500 (failureBody (ErrorText err)) (world o) (events o)
    | inr result =>
        mkReply 200
          (mkResponse (engine.Content result) (engine.ResultCount result)
             (engine.FromCache result) (Text EmptyString) EmptyString)
          (world o) (events o)
    end.

Definition cacheHandler (r : Request) (w : World) : Reply :=
  if negb (String.eqb (Method r) "DELETE")
  then mkReply 405 (failureBody (Text "method not allowed")) w nil
  else
    let o := ClearCache (q r) w in
    match res o with
    | inl err => mkReply 500 (failureBody (ErrorText err)) (world o) (events o)
    | inr _ => mkReply 200 okBody (world o) (events o)
    end.

Definition healthHandler (r : Request) (w : World) : Reply :=
  mkReply 200 okBody w nil.

End api.

(** ** Package mcp *)

Module mcp.

Import engine.

Record webSearchInput := mkWebSearchInput {
  Query : string;
  Count : Z;
  Force : bool
}.

(** A piece of the text of a tool result: a string, the text of an
    error (the verb %v), a quoted string (the verb %q). *)
Inductive piece : Type :=
| Str (s : string)
| ErrText (e : error)
| Quoted (s : string).

Record CallToolResult := mkCallToolResult {
  IsError : bool;
  Content : list piece
}.

Record Reply := mkReply {
  result : CallToolResult;
  after : World;
  effects : list Event
}.

(** The handler of the tool web_search. *)
Definition webSearch (config : Config) (env : Env) (input : webSearchInput) (w : World)
  : Reply :=
  let count := if Count input <=? 0 then 5 else Count input in
  let o := Search config env (Query input) count (Force input) w in
  match res o with
  | inl err =>
      mkReply (mkCallToolResult true [Str "search failed: "; ErrText err])
              (world o) (events o)
  | inr r =>
      let meta := "[results: " +:+ strconv.FormatInt (ResultCount r)
                  +:+ ", from_cache: " +:+ (if FromCache r then "true" else "false")
                  +:+ "]" +:+ nl +:+ nl in
      mkReply (mkCallToolResult false [Str (meta +:+ engine.Content r)])
              (world o) (events o)
  end.

(** The handler of the tool clear_cache. *)
Definition clearCache (query : string) (w : World) : Reply :=
  let o := ClearCache query w in
  match res o with
  | inl err =>
      mkReply (mkCallToolResult true [Str "clear cache failed: "; ErrText err])
              (world o) (events o)
  | inr _ =>
      let msg := if negb (String.eqb query EmptyString)
                 then [Str "cache entry for "; Quoted query; Str " cleared"]
                 else [Str "all cache entries cleared"] in
      mkReply (mkCallToolResult false msg) (world o) (events o)
  end.

End mcp.

(** * Properties *)

Import scraper engine Spec.

(** Two given strings hold the same letters: their runes are computed and
    compared one by one. *)
Ltac case_variant :=
  unfold caseVariant;
  match goal with
  | |- Forall2 _ ?a ?b =>
      let a' := eval vm_compute in a in
      let b' := eval vm_compute in b in
      change (Forall2 sameLetter a' b')
  end;
  repeat (constructor;
          [first [left; reflexivity
                 | right; left; vm_compute; reflexivity
                 | right; right; vm_compute; reflexivity]|]);
  constructor.

(** ** Strings *)

Section StringFacts.

(** stdpp keeps [String.append] from unfolding under [simpl]; its two
    equations are stated once. *)
Lemma append_nil (b : string) : EmptyString +:+ b = b.
Proof. reflexivity. Qed.

Lemma append_cons (x : ascii) (a b : string) :
  String x a +:+ b = String x (a +:+ b).
Proof. reflexivity. Qed.

Lemma append_assoc (a b c : string) : (a +:+ b) +:+ c = a +:+ b +:+ c.
Proof.
  induction a as [|x a IH]; [reflexivity|].
  now rewrite !append_cons, IH.
Qed.

Lemma append_empty_r (a : string) : a +:+ EmptyString = a.
Proof.
  induction a as [|x a IH]; [reflexivity|].
  now rewrite append_cons, IH.
Qed.

Lemma append_eq_empty (a b : string) :
  a +:+ b = EmptyString -> a = EmptyString /\ b = EmptyString.
Proof. destruct a; [rewrite append_nil; tauto | rewrite append_cons; discriminate]. Qed.

Lemma length_append (a b : string) :
  String.length (a +:+ b) = (String.length a + String.length b)%nat.
Proof.
  induction a as [|x a IH]; [reflexivity|].
  rewrite append_cons. cbn [String.length]. now rewrite IH.
Qed.

End StringFacts.

(** ** The consolidator *)

Section Consolidate.

Lemma skipped_survivor (p : ScrapedPage) : skipped p = negb (survivor p).
Proof.
  unfold skipped, survivor. destruct (Err p); [reflexivity|].
  now rewrite negb_involutive.
Qed.

Lemma Join_snoc (l : list string) (x sep : string) :
  Join (l ++ [x]) sep =
  match l with
  | nil => x
  | _ :: _ => Join l sep +:+ sep +:+ x
  end.
Proof.
  induction l as [|y l IH]; [reflexivity|].
  change ((y :: l) ++ [x]) with (y :: (l ++ [x])).
  destruct l as [|z l].
  - reflexivity.
  - change (Join (y :: (z :: l) ++ [x]) sep)
      with (y +:+ sep +:+ Join ((z :: l) ++ [x]) sep).
    rewrite IH. change (Join (y :: z :: l) sep) with (y +:+ sep +:+ Join (z :: l) sep).
    now rewrite !append_assoc.
Qed.

(** The loop invariant: after the pages seen so far, the builder holds
    the sections of their survivors and the counter their number. *)
Lemma consolidate_loop (pages done : list ScrapedPage) :
  fold_left consolidateStep pages
    (Join (map section done) divider, Z.of_nat (length done))
  = (Join (map section (done ++ survivors pages)) divider,
     Z.of_nat (length (done ++ survivors pages))).
Proof.
  revert done. induction pages as [|p pages IH]; intros done.
  - simpl. now rewrite app_nil_r.
  - cbn [fold_left]. unfold consolidateStep at 2, survivors.
    rewrite skipped_survivor. cbn [List.filter].
    destruct (survivor p); cbn [negb].
    + replace (done ++ p :: List.filter survivor pages)
        with ((done ++ [p]) ++ survivors pages)
        by (now rewrite <- app_assoc).
      rewrite <- IH. f_equal. f_equal.
      * rewrite map_app. cbn [map]. rewrite Join_snoc.
        destruct done as [|d done]; cbn [length map].
        -- reflexivity.
        -- replace (0 <? Z.of_nat (S (length done))) with true
             by (symmetry; apply Z.ltb_lt; lia).
           unfold section, text. now rewrite !append_assoc.
      * rewrite length_app. cbn [length]. lia.
    + apply IH.
Qed.

Lemma consolidate_document (pages : list ScrapedPage) :
  consolidate pages = (document pages, survivorCount pages).
Proof. exact (consolidate_loop pages nil). Qed.

End Consolidate.

(** ** Counting section headers *)

Section CountSections.

Lemma countSections_loop (lines : list string) (n : Z) :
  fold_left
    (fun count line => if strings.HasPrefix line "## " then count + 1 else count)
    lines n
  = n + Z.of_nat (length (List.filter headerLine lines)).
Proof.
  revert n. induction lines as [|l lines IH]; intros n; cbn [fold_left List.filter].
  - cbn [length]. lia.
  - rewrite IH. unfold headerLine at 2.
    destruct (strings.HasPrefix l "## "); cbn [length]; lia.
Qed.

Lemma countSections_headers (s : string) : countSections s = Z.of_nat (headers s).
Proof. unfold countSections. now rewrite countSections_loop. Qed.

Lemma Split_nonempty (s : string) (sep : ascii) :
  exists line rest, strings.Split s sep = line :: rest.
Proof.
  destruct s as [|c s]; cbn [strings.Split]; [eauto|].
  destruct (Ascii.eqb c sep); [eauto|].
  destruct (strings.Split s sep); eauto.
Qed.

Lemma Split_append (a b : string) (sep : ascii) :
  strings.Split (a +:+ String sep b) sep = strings.Split a sep ++ strings.Split b sep.
Proof.
  induction a as [|c a IH].
  - rewrite append_nil. cbn [strings.Split]. now rewrite Ascii.eqb_refl.
  - rewrite append_cons. cbn [strings.Split]. rewrite IH.
    destruct (Ascii.eqb c sep); [reflexivity|].
    destruct (Split_nonempty a sep) as (l & ls & ->). reflexivity.
Qed.

Lemma headers_append_nl (a b : string) :
  headers (a +:+ nl +:+ b) = (headers a + headers b)%nat.
Proof.
  unfold headers, nl. rewrite append_cons, append_nil, Split_append.
  now rewrite List.filter_app, length_app.
Qed.

Lemma headers_nl (b : string) : headers (nl +:+ b) = headers b.
Proof.
  rewrite <- (append_nil (nl +:+ b)). rewrite (headers_append_nl EmptyString).
  reflexivity.
Qed.

Lemma headers_append_divider (a b : string) :
  headers (a +:+ divider +:+ b) = (headers a + headers b)%nat.
Proof.
  unfold divider. rewrite !append_assoc.
  rewrite (headers_append_nl a), headers_nl, (headers_append_nl "---"), headers_nl.
  change (headers "---") with 0%nat. lia.
Qed.

(** The header of a section is one line that begins with the marker,
    followed by the later lines of the URL. *)
Lemma Split_header (u : string) :
  strings.Split ("## " +:+ u) newline
  = ("## " +:+ hd EmptyString (strings.Split u newline))
      :: tl (strings.Split u newline).
Proof.
  destruct (Split_nonempty u newline) as (l & ls & E).
  change ("## " +:+ u) with (String "#" (String "#" (String " " u))).
  cbn [strings.Split].
  change (Ascii.eqb "#" newline) with false.
  change (Ascii.eqb " " newline) with false.
  cbv iota. rewrite E. reflexivity.
Qed.

Lemma headers_header (u : string) :
  headers ("## " +:+ u) = S (laterHeaders u).
Proof.
  unfold headers, laterHeaders. rewrite Split_header. reflexivity.
Qed.

Lemma headers_section (p : ScrapedPage) : headers (section p) = S (extra p).
Proof.
  unfold section, extra.
  rewrite <- (append_assoc "## " (URL p)).
  rewrite headers_append_nl, headers_nl, headers_header. lia.
Qed.

Lemma headers_Join (l : list ScrapedPage) :
  headers (Join (map section l) divider) = (length l + total (map extra l))%nat.
Proof.
  induction l as [|p l IH]; [reflexivity|].
  destruct l as [|q l].
  - cbn [map Join length total]. rewrite headers_section. lia.
  - change (Join (map section (p :: q :: l)) divider)
      with (section p +:+ divider +:+ Join (map section (q :: l)) divider).
    rewrite headers_append_divider, IH, headers_section.
    cbn [map length total]. lia.
Qed.

Lemma countSections_document (pages : list ScrapedPage) :
  countSections (document pages)
  = survivorCount pages + Z.of_nat (total (map extra (survivors pages))).
Proof.
  rewrite countSections_headers. unfold document, survivorCount.
  rewrite headers_Join. lia.
Qed.

Lemma filter_length_zero {A} (f : A -> bool) (l : list A) :
  length (List.filter f l) = 0%nat <-> forall x, In x l -> f x = false.
Proof.
  induction l as [|a l IH]; cbn [List.filter].
  - split; [intros _ x []| reflexivity].
  - destruct (f a) eqn:E; cbn [length].
    + split; [discriminate|]. intros H. specialize (H a (or_introl eq_refl)). congruence.
    + rewrite IH. split.
      * intros H x [<-|Hx]; auto.
      * intros H x Hx. apply H. now right.
Qed.

Lemma headers_zero (s : string) : headers s = 0%nat <-> ~ hasHeaderLine s.
Proof.
  unfold headers, hasHeaderLine. rewrite filter_length_zero. split.
  - intros H (line & Hin & Hl). rewrite (H line Hin) in Hl. discriminate.
  - intros H line Hin. destruct (headerLine line) eqn:E; [|reflexivity].
    exfalso. apply H. eauto.
Qed.

Lemma laterHeaders_zero (u : string) : laterHeaders u = 0%nat <-> ~ hasLaterHeaderLine u.
Proof.
  unfold laterHeaders, hasLaterHeaderLine. rewrite filter_length_zero. split.
  - intros H (line & Hin & Hl). rewrite (H line Hin) in Hl. discriminate.
  - intros H line Hin. destruct (headerLine line) eqn:E; [|reflexivity].
    exfalso. apply H. eauto.
Qed.

Lemma total_zero (l : list nat) : total l = 0%nat <-> forall n, In n l -> n = 0%nat.
Proof.
  induction l as [|a l IH]; cbn [total].
  - split; [intros _ n []| reflexivity].
  - split.
    + intros H n [<-|Hn]; [lia|]. apply IH; [lia | assumption].
    + intros H. rewrite (H a (or_introl eq_refl)).
      apply IH. intros n Hn. apply H. now right.
Qed.

Lemma total_extra_zero (l : list ScrapedPage) :
  total (map extra l) = 0%nat
  <-> forall p, In p l -> ~ hasHeaderLine (text p) /\ ~ hasLaterHeaderLine (URL p).
Proof.
  rewrite total_zero. split.
  - intros H p Hp. specialize (H (extra p) (in_map extra l p Hp)).
    unfold extra in H. rewrite <- headers_zero, <- laterHeaders_zero. lia.
  - intros H n Hn. apply in_map_iff in Hn as (p & <- & Hp).
    destruct (H p Hp) as [H1 H2].
    apply headers_zero in H1. apply laterHeaders_zero in H2.
    unfold extra. lia.
Qed.

Lemma total_extra_pos (l : list ScrapedPage) (p : ScrapedPage) :
  In p l -> hasHeaderLine (text p) -> (0 < total (map extra l))%nat.
Proof.
  intros Hp Hh.
  destruct (Nat.eq_dec (total (map extra l)) 0%nat) as [E|E]; [|lia].
  destruct (proj1 (total_extra_zero l) E p Hp) as [E1 _]. contradiction.
Qed.

End CountSections.

(** ** The cache key *)

Section QueryHash.

Lemma length_wordBytes (w : Z) : length (sha256.wordBytes w) = 4%nat.
Proof. reflexivity. Qed.

Lemma length_Sum256 (msg : list Z) : length (sha256.Sum256 msg) = 32%nat.
Proof.
  unfold sha256.Sum256.
  destruct (sha256.blocks _ _ _) as [a b c d e f g h].
  rewrite !length_app, !length_wordBytes. reflexivity.
Qed.

Lemma length_hex (bs : list Z) :
  String.length (fmt.hex bs) = (2 * length bs)%nat.
Proof.
  induction bs as [|b bs IH]; [reflexivity|].
  cbn [fmt.hex String.length length]. rewrite IH. lia.
Qed.

Lemma length_queryHash (query : string) : String.length (queryHash query) = 64%nat.
Proof. unfold queryHash. now rewrite length_hex, length_Sum256. Qed.

Lemma queryHash_not_empty (query : string) : queryHash query <> EmptyString.
Proof.
  intros E. pose proof (length_queryHash query) as H.
  rewrite E in H. discriminate.
Qed.

Lemma queryHash_eqb_empty (query : string) :
  String.eqb (queryHash query) EmptyString = false.
Proof. apply String.eqb_neq, queryHash_not_empty. Qed.

End QueryHash.

(** ** The cache store *)

Section CacheFacts.

Lemma Since_stale (now t : Z) :
  (time.Since now t >? cache.cacheTTL) = true <-> cache.cacheTTL < now - t.
Proof.
  unfold time.Since, time.Sub, time.minDuration, time.maxDuration,
    cache.cacheTTL, time.Hour, time.Second.
  rewrite Z.gtb_ltb, Z.ltb_lt. lia.
Qed.

Lemma Since_fresh (now t : Z) :
  (time.Since now t >? cache.cacheTTL) = false <-> now - t <= cache.cacheTTL.
Proof.
  rewrite <- not_true_iff_false, Since_stale. lia.
Qed.

(** The age of a row at the instant [now]. *)
Lemma Get_open (now : Z) (k : string) (c : cache.Cache) :
  cache.closed c = false ->
  cache.Get now k c =
  match cache.rows c !! k with
  | None => (EmptyString, false, None)
  | Some r =>
      if time.Since now (cache.scanTime (cache.updated_at r)) >? cache.cacheTTL
      then (EmptyString, false, None)
      else (cache.content r, true, None)
  end.
Proof. intros H. unfold cache.Get. now rewrite H. Qed.

Lemma stamp_age (t t' : Z) :
  t' - t <= cache.cacheTTL - time.Second ->
  t' - cache.scanTime (cache.CURRENT_TIMESTAMP t) <= cache.cacheTTL.
Proof.
  unfold cache.scanTime, cache.CURRENT_TIMESTAMP, cache.cacheTTL, time.Hour, time.Second.
  intros H.
  pose proof (Z.mod_pos_bound t 1000000000 ltac:(lia)) as Hm.
  pose proof (Z.div_mod t 1000000000 ltac:(lia)) as Hd.
  lia.
Qed.

Lemma Get_after_Set (t t' : Z) (k v : string) (c : cache.Cache) :
  cache.closed c = false ->
  t' - t <= cache.cacheTTL - time.Second ->
  cache.Get t' k (fst (cache.Set_ t k v c)) = (v, true, None).
Proof.
  intros Hc Ht. unfold cache.Set_. rewrite Hc. cbn [fst].
  rewrite Get_open by reflexivity. cbn [cache.rows].
  rewrite lookup_insert_eq. cbn [cache.updated_at cache.content].
  now rewrite (proj2 (Since_fresh _ _) (stamp_age _ _ Ht)).
Qed.

Lemma Get_hit_iff (now : Z) (k : string) (c : cache.Cache) :
  cache.closed c = false ->
  snd (fst (cache.Get now k c)) = true
  <-> exists r, cache.rows c !! k = Some r
                /\ now - cache.scanTime (cache.updated_at r) <= cache.cacheTTL.
Proof.
  intros Hc. rewrite Get_open by assumption.
  destruct (cache.rows c !! k) as [r|].
  - destruct (time.Since _ _ >? _) eqn:E; cbn [fst snd].
    + apply Since_stale in E. split; [discriminate|].
      intros (r' & [= <-] & H). lia.
    + apply Since_fresh in E. split; [eauto | reflexivity].
  - cbn [fst snd]. split; [discriminate | intros (r & [=] & _)].
Qed.

End CacheFacts.

(** ** The orchestrator *)

Section SearchFacts.

Variables (config : Config) (env : Env).

Lemma section_not_empty (p : ScrapedPage) : section p <> EmptyString.
Proof. unfold section. discriminate. Qed.

Lemma Join_empty (l : list string) (sep : string) :
  (forall x, In x l -> x <> EmptyString) ->
  Join l sep = EmptyString -> l = nil.
Proof.
  destruct l as [|x l]; [reflexivity|]. intros H E. exfalso.
  apply (H x (or_introl eq_refl)).
  destruct l; [exact E|].
  change (x +:+ sep +:+ Join (s :: l) sep = EmptyString) in E.
  now apply append_eq_empty in E.
Qed.

Lemma document_empty (pages : list ScrapedPage) :
  document pages = EmptyString <-> survivors pages = nil.
Proof.
  unfold document. split.
  - intros E. apply Join_empty in E.
    + now apply map_eq_nil in E.
    + intros x Hx. apply in_map_iff in Hx as (p & <- & _). apply section_not_empty.
  - intros ->. reflexivity.
Qed.

Lemma survivors_nil (pages : list ScrapedPage) :
  survivors pages = nil
  <-> forall p, In p pages ->
        Err p <> None \/ strings.TrimSpace (scraper.Content p) = EmptyString.
Proof.
  unfold survivors. split.
  - intros E p Hp.
    destruct (survivor p) eqn:S.
    + assert (In p (List.filter survivor pages)) as Hin by (apply filter_In; auto).
      rewrite E in Hin. destruct Hin.
    + unfold survivor in S. destruct (Err p); [left; discriminate|].
      right. apply negb_false_iff in S. now apply String.eqb_eq.
  - intros H. destruct (List.filter survivor pages) as [|p l] eqn:E; [reflexivity|].
    exfalso.
    assert (In p (List.filter survivor pages)) as Hin by (rewrite E; now left).
    apply filter_In in Hin as [Hp S]. unfold survivor in S.
    destruct (H p Hp) as [H1|H1].
    + destruct (Err p); [discriminate | now apply H1].
    + destruct (Err p); [discriminate|]. rewrite H1 in S. discriminate.
Qed.

Lemma pipeline_discovery_error (hash query : string) (count : Z) (w : World) (e : error) :
  searchSearch env query count (SearchEngine config) = inr e ->
  pipeline config env hash query count w
  = mkOut (inl (EngineSearch e))
          (mkWorld (store w) (clock w + searchTime env))
          [Discover query count (SearchEngine config)].
Proof.
  intros H. unfold pipeline, bind, wrap, discover. cbn [res world events]. rewrite H.
  reflexivity.
Qed.

Lemma pipeline_no_results (hash query : string) (count : Z) (w : World) :
  searchSearch env query count (SearchEngine config) = inl nil ->
  pipeline config env hash query count w
  = mkOut (inl (EngineNoResults query))
          (mkWorld (store w) (clock w + searchTime env))
          [Discover query count (SearchEngine config)].
Proof.
  intros H. unfold pipeline, bind, wrap, discover, fail. cbn [res world events]. rewrite H.
  reflexivity.
Qed.

Lemma pipeline_results (hash query : string) (count : Z) (w : World)
    (results : list search.Result) :
  searchSearch env query count (SearchEngine config) = inl results ->
  results <> nil ->
  let urls := map search.URL results in
  let pages := Scrape (network env) urls in
  let t := storeTime config env w in
  pipeline config env hash query count w
  = if String.eqb (document pages) EmptyString
    then mkOut (inl (EngineAllFailed query)) (mkWorld (store w) t)
               (Discover query count (SearchEngine config) :: pause config ++ [Fetch urls])
    else
      mkOut (match snd (cache.Set_ t hash (document pages) (store w)) with
             | Some e => inl (EngineCacheSet e)
             | None => inr (mkSearchResult (document pages) (survivorCount pages) false)
             end)
            (mkWorld (fst (cache.Set_ t hash (document pages) (store w))) t)
            (Discover query count (SearchEngine config)
               :: pause config ++ [Fetch urls; CacheWrite hash (document pages)]).
Proof.
  intros H Hne urls pages t.
  destruct results as [|r rs]; [congruence|].
  unfold pipeline, bind, wrap, discover, scrape, sleep, ret, fail, cacheSet.
  cbn [res world events store clock]. rewrite H.
  cbn [res world events store clock].
  unfold t, storeTime, pause, pauseTime.
  destruct (0 <? RateLimit config);
    cbn [res world events store clock];
    fold urls; fold pages; rewrite consolidate_document;
    destruct (String.eqb (document pages) EmptyString);
    cbn [res world events store clock];
    rewrite ?Z.add_0_r; try reflexivity.
  all: match goal with
       | |- context [cache.Set_ ?a ?b ?c ?d] =>
           destruct (cache.Set_ a b c d) as [? [?|]]
       end; reflexivity.
Qed.

Lemma Search_forced (query : string) (count : Z) (w : World) :
  Search config env query count true w
  = pipeline config env (queryHash query) query count w.
Proof. reflexivity. Qed.

Lemma Search_get_error (query : string) (count : Z) (w : World)
    (content : string) (hit : bool) (e : error) :
  cache.Get (clock w) (queryHash query) (store w) = (content, hit, Some e) ->
  Search config env query count false w
  = mkOut (inl (EngineCacheGet e)) w [CacheRead (queryHash query)].
Proof.
  intros H. unfold Search, bind, wrap, cacheGet. cbn [negb]. rewrite H. reflexivity.
Qed.

Lemma Search_hit (query : string) (count : Z) (w : World) (content : string) :
  cache.Get (clock w) (queryHash query) (store w) = (content, true, None) ->
  Search config env query count false w
  = mkOut (inr (mkSearchResult content (countSections content) true)) w
          [CacheRead (queryHash query)].
Proof.
  intros H. unfold Search, bind, wrap, cacheGet, ret. cbn [negb]. rewrite H. reflexivity.
Qed.

Lemma Search_miss (query : string) (count : Z) (w : World) (content : string) :
  cache.Get (clock w) (queryHash query) (store w) = (content, false, None) ->
  Search config env query count false w
  = mkOut (res (pipeline config env (queryHash query) query count w))
          (world (pipeline config env (queryHash query) query count w))
          (CacheRead (queryHash query)
             :: events (pipeline config env (queryHash query) query count w)).
Proof.
  intros H. unfold Search, bind, wrap, cacheGet. cbn [negb]. rewrite H. reflexivity.
Qed.

Lemma pipeline_Run (hash query : string) (count : Z) (w : World) :
  Run config env hash query count w (pipeline config env hash query count w).
Proof.
  destruct (searchSearch env query count (SearchEngine config)) as [[|r rs]|e] eqn:Hs.
  - rewrite (pipeline_no_results hash query count w Hs). now constructor.
  - pose proof (pipeline_results hash query count w (r :: rs) Hs ltac:(discriminate)) as P.
    cbv zeta in P. rewrite P. clear P.
    destruct (String.eqb _ _) eqn:E.
    + apply String.eqb_eq, document_empty in E.
      now apply RunAllFailed.
    + apply String.eqb_neq in E. rewrite document_empty in E.
      destruct (cache.closed (store w)) eqn:Hc.
      * unfold cache.Set_. rewrite Hc. cbn [fst snd].
        now apply RunStoreError.
      * replace (snd (cache.Set_ _ _ _ _)) with (@None error)
          by (unfold cache.Set_; now rewrite Hc).
        now apply RunStored.
  - rewrite (pipeline_discovery_error hash query count w e Hs). now constructor.
Qed.

Lemma In_pause (ev : Event) :
  In ev (pause config) -> ev = Sleep (RateLimit config).
Proof.
  unfold pause. destruct (0 <? RateLimit config); [|intros []].
  intros [<-|[]]. reflexivity.
Qed.

Lemma Search_SearchRun (query : string) (count : Z) (force : bool) (w : World) :
  SearchRun config env query count w force (Search config env query count force w).
Proof.
  destruct force.
  - rewrite Search_forced. constructor. apply pipeline_Run.
  - destruct (cache.Get (clock w) (queryHash query) (store w)) as [[c h] [e|]] eqn:HG.
    + rewrite (Search_get_error _ _ _ _ _ _ HG). econstructor. exact HG.
    + destruct h.
      * rewrite (Search_hit _ _ _ _ HG). now constructor.
      * rewrite (Search_miss _ _ _ _ HG). econstructor; [exact HG | apply pipeline_Run].
Qed.

(** What a run through the pipeline always satisfies. *)
Lemma Run_starts (hash query : string) (count : Z) (w : World) (o : Out SearchResult) :
  Run config env hash query count w o ->
  exists rest, events o = Discover query count (SearchEngine config) :: rest.
Proof. intros []; cbn [events]; eauto. Qed.

Lemma Run_no_read (hash query : string) (count : Z) (w : World) (o : Out SearchResult) :
  Run config env hash query count w o ->
  forall k, ~ In (CacheRead k) (events o).
Proof.
  intros [] k; cbn [events]; intros [Hin|Hin]; try discriminate; try contradiction.
  all: apply in_app_iff in Hin as [Hin|Hin]; [apply In_pause in Hin; discriminate|].
  all: cbn in Hin; intuition discriminate.
Qed.

Lemma Run_fresh_result (hash query : string) (count : Z) (w : World)
    (o : Out SearchResult) (r : SearchResult) :
  Run config env hash query count w o -> res o = inr r -> FromCache r = false.
Proof. intros []; cbn [res]; intros [= <-]; reflexivity. Qed.

Lemma Run_fetch (hash query : string) (count : Z) (w : World) (o : Out SearchResult)
    (urls : list string) :
  Run config env hash query count w o ->
  In (Fetch urls) (events o)
  <-> exists results,
        searchSearch env query count (SearchEngine config) = inl results
        /\ results <> nil /\ urls = map search.URL results.
Proof.
  intros []; cbn [events]; split.
  all: try (intros [H'|[]]; discriminate).
  all: try (intros (results' & E & Hne & _); congruence).
  all: try (intros [H'|H']; [discriminate|];
            apply in_app_iff in H' as [H'|H']; [apply In_pause in H'; discriminate|];
            cbn in H'; destruct H' as [[= <-]|H']; [eauto | intuition discriminate]).
  all: intros (results' & E & _ & ->); right; apply in_app_iff; right;
       left; congruence.
Qed.

Lemma Run_failure_keeps_store (hash query : string) (count : Z) (w : World)
    (o : Out SearchResult) (e : error) :
  Run config env hash query count w o -> res o = inl e -> store (world o) = store w.
Proof. intros []; cbn [res world store]; intros [=]; reflexivity. Qed.

Lemma Run_write (hash query : string) (count : Z) (w : World) (o : Out SearchResult)
    (k v : string) :
  Run config env hash query count w o ->
  In (CacheWrite k v) (events o) ->
  exists results,
    searchSearch env query count (SearchEngine config) = inl results
    /\ survivors (Scrape (network env) (map search.URL results)) <> nil.
Proof.
  intros []; cbn [events]; intros [H'|H']; try discriminate; try contradiction.
  all: apply in_app_iff in H' as [H'|H']; [apply In_pause in H'; discriminate|].
  all: cbn in H'; try (intuition discriminate); eauto.
Qed.

Lemma Run_write_key (hash query : string) (count : Z) (w : World) (o : Out SearchResult)
    (k v : string) :
  Run config env hash query count w o -> In (CacheWrite k v) (events o) -> k = hash.
Proof.
  intros []; cbn [events]; intros [H'|H']; try discriminate; try contradiction.
  all: apply in_app_iff in H' as [H'|H']; [apply In_pause in H'; discriminate|].
  all: cbn in H'; intuition (discriminate || congruence).
Qed.

Lemma Run_all_failed (hash query : string) (count : Z) (w : World)
    (o : Out SearchResult) (q' : string) :
  Run config env hash query count w o ->
  res o = inl (EngineAllFailed q') ->
  q' = query
  /\ exists results,
       searchSearch env query count (SearchEngine config) = inl results
       /\ In (Fetch (map search.URL results)) (events o)
       /\ survivors (Scrape (network env) (map search.URL results)) = nil.
Proof.
  intros []; cbn [res events]; intros [=]. subst. split; [reflexivity|].
  eexists. split; [eassumption|]. split; [|assumption].
  right. apply in_app_iff. right. now left.
Qed.

(** The rows of the store do not enter a run through the pipeline,
    except as what the final write replaces. *)
Lemma pipeline_rows (hash query : string) (count : Z) (w : World)
    (rows' : gmap string cache.row) :
  let w' := mkWorld (cache.mkCache rows' (cache.closed (store w))) (clock w) in
  res (pipeline config env hash query count w')
  = res (pipeline config env hash query count w)
  /\ events (pipeline config env hash query count w')
     = events (pipeline config env hash query count w).
Proof.
  intros w'.
  destruct (searchSearch env query count (SearchEngine config)) as [[|r rs]|e] eqn:Hs.
  - now rewrite !(pipeline_no_results _ _ _ _ Hs).
  - pose proof (pipeline_results hash query count w (r :: rs) Hs ltac:(discriminate)) as P.
    pose proof (pipeline_results hash query count w' (r :: rs) Hs ltac:(discriminate)) as P'.
    cbv zeta in P, P'. rewrite P, P'. clear P P'.
    destruct (String.eqb _ _); cbn [res events]; [split; reflexivity|].
    unfold cache.Set_, w'. cbn [store clock cache.closed].
    destruct (cache.closed (store w)); split; reflexivity.
  - now rewrite !(pipeline_discovery_error _ _ _ _ _ Hs).
Qed.

Lemma Run_fetch_failed (hash query : string) (count : Z) (w : World)
    (o : Out SearchResult) (urls : list string) :
  Run config env hash query count w o ->
  In (Fetch urls) (events o) ->
  survivors (Scrape (network env) urls) = nil ->
  res o = inl (EngineAllFailed query)
  /\ store (world o) = store w
  /\ (forall k v, ~ In (CacheWrite k v) (events o)).
Proof.
  intros HR Hin Hs.
  destruct (proj1 (Run_fetch _ _ _ _ _ urls HR) Hin) as (results & E & Hne & ->).
  split; [|split].
  - destruct HR; try congruence; reflexivity.
  - destruct HR; try congruence; reflexivity.
  - intros k v Hw. destruct (Run_write _ _ _ _ _ k v HR Hw) as (results' & E' & Hs').
    congruence.
Qed.

End SearchFacts.

(** ** The claims about Search *)

(** C2, as amended. For every query, count and world, Search called with
    force = true never returns a result with FromCache = true: it performs
    no cache read and always starts with discovery, and it performs the
    fetch phase exactly when discovery returns at least one candidate;
    what it returns and what it does are the same whatever rows the store
    holds, a fresh entry for the key included. *)
Theorem search_force_skips_cache (config : Config) (env : Env) (query : string)
    (count : Z) (w : World) :
  (forall r, res (Search config env query count true w) = inr r -> FromCache r = false)
  /\ (forall k, ~ In (CacheRead k) (events (Search config env query count true w)))
  /\ hd_error (events (Search config env query count true w))
     = Some (Discover query count (SearchEngine config))
  /\ (forall urls,
        In (Fetch urls) (events (Search config env query count true w))
        <-> exists results,
              searchSearch env query count (SearchEngine config) = inl results
              /\ results <> nil /\ urls = map search.URL results)
  /\ (forall rows',
        res (Search config env query count true
               (mkWorld (cache.mkCache rows' (cache.closed (store w))) (clock w)))
        = res (Search config env query count true w)
        /\ events (Search config env query count true
                     (mkWorld (cache.mkCache rows' (cache.closed (store w))) (clock w)))
           = events (Search config env query count true w)).
Proof.
  rewrite Search_forced.
  pose proof (pipeline_Run config env (queryHash query) query count w) as HR.
  split; [|split; [|split; [|split]]].
  - intros r. now apply (Run_fresh_result _ _ _ _ _ _ _ _ HR).
  - now apply (Run_no_read _ _ _ _ _ _ _ HR).
  - destruct (Run_starts _ _ _ _ _ _ _ HR) as (rest & ->). reflexivity.
  - intros urls. now apply (Run_fetch _ _ _ _ _ _ _ urls HR).
  - intros rows'. rewrite Search_forced. apply pipeline_rows.
Qed.

Lemma search_force_skips_cache_witness :
  (forall urls, ~ In (Fetch urls)
                    (events (Search Examples.config Examples.envEmpty "q" 5 true
                               Examples.cachedWorld)))
  /\ In (Fetch ["u1"; "u2"])
        (events (Search Examples.config Examples.envTwoPages "q" 5 true
                   Examples.cachedWorld)).
Proof.
  split.
  - intros urls H.
    apply (proj1 (proj2 (proj2 (proj2
             (search_force_skips_cache Examples.config Examples.envEmpty "q" 5
                Examples.cachedWorld))))) in H.
    destruct H as (results & [= <-] & Hne & _). now apply Hne.
  - apply (proj1 (proj2 (proj2 (proj2
             (search_force_skips_cache Examples.config Examples.envTwoPages "q" 5
                Examples.cachedWorld))))).
    eexists. split; [reflexivity|]. split; [discriminate | reflexivity].
Defined.

(** C2 as it was stated fails: with a fresh entry in the store for the key
    of "q", a forced search whose discovery returns no candidate reads no
    cache, runs discovery, fails, and performs no fetch. *)
Lemma search_force_no_fetch_counterexample :
  snd (fst (cache.Get (clock Examples.cachedWorld) (queryHash "q")
              (store Examples.cachedWorld))) = true
  /\ Search Examples.config Examples.envEmpty "q" 5 true Examples.cachedWorld
     = mkOut (inl (EngineNoResults "q")) Examples.cachedWorld [Discover "q" 5 "google"]
  /\ ~ (forall (config : Config) (env : Env) (query : string) (count : Z) (w : World),
          exists urls, In (Fetch urls) (events (Search config env query count true w))).
Proof.
  split; [|split].
  - unfold Examples.cachedWorld. cbn [store clock].
    rewrite Get_open by reflexivity. cbn [cache.rows].
    rewrite lookup_singleton_eq. reflexivity.
  - rewrite Search_forced.
    now rewrite (pipeline_no_results Examples.config Examples.envEmpty).
  - intros H.
    destruct (H Examples.config Examples.envEmpty "q" 5 Examples.cachedWorld) as [urls Hin].
    rewrite Search_forced in Hin.
    rewrite (pipeline_no_results Examples.config Examples.envEmpty) in Hin by reflexivity.
    destruct Hin as [Hin|[]]. discriminate.
Qed.

(** C3. In every run of Search that reaches the fetch phase and in which
    every fetched page either carries an error or has white-space-only
    text, Search fails with the error "all pages failed to scrape", the
    store is exactly what it was before the call and no cache write is
    performed. The error tells this outcome from every other: Search
    returns it only after a fetch that left no survivor. *)
Theorem search_all_pages_failed (config : Config) (env : Env) (query : string)
    (count : Z) (force : bool) (w : World) :
  (forall urls,
     In (Fetch urls) (events (Search config env query count force w)) ->
     (forall p, In p (Scrape (network env) urls) ->
                Err p <> None \/ strings.TrimSpace (scraper.Content p) = EmptyString) ->
     res (Search config env query count force w) = inl (EngineAllFailed query)
     /\ store (world (Search config env query count force w)) = store w
     /\ (forall k v, ~ In (CacheWrite k v) (events (Search config env query count force w))))
  /\ (forall q',
        res (Search config env query count force w) = inl (EngineAllFailed q') ->
        q' = query
        /\ exists urls,
             In (Fetch urls) (events (Search config env query count force w))
             /\ survivors (Scrape (network env) urls) = nil).
Proof.
  split.
  - intros urls Hin Hall. apply survivors_nil in Hall.
    destruct (Search_SearchRun config env query count force w) as [o HR| | |c o HG HR];
      cbn [res world events] in *.
    + now apply (Run_fetch_failed _ _ _ _ _ _ _ urls HR).
    + destruct Hin as [Hin|[]]. discriminate.
    + destruct Hin as [Hin|[]]. discriminate.
    + destruct Hin as [Hin|Hin]; [discriminate|].
      destruct (Run_fetch_failed _ _ _ _ _ _ _ urls HR Hin Hall) as (H1 & H2 & H3).
      split; [assumption|]. split; [assumption|].
      intros k v [Hw|Hw]; [discriminate|]. now apply (H3 k v).
  - intros q' Hres.
    destruct (Search_SearchRun config env query count force w) as [o HR| | |c o HG HR];
      cbn [res world events] in *; try discriminate.
    + destruct (Run_all_failed _ _ _ _ _ _ _ q' HR Hres) as (-> & results & _ & Hf & Hs).
      eauto.
    + destruct (Run_all_failed _ _ _ _ _ _ _ q' HR Hres) as (-> & results & _ & Hf & Hs).
      split; [reflexivity|]. eexists. split; [right; exact Hf | exact Hs].
Qed.

Lemma search_all_pages_failed_witness :
  res (Search Examples.config Examples.envAllFail "q" 5 false Examples.emptyWorld)
  = inl (EngineAllFailed "q")
  /\ store (world (Search Examples.config Examples.envAllFail "q" 5 false Examples.emptyWorld))
     = store Examples.emptyWorld
  /\ (forall k v,
        ~ In (CacheWrite k v)
             (events (Search Examples.config Examples.envAllFail "q" 5 false
                        Examples.emptyWorld))).
Proof.
  apply (proj1 (search_all_pages_failed Examples.config Examples.envAllFail "q" 5 false
                  Examples.emptyWorld) ["u1"; "u2"]).
  - right. right. left. reflexivity.
  - intros p [<-|[<-|[]]].
    + left. discriminate.
    + right. reflexivity.
Defined.

(** C8. In every call of Search in which discovery is invoked and succeeds
    with an empty candidate list, Search fails, with the error "no search
    results", the fetch phase is not entered and the store is left as it
    was. *)
Theorem search_no_candidates (config : Config) (env : Env) (query : string)
    (count : Z) (force : bool) (w : World) :
  In (Discover query count (SearchEngine config))
     (events (Search config env query count force w)) ->
  searchSearch env query count (SearchEngine config) = inl nil ->
  res (Search config env query count force w) = inl (EngineNoResults query)
  /\ (forall urls, ~ In (Fetch urls) (events (Search config env query count force w)))
  /\ store (world (Search config env query count force w)) = store w.
Proof.
  intros Hin Hs.
  assert (forall o, Run config env (queryHash query) query count w o ->
            res o = inl (EngineNoResults query)
            /\ (forall urls, ~ In (Fetch urls) (events o))
            /\ store (world o) = store w) as HRun.
  { intros o HR. split; [|split].
    - destruct HR; try congruence; reflexivity.
    - intros urls Hf. apply (Run_fetch _ _ _ _ _ _ _ urls HR) in Hf.
      destruct Hf as (results & E & Hne & _). congruence.
    - destruct HR; try congruence; reflexivity. }
  destruct (Search_SearchRun config env query count force w) as [o HR| | |c o HG HR];
    cbn [res world events] in *.
  - now apply HRun.
  - destruct Hin as [Hin|[]]. discriminate.
  - destruct Hin as [Hin|[]]. discriminate.
  - destruct (HRun o HR) as (H1 & H2 & H3).
    split; [assumption|]. split; [|assumption].
    intros urls [Hf|Hf]; [discriminate|]. now apply (H2 urls).
Qed.

Lemma search_no_candidates_witness :
  res (Search Examples.config Examples.envEmpty "q" 5 false Examples.emptyWorld)
  = inl (EngineNoResults "q")
  /\ (forall urls,
        ~ In (Fetch urls)
             (events (Search Examples.config Examples.envEmpty "q" 5 false
                        Examples.emptyWorld)))
  /\ store (world (Search Examples.config Examples.envEmpty "q" 5 false Examples.emptyWorld))
     = store Examples.emptyWorld.
Proof.
  apply (search_no_candidates Examples.config Examples.envEmpty "q" 5 false
           Examples.emptyWorld).
  - right. left. reflexivity.
  - reflexivity.
Defined.

(** ** The claims about the cache store and eviction *)

Section Eviction.

Lemma ClearCache_open (query : string) (w : World) :
  cache.closed (store w) = false ->
  ClearCache query w
  = mkOut (inr tt)
          (mkWorld
             (cache.mkCache
                (if String.eqb query EmptyString then ∅
                 else delete (queryHash query) (cache.rows (store w)))
                false)
             (clock w))
          [CacheDelete (if String.eqb query EmptyString then EmptyString
                        else queryHash query)].
Proof.
  intros Hc. unfold ClearCache, wrap, cacheClear, cache.Clear. rewrite Hc.
  destruct (String.eqb query EmptyString); cbn [negb].
  - reflexivity.
  - rewrite queryHash_eqb_empty. reflexivity.
Qed.

Lemma ClearCache_stays_open (query : string) (w : World) :
  cache.closed (store w) = false ->
  cache.closed (store (world (ClearCache query w))) = false.
Proof. intros Hc. now rewrite ClearCache_open. Qed.

Lemma World_eta (w : World) :
  mkWorld (cache.mkCache (cache.rows (store w)) (cache.closed (store w))) (clock w) = w.
Proof. destruct w as [[rows closed] clock]. reflexivity. Qed.

End Eviction.

(** C1. On an open store, for every key k and content v, Get(k) after
    Set(k, v) returns (v, true) when it comes within the TTL of the write,
    less the second to which the stored time stamp is cut; for a stored
    row whose age exceeds the TTL of 24 hours, Get returns isHit = false
    while the row is still in the table; for an absent key Get returns
    isHit = false; so Get reports a hit if and only if the row exists and
    now - updatedAt <= TTL, the age being taken at the time of the read. *)
Theorem cache_get_hit_iff_fresh (c : cache.Cache) (k : string) :
  cache.closed c = false ->
  (forall v t t',
     t' - t <= cache.cacheTTL - time.Second ->
     cache.Get t' k (fst (cache.Set_ t k v c)) = (v, true, None))
  /\ (forall now r,
        cache.rows c !! k = Some r ->
        cache.cacheTTL < now - cache.scanTime (cache.updated_at r) ->
        cache.Get now k c = (EmptyString, false, None))
  /\ (forall now,
        cache.rows c !! k = None -> cache.Get now k c = (EmptyString, false, None))
  /\ (forall now,
        snd (fst (cache.Get now k c)) = true
        <-> exists r, cache.rows c !! k = Some r
                      /\ now - cache.scanTime (cache.updated_at r) <= cache.cacheTTL).
Proof.
  intros Hc. split; [|split; [|split]].
  - intros v t t' Ht. now apply Get_after_Set.
  - intros now r Hr Hage. rewrite Get_open, Hr by assumption.
    now rewrite (proj2 (Since_stale _ _) Hage).
  - intros now Hr. now rewrite Get_open, Hr.
  - intros now. now apply Get_hit_iff.
Qed.

Lemma cache_get_hit_iff_fresh_witness :
  cache.Get 5 "abc123" (fst (cache.Set_ 5 "abc123" "hello, world" Examples.emptyStore))
  = ("hello, world", true, None).
Proof.
  apply (proj1 (cache_get_hit_iff_fresh Examples.emptyStore "abc123" eq_refl)).
  unfold cache.cacheTTL, time.Hour, time.Second. lia.
Defined.

(** C7. On an open store, ClearCache with a non-empty query succeeds and
    deletes the row under the key of that query and no other: Get misses
    on that key and answers on every other key as it did before, so an
    entry stored for a query with another key remains a hit;
    ClearCache("") succeeds and deletes every row; both succeed and change
    nothing when no matching row exists, and repeating either changes
    nothing more. *)
Theorem clear_cache_frame (w : World) :
  cache.closed (store w) = false ->
  (forall q,
     q <> EmptyString ->
     res (ClearCache q w) = inr tt
     /\ cache.rows (store (world (ClearCache q w)))
        = delete (queryHash q) (cache.rows (store w))
     /\ (forall now,
           snd (fst (cache.Get now (queryHash q) (store (world (ClearCache q w))))) = false)
     /\ (forall k now,
           k <> queryHash q ->
           cache.Get now k (store (world (ClearCache q w))) = cache.Get now k (store w)))
  /\ (res (ClearCache EmptyString w) = inr tt
      /\ cache.rows (store (world (ClearCache EmptyString w))) = ∅)
  /\ (forall q,
        q <> EmptyString ->
        cache.rows (store w) !! queryHash q = None ->
        res (ClearCache q w) = inr tt /\ world (ClearCache q w) = w)
  /\ (cache.rows (store w) = ∅ ->
      res (ClearCache EmptyString w) = inr tt /\ world (ClearCache EmptyString w) = w)
  /\ (forall q,
        res (ClearCache q (world (ClearCache q w))) = inr tt
        /\ world (ClearCache q (world (ClearCache q w))) = world (ClearCache q w)).
Proof.
  intros Hc. split; [|split; [|split; [|split]]].
  - intros q Hq. apply String.eqb_neq in Hq.
    rewrite ClearCache_open by assumption. rewrite Hq. cbn [res world store cache.rows].
    split; [reflexivity|]. split; [reflexivity|]. split.
    + intros now. rewrite Get_open by reflexivity. cbn [cache.rows].
      now rewrite lookup_delete_eq.
    + intros k now Hk. rewrite !Get_open by (assumption || reflexivity).
      cbn [cache.rows]. now rewrite lookup_delete_ne by congruence.
  - rewrite ClearCache_open by assumption. split; reflexivity.
  - intros q Hq Hnone. apply String.eqb_neq in Hq.
    rewrite ClearCache_open by assumption. rewrite Hq. cbn [res world].
    split; [reflexivity|]. rewrite delete_id by assumption.
    rewrite <- Hc. apply World_eta.
  - intros Hempty. rewrite ClearCache_open by assumption. cbn [res world].
    split; [reflexivity|]. change (String.eqb EmptyString EmptyString) with true.
    cbv iota. rewrite <- Hempty, <- Hc. apply World_eta.
  - intros q. rewrite (ClearCache_open q (world (ClearCache q w)))
      by now apply ClearCache_stays_open.
    split; [reflexivity|].
    rewrite (ClearCache_open q w) by assumption. cbn [world store clock cache.rows].
    destruct (String.eqb q EmptyString); [reflexivity|].
    now rewrite delete_delete_eq.
Qed.

Lemma clear_cache_frame_witness :
  res (ClearCache "golang concurrency" Examples.cachedWorld) = inr tt
  /\ cache.Get 0 (queryHash "q") (store (world (ClearCache "golang concurrency"
                                                   Examples.cachedWorld)))
     = ("cached", true, None).
Proof.
  destruct (proj1 (clear_cache_frame Examples.cachedWorld eq_refl) "golang concurrency")
    as (H1 & _ & _ & H4).
  - discriminate.
  - split; [exact H1|]. rewrite (H4 (queryHash "q") 0).
    + reflexivity.
    + vm_compute. discriminate.
Defined.

(** C10. ClearCache flushes the whole store only when its argument is
    exactly the empty string; for every other query, one of white space
    only included, it deletes the single row under the hash of the
    normalized query. ClearCache(" ") deletes the row under the hash of the
    empty string, the key that Search("") reads, and leaves every other row
    in place. *)
Theorem clear_cache_blank_query (w : World) :
  cache.closed (store w) = false ->
  (forall q,
     cache.rows (store (world (ClearCache q w)))
     = if String.eqb q EmptyString then ∅
       else delete (queryHash q) (cache.rows (store w)))
  /\ queryHash " " = queryHash EmptyString
  /\ events (ClearCache " " w) = [CacheDelete (queryHash EmptyString)]
  /\ cache.rows (store (world (ClearCache " " w)))
     = delete (queryHash EmptyString) (cache.rows (store w))
  /\ (forall k,
        k <> queryHash EmptyString ->
        cache.rows (store (world (ClearCache " " w))) !! k = cache.rows (store w) !! k)
  /\ (forall config env count w0,
        hd_error (events (Search config env EmptyString count false w0))
        = Some (CacheRead (queryHash EmptyString))).
Proof.
  intros Hc.
  assert (queryHash " " = queryHash EmptyString) as Hblank by reflexivity.
  split; [|split; [|split; [|split; [|split]]]].
  - intros q. now rewrite ClearCache_open.
  - exact Hblank.
  - rewrite ClearCache_open by assumption. cbn [events].
    change (String.eqb " " EmptyString) with false. cbv iota. now rewrite Hblank.
  - rewrite ClearCache_open by assumption. cbn [world store cache.rows].
    change (String.eqb " " EmptyString) with false. cbv iota. now rewrite Hblank.
  - intros k Hk. rewrite ClearCache_open by assumption. cbn [world store cache.rows].
    change (String.eqb " " EmptyString) with false. cbv iota.
    rewrite Hblank. now rewrite lookup_delete_ne by congruence.
  - intros config env count w0.
    destruct (cache.Get (clock w0) (queryHash EmptyString) (store w0))
      as [[content hit] [e|]] eqn:HG.
    + now rewrite (Search_get_error _ _ _ _ _ _ _ _ HG).
    + destruct hit.
      * now rewrite (Search_hit _ _ _ _ _ _ HG).
      * now rewrite (Search_miss _ _ _ _ _ _ HG).
Qed.

Lemma clear_cache_blank_query_witness :
  cache.rows (store (world (ClearCache " " Examples.cachedWorld))) !! queryHash "q"
  = Some (cache.Row "cached" 0).
Proof.
  rewrite (proj1 (proj2 (proj2 (proj2 (proj2
             (clear_cache_blank_query Examples.cachedWorld eq_refl))))) (queryHash "q")).
  - apply lookup_singleton_eq.
  - vm_compute. discriminate.
Defined.

(** ** The claims about consolidation and the result count *)

(** C4. For every ordered list of fetch results, consolidate drops exactly
    the entries with an error or with white-space-only text and keeps the
    others in their order; its document is the sections of the survivors,
    each the header line "## " followed by the source URL, a blank line and
    the trimmed text, joined by the divider "---" between blank lines; its
    count is the number of survivors. Two survivors with URLs u1 and u2 and
    texts "Goroutines..." and "Table-driven tests..." give the document of
    the specification and the count 2. *)
Theorem consolidate_sections (pages : list ScrapedPage) :
  consolidate pages
  = (Join (map section (List.filter survivor pages)) divider,
     Z.of_nat (length (List.filter survivor pages)))
  /\ (forall p,
        survivor p = true
        <-> Err p = None /\ strings.TrimSpace (scraper.Content p) <> EmptyString)
  /\ (forall p,
        section p
        = "## " +:+ URL p +:+ nl +:+ nl +:+ strings.TrimSpace (scraper.Content p))
  /\ divider = nl +:+ nl +:+ "---" +:+ nl +:+ nl
  /\ (forall u1 u2,
        consolidate [mkPage u1 "Goroutines..." None;
                     mkPage u2 "Table-driven tests..." None]
        = ("## " +:+ u1 +:+ nl +:+ nl +:+ "Goroutines..."
             +:+ nl +:+ nl +:+ "---" +:+ nl +:+ nl
             +:+ "## " +:+ u2 +:+ nl +:+ nl +:+ "Table-driven tests...",
           2)).
Proof.
  split; [|split; [|split; [|split]]].
  - apply consolidate_document.
  - intros p. unfold survivor. destruct (Err p).
    + split; [discriminate | intros [[=] _]].
    + rewrite negb_true_iff, String.eqb_neq. tauto.
  - reflexivity.
  - reflexivity.
  - intros u1 u2. rewrite consolidate_document.
    unfold document, survivorCount, survivors. cbn [List.filter].
    change (survivor (mkPage u1 "Goroutines..." None)) with true.
    change (survivor (mkPage u2 "Table-driven tests..." None)) with true.
    cbn [map Join length]. unfold section, text, divider. cbn [URL scraper.Content].
    change (strings.TrimSpace "Goroutines...") with "Goroutines...".
    change (strings.TrimSpace "Table-driven tests...") with "Table-driven tests...".
    rewrite !append_assoc. reflexivity.
Qed.

Section HitCount.

Variables (config : Config) (env : Env).

(** A run that stored its document is followed by hits on its key. *)
Lemma Run_stored (hash query : string) (count : Z) (w : World)
    (o : Out SearchResult) (r : SearchResult) :
  Run config env hash query count w o ->
  res o = inr r ->
  exists urls,
    In (Fetch urls) (events o)
    /\ r = mkSearchResult (document (Scrape (network env) urls))
                          (survivorCount (Scrape (network env) urls)) false
    /\ forall t',
         t' - clock (world o) <= cache.cacheTTL - time.Second ->
         cache.Get t' hash (store (world o))
         = (document (Scrape (network env) urls), true, None).
Proof.
  intros [] [= <-]. cbn [events world store clock].
  eexists. split; [|split; [reflexivity|]].
  - right. apply in_app_iff. right. now left.
  - intros t' Ht. now apply Get_after_Set.
Qed.

End HitCount.

(** C9 as it was stated fails on a list that Scrape returns. A result
    page gives an address whose fragment holds a line break followed by
    "## x"; url.Parse cuts the fragment off before it looks for control
    bytes, so the request is created and the page, which reads "t", is
    fetched. The text of the survivor has no line beginning with "## ",
    yet the document has two such lines and the count is 1: the fresh
    run reports 1 and the hit that follows it reports 2. *)
Lemma count_sections_url_counterexample :
  search.Search Examples.bases Examples.webBreak "q" 5 "duckduckgo"
  = inl [search.mkResult Examples.urlBreak "T"]
  /\ url.invalidControl Examples.urlBreak = false
  /\ checksRequest (network Examples.envBreak)
  /\ Scrape (network Examples.envBreak) [Examples.urlBreak]
     = [mkPage Examples.urlBreak "t" None]
  /\ (forall p,
        In p (survivors (Scrape (network Examples.envBreak) [Examples.urlBreak])) ->
        ~ hasHeaderLine (text p))
  /\ snd (consolidate (Scrape (network Examples.envBreak) [Examples.urlBreak])) = 1
  /\ countSections
       (fst (consolidate (Scrape (network Examples.envBreak) [Examples.urlBreak]))) = 2
  /\ res (Search Examples.configDuck Examples.envBreak "q" 5 false Examples.emptyWorld)
     = inr (mkSearchResult ("## " +:+ Examples.urlBreak +:+ nl +:+ nl +:+ "t") 1 false)
  /\ res (Search Examples.configDuck Examples.envBreak "q" 5 false
            (world (Search Examples.configDuck Examples.envBreak "q" 5 false
                      Examples.emptyWorld)))
     = inr (mkSearchResult ("## " +:+ Examples.urlBreak +:+ nl +:+ nl +:+ "t") 2 true)
  /\ ~ (forall net urls,
          checksRequest net ->
          (forall p, In p (survivors (Scrape net urls)) -> ~ hasHeaderLine (text p)) ->
          countSections (fst (consolidate (Scrape net urls)))
          = snd (consolidate (Scrape net urls))).
Proof.
  assert (checksRequest (network Examples.envBreak)) as Hnet.
  { intros idx u Hu. cbn [network Examples.envBreak]. rewrite Hu. eauto. }
  assert (forall p,
            In p (survivors (Scrape (network Examples.envBreak) [Examples.urlBreak])) ->
            ~ hasHeaderLine (text p)) as Hclean.
  { intros p [<-|[]] (line & [<-|[]] & Hl). discriminate. }
  split; [vm_compute; reflexivity|]. split; [vm_compute; reflexivity|].
  split; [exact Hnet|]. split; [vm_compute; reflexivity|].
  split; [exact Hclean|]. split; [vm_compute; reflexivity|].
  split; [vm_compute; reflexivity|]. split; [vm_compute; reflexivity|].
  split; [vm_compute; reflexivity|].
  intros H. specialize (H _ _ Hnet Hclean). discriminate.
Qed.

(** C9, as amended. On a cache hit Search reports as ResultCount the
    number of lines of the cached content that begin with "## "
    (countSections). For every list of fetch results this number is at
    least the survivor count of consolidate, and equals it exactly when no
    surviving text contains a line beginning with "## " and no surviving
    URL contains a line break followed by "## "; when some surviving text
    contains such a line, the number is strictly larger, so that a hit on
    the content stored by a fresh run reports a strictly larger
    ResultCount than that run did. *)
Theorem cache_hit_counts_headers :
  (forall config env query count w content,
     cache.Get (clock w) (queryHash query) (store w) = (content, true, None) ->
     res (Search config env query count false w)
     = inr (mkSearchResult content (countSections content) true))
  /\ (forall pages, snd (consolidate pages) <= countSections (fst (consolidate pages)))
  /\ (forall pages,
        (forall p, In p (survivors pages) ->
                   ~ hasHeaderLine (text p) /\ ~ hasLaterHeaderLine (URL p))
        <-> countSections (fst (consolidate pages)) = snd (consolidate pages))
  /\ (forall pages p,
        In p (survivors pages) ->
        hasHeaderLine (text p) ->
        snd (consolidate pages) < countSections (fst (consolidate pages)))
  /\ (forall config env query count force w r,
        res (Search config env query count force w) = inr r ->
        FromCache r = false ->
        exists urls,
          In (Fetch urls) (events (Search config env query count force w))
          /\ consolidate (Scrape (network env) urls) = (Content r, ResultCount r)
          /\ forall config' env' count' t',
               t' - clock (world (Search config env query count force w))
               <= cache.cacheTTL - time.Second ->
               res (Search config' env' query count' false
                      (mkWorld (store (world (Search config env query count force w))) t'))
               = inr (mkSearchResult (Content r) (countSections (Content r)) true)
               /\ ResultCount r <= countSections (Content r)
               /\ ((exists p, In p (survivors (Scrape (network env) urls))
                              /\ hasHeaderLine (text p)) ->
                   ResultCount r < countSections (Content r))).
Proof.
  assert (forall pages,
            countSections (fst (consolidate pages))
            = snd (consolidate pages) + Z.of_nat (total (map extra (survivors pages))))
    as Hcount.
  { intros pages. rewrite consolidate_document. cbn [fst snd].
    apply countSections_document. }
  assert (forall pages p,
            In p (survivors pages) -> hasHeaderLine (text p) ->
            snd (consolidate pages) < countSections (fst (consolidate pages))) as Hmore.
  { intros pages p Hp Hh. rewrite Hcount.
    pose proof (total_extra_pos _ _ Hp Hh). lia. }
  split; [|split; [|split; [|split]]].
  - intros config env query count w content HG. now rewrite (Search_hit _ _ _ _ _ _ HG).
  - intros pages. rewrite Hcount. lia.
  - intros pages. rewrite Hcount, <- total_extra_zero. lia.
  - exact Hmore.
  - intros config env query count force w r Hres Hfresh.
    assert (exists o,
              Run config env (queryHash query) query count w o
              /\ res o = inr r
              /\ world (Search config env query count force w) = world o
              /\ (forall ev, In ev (events o) ->
                             In ev (events (Search config env query count force w))))
      as (o & HR & Hro & Hw & Hev).
    { destruct (Search_SearchRun config env query count force w) as [o HR| |c|c o HG HR];
        cbn [res world events] in *.
      - eauto.
      - discriminate.
      - injection Hres as <-. discriminate.
      - exists o. repeat (split; [assumption || reflexivity|]). intros ev. now right. }
    rewrite Hw.
    destruct (Run_stored _ _ _ _ _ _ _ _ HR Hro) as (urls & Hf & -> & Hget).
    exists urls. split; [now apply Hev|].
    split; [apply consolidate_document|].
    intros config' env' count' t' Ht. cbn [Content ResultCount].
    split; [|split].
    + assert (cache.Get (clock (mkWorld (store (world o)) t')) (queryHash query)
                (store (mkWorld (store (world o)) t'))
              = (document (Scrape (network env) urls), true, None)) as HG
        by (cbn [store clock]; now apply Hget).
      now rewrite (Search_hit _ _ _ _ _ _ HG).
    + specialize (Hcount (Scrape (network env) urls)).
      rewrite consolidate_document in Hcount. cbn [fst snd] in Hcount. lia.
    + intros (p & Hp & Hh). specialize (Hmore _ _ Hp Hh).
      now rewrite consolidate_document in Hmore.
Qed.

Lemma cache_hit_counts_headers_witness :
  countSections
    (fst (consolidate [mkPage "u1" "Goroutines..." None;
                       mkPage "u2" "Table-driven tests..." None]))
  = snd (consolidate [mkPage "u1" "Goroutines..." None;
                      mkPage "u2" "Table-driven tests..." None])
  /\ snd (consolidate [mkPage "u1" ("intro" +:+ nl +:+ "## Usage") None])
     < countSections (fst (consolidate [mkPage "u1" ("intro" +:+ nl +:+ "## Usage") None])).
Proof.
  split.
  - apply (proj1 (proj1 (proj2 (proj2 cache_hit_counts_headers))
                         [mkPage "u1" "Goroutines..." None;
                          mkPage "u2" "Table-driven tests..." None])).
    intros p Hp. vm_compute in Hp. 
    destruct Hp as [<-|[<-|[]]]; split; intros (line & Hin & Hl);
      vm_compute in Hin; try contradiction; destruct Hin as [<-|[]]; discriminate.
  - apply (proj1 (proj2 (proj2 (proj2 cache_hit_counts_headers)))
             [mkPage "u1" ("intro" +:+ nl +:+ "## Usage") None]
             (mkPage "u1" ("intro" +:+ nl +:+ "## Usage") None)).
    + vm_compute. left. reflexivity.
    + exists "## Usage". split; vm_compute; [right; left; reflexivity | reflexivity].
Defined.


(** ** Normalization of the query *)

Section Normalize.

Import strings.

Lemma byteVal_range (c : ascii) : 0 <= byteVal c < 256.
Proof.
  unfold byteVal. pose proof (N_ascii_bounded c) as H. lia.
Qed.

Lemma byteOf_byteVal (c : ascii) : byteOf (byteVal c) = c.
Proof. unfold byteOf, byteVal. rewrite N2Z.id. apply ascii_N_embedding. Qed.

Lemma byteVal_byteOf (n : Z) : 0 <= n < 256 -> byteVal (byteOf n) = n.
Proof.
  intros H. unfold byteOf, byteVal. rewrite N_ascii_embedding by lia. lia.
Qed.

Lemma asciiSpace_spec (a : ascii) :
  asciiSpace a = true <-> (9 <= byteVal a <= 13 \/ byteVal a = 32).
Proof.
  unfold asciiSpace. rewrite orb_true_iff, andb_true_iff, !Z.leb_le, Z.eqb_eq. tauto.
Qed.

Lemma space2_spec (a b : ascii) :
  space2 a b = true
  <-> byteVal a = 0xC2 /\ (byteVal b = 0x85 \/ byteVal b = 0xA0).
Proof.
  unfold space2. rewrite andb_true_iff, orb_true_iff, !Z.eqb_eq. tauto.
Qed.

Lemma space3_spec (a b c : ascii) :
  space3 a b c = true
  <-> (byteVal a = 0xE1 /\ byteVal b = 0x9A /\ byteVal c = 0x80)
      \/ (byteVal a = 0xE2 /\ byteVal b = 0x80
          /\ (0x80 <= byteVal c <= 0x8A \/ byteVal c = 0xA8 \/ byteVal c = 0xA9
              \/ byteVal c = 0xAF))
      \/ (byteVal a = 0xE2 /\ byteVal b = 0x81 /\ byteVal c = 0x9F)
      \/ (byteVal a = 0xE3 /\ byteVal b = 0x80 /\ byteVal c = 0x80).
Proof.
  unfold space3. cbv zeta.
  rewrite !orb_true_iff, !andb_true_iff, !orb_true_iff, !andb_true_iff,
    !Z.eqb_eq, !Z.leb_le.
  tauto.
Qed.

(** Facts on the bytes of white space runes, from the three tables. *)
Ltac byte_facts :=
  repeat match goal with
         | H : asciiSpace _ = true |- _ => apply asciiSpace_spec in H
         | H : space2 _ _ = true |- _ => apply space2_spec in H
         | H : space3 _ _ _ = true |- _ => apply space3_spec in H
         | |- asciiSpace _ = false => apply not_true_iff_false; rewrite asciiSpace_spec
         | |- space2 _ _ = false => apply not_true_iff_false; rewrite space2_spec
         | |- space3 _ _ _ = false => apply not_true_iff_false; rewrite space3_spec
         end;
  unfold startByte in *; try lia.

Lemma space2_first (a b : ascii) : space2 a b = true -> asciiSpace a = false.
Proof. intros H. byte_facts. Qed.

Lemma space3_first (a b c : ascii) :
  space3 a b c = true -> asciiSpace a = false /\ space2 a b = false.
Proof. intros H. split; byte_facts. Qed.

Lemma space2_second (a b : ascii) :
  space2 a b = true -> asciiSpace b = false /\ ~ startByte b.
Proof. intros H. split; byte_facts. Qed.

Lemma space3_rest (a b c : ascii) :
  space3 a b c = true ->
  asciiSpace c = false /\ space2 b c = false /\ ~ startByte b /\ ~ startByte c.
Proof. intros H. repeat split; byte_facts. Qed.

Lemma space2_start (a b : ascii) : startByte b -> space2 a b = false.
Proof. intros H. byte_facts. Qed.

Lemma space3_start_second (a b c : ascii) : startByte b -> space3 a b c = false.
Proof. intros H. byte_facts. Qed.

Lemma space3_start_third (a b c : ascii) : startByte c -> space3 a b c = false.
Proof. intros H. byte_facts. Qed.

(** The shapes of a white space rune. *)
Lemma spaceRune_cases (r : string) :
  spaceRune r = true ->
  (exists a, r = String a EmptyString /\ asciiSpace a = true)
  \/ (exists a b, r = String a (String b EmptyString) /\ space2 a b = true)
  \/ (exists a b c,
        r = String a (String b (String c EmptyString)) /\ space3 a b c = true).
Proof.
  destruct r as [|a [|b [|c [|d r]]]]; cbn [spaceRune]; try discriminate; eauto 8.
Qed.

Lemma spaceRune_start (r s : string) : spaceRune r = true -> cleanStart (r +:+ s).
Proof.
  intros H.
  destruct (spaceRune_cases r H) as [(a & -> & Ha)|[(a & b & -> & Ha)|(a & b & c & -> & Ha)]];
    rewrite append_cons; cbn [cleanStart]; byte_facts.
Qed.

Lemma whiteSpace_start (s : string) : whiteSpace s -> cleanStart s.
Proof.
  intros [|r s' Hr Hs]; [exact I|]. now apply spaceRune_start.
Qed.

(** *** TrimLeft *)

Lemma TrimLeft_rune (r s : string) :
  spaceRune r = true -> TrimLeft (r +:+ s) = TrimLeft s.
Proof.
  intros H.
  destruct (spaceRune_cases r H) as [(a & -> & Ha)|[(a & b & -> & Ha)|(a & b & c & -> & Ha)]];
    rewrite !append_cons, append_nil; cbn [TrimLeft].
  - now rewrite Ha.
  - now rewrite (space2_first a b Ha), Ha.
  - destruct (space3_first a b c Ha) as [-> ->]. now rewrite Ha.
Qed.

Lemma TrimLeft_whiteSpace (l s : string) :
  whiteSpace l -> TrimLeft (l +:+ s) = TrimLeft s.
Proof.
  induction 1 as [|r l Hr Hl IH]; [reflexivity|].
  now rewrite append_assoc, TrimLeft_rune.
Qed.

Lemma TrimLeft_all_space (l : string) : whiteSpace l -> TrimLeft l = EmptyString.
Proof.
  intros H. rewrite <- (append_empty_r l). now rewrite TrimLeft_whiteSpace.
Qed.

(** One step of TrimLeft. *)
Lemma TrimLeft_cons (a : ascii) (s : string) :
  TrimLeft (String a s)
  = if asciiSpace a then TrimLeft s
    else
      match s with
      | String b r2 =>
          if space2 a b then TrimLeft r2
          else
            match r2 with
            | String c r3 => if space3 a b c then TrimLeft r3 else String a s
            | EmptyString => String a s
            end
      | EmptyString => String a s
      end.
Proof. reflexivity. Qed.

(** White space after [x] does not change where TrimLeft stops in [x]. *)
Lemma TrimLeft_append (n : nat) (x r : string) :
  (String.length x <= n)%nat ->
  whiteSpace r ->
  TrimLeft (x +:+ r)
  = match TrimLeft x with
    | EmptyString => EmptyString
    | String _ _ => TrimLeft x +:+ r
    end.
Proof.
  revert x. induction n as [|n IH]; intros x Hn Hr.
  - destruct x; [|cbn [String.length] in Hn; lia].
    rewrite append_nil. cbn [TrimLeft]. now apply TrimLeft_all_space.
  - pose proof (whiteSpace_start r Hr) as Hstart.
    destruct x as [|a x]; cbn [String.length] in Hn.
    { rewrite append_nil. cbn [TrimLeft]. now apply TrimLeft_all_space. }
    rewrite append_cons, (TrimLeft_cons a (x +:+ r)), (TrimLeft_cons a x).
    destruct (asciiSpace a); [apply IH; [lia | assumption]|].
    destruct x as [|b x]; cbn [String.length] in Hn.
    { rewrite append_nil. cbv iota. rewrite append_cons, append_nil.
      destruct r as [|b [|c r]]; [reflexivity| |]; cbn [cleanStart] in Hstart.
      - now rewrite (space2_start a b Hstart).
      - now rewrite (space2_start a b Hstart), (space3_start_second a b c Hstart). }
    rewrite append_cons. cbv iota.
    destruct (space2 a b); [apply IH; [lia | assumption]|].
    destruct x as [|c x]; cbn [String.length] in Hn.
    { rewrite append_nil. cbv iota. rewrite !append_cons, append_nil.
      destruct r as [|c r]; [reflexivity|]. cbn [cleanStart] in Hstart.
      now rewrite (space3_start_third a b c Hstart). }
    rewrite append_cons. cbv iota.
    destruct (space3 a b c); [apply IH; [lia | assumption]|].
    now rewrite !append_cons.
Qed.

(** *** TrimRight *)

Lemma TrimRight_rune (r s : string) :
  spaceRune r = true -> TrimRight s = EmptyString -> TrimRight (r +:+ s) = EmptyString.
Proof.
  intros H Hs.
  destruct (spaceRune_cases r H) as [(a & -> & Ha)|[(a & b & -> & Ha)|(a & b & c & -> & Ha)]];
    rewrite !append_cons, append_nil; cbn [TrimRight]; rewrite Hs; cbn [spaceRune].
  - now rewrite Ha.
  - destruct (space2_second a b Ha) as [-> _]. cbn [spaceRune]. now rewrite Ha.
  - destruct (space3_rest a b c Ha) as (-> & Hbc & _). cbn [spaceRune]. rewrite Hbc.
    cbn [spaceRune]. now rewrite Ha.
Qed.

Lemma TrimRight_all_space (r : string) : whiteSpace r -> TrimRight r = EmptyString.
Proof.
  induction 1 as [|r s Hr Hs IH]; [reflexivity|]. now apply TrimRight_rune.
Qed.

Lemma TrimRight_append (x r : string) :
  whiteSpace r -> TrimRight (x +:+ r) = TrimRight x.
Proof.
  intros Hr. induction x as [|a x IH].
  - rewrite append_nil. now apply TrimRight_all_space.
  - rewrite append_cons. cbn [TrimRight]. now rewrite IH.
Qed.

Lemma TrimSpace_padding (l c r : string) :
  whiteSpace l -> whiteSpace r -> TrimSpace (l +:+ c +:+ r) = TrimSpace c.
Proof.
  intros Hl Hr. unfold TrimSpace.
  rewrite TrimLeft_whiteSpace by assumption.
  rewrite (TrimLeft_append (String.length c) c r) by (lia || assumption).
  destruct (TrimLeft c) as [|a t]; [reflexivity|].
  now apply TrimRight_append.
Qed.

(** *** ToLower *)

(** *** Runes *)

Lemma skip_nil (n : nat) : skip n EmptyString = EmptyString.
Proof. now destruct n. Qed.

Lemma length_skip (n : nat) (s : string) :
  String.length (skip n s) = (String.length s - n)%nat.
Proof.
  revert s. induction n as [|n IH]; intros [|a s]; cbn [skip String.length];
    try lia. apply IH.
Qed.

Lemma skip_append (n : nat) (c r : string) :
  (n <= String.length c)%nat -> skip n (c +:+ r) = skip n c +:+ r.
Proof.
  revert c. induction n as [|n IH]; intros [|a c] Hn; cbn [String.length] in Hn;
    try reflexivity; try lia.
  rewrite append_cons. cbn [skip]. apply IH. lia.
Qed.

Lemma first_spec (x sz lo hi : Z) :
  utf8.first x = Some (sz, lo, hi) ->
  0xC2 <= x <= 0xF4 /\ 0x80 <= lo /\ hi <= 0xBF /\ (sz = 2 \/ sz = 3 \/ sz = 4).
Proof.
  unfold utf8.first.
  repeat match goal with
         | |- context [if ?b then _ else _] => destruct b eqn:?
         end;
    intros [= <- <- <-];
    repeat match goal with
           | H : (_ && _) = true |- _ => apply andb_true_iff in H as [? ?]
           | H : (_ <=? _) = true |- _ => apply Z.leb_le in H
           | H : (_ =? _) = true |- _ => apply Z.eqb_eq in H
           end;
    lia.
Qed.

(** The width of a decoded rune lies between 1 and the length of the
    string. *)
Lemma Decode_width (a : ascii) (t : string) :
  (1 <= snd (utf8.DecodeRuneInString (String a t)) <= S (String.length t))%nat.
Proof.
  unfold utf8.DecodeRuneInString. cbv zeta.
  destruct (byteVal a <? utf8.RuneSelf); [cbn; lia|].
  destruct (utf8.first (byteVal a)) as [[[sz lo] hi]|]; [|cbn; lia].
  destruct t as [|b t]; [cbn; lia|].
  destruct ((byteVal b <? lo) || (hi <? byteVal b)); [cbn; lia|].
  destruct (sz <=? 2); [cbn; lia|].
  destruct t as [|c t]; [cbn; lia|].
  destruct (utf8.notContinuation (byteVal c)); [cbn; lia|].
  destruct (sz <=? 3); [cbn; lia|].
  destruct t as [|d t]; [cbn; lia|].
  destruct (utf8.notContinuation (byteVal d)); cbn; lia.
Qed.

Lemma rangeOver_fuel (n m : nat) (s : string) :
  (String.length s <= n)%nat -> (String.length s <= m)%nat ->
  rangeOver n s = rangeOver m s.
Proof.
  revert m s. induction n as [|n IH]; intros m s Hn Hm.
  - destruct s; [now destruct m | cbn [String.length] in Hn; lia].
  - destruct m as [|m]; [destruct s; [reflexivity | cbn [String.length] in Hm; lia]|].
    destruct s as [|a t]; [reflexivity|]. cbn [rangeOver String.length] in *.
    pose proof (Decode_width a t) as Hw.
    destruct (utf8.DecodeRuneInString (String a t)) as [c w]. cbn [snd] in Hw.
    f_equal. apply IH; rewrite length_skip; cbn [String.length]; lia.
Qed.

(** The equation of the loop. *)
Lemma runes_cons (a : ascii) (t : string) :
  runes (String a t)
  = fst (utf8.DecodeRuneInString (String a t))
    :: runes (skip (snd (utf8.DecodeRuneInString (String a t))) (String a t)).
Proof.
  unfold runes at 1. cbn [String.length rangeOver].
  pose proof (Decode_width a t) as Hw.
  destruct (utf8.DecodeRuneInString (String a t)) as [c w]. cbn [fst snd] in *.
  f_equal. apply rangeOver_fuel; rewrite ?length_skip; cbn [String.length]; lia.
Qed.

Lemma runes_nil : runes EmptyString = nil.
Proof. reflexivity. Qed.

(** A byte that starts a rune ends the sequence before it: what is decoded
    at the front of [c] does not depend on what follows [c], as long as that
    starts with no continuation byte. *)
Lemma Decode_append (a : ascii) (t r : string) :
  cleanStart r ->
  utf8.DecodeRuneInString (String a t +:+ r) = utf8.DecodeRuneInString (String a t).
Proof.
  intros Hr. rewrite append_cons. unfold utf8.DecodeRuneInString. cbv zeta.
  destruct (byteVal a <? utf8.RuneSelf); [reflexivity|].
  destruct (utf8.first (byteVal a)) as [[[sz lo] hi]|] eqn:Ef; [|reflexivity].
  apply first_spec in Ef as (_ & Hlo & Hhi & _).
  assert (forall b, startByte b -> (byteVal b <? lo) || (hi <? byteVal b) = true) as Hsecond.
  { intros b [Hb|Hb]; apply orb_true_iff; [left; apply Z.ltb_lt | right; apply Z.ltb_lt];
      lia. }
  assert (forall b, startByte b -> utf8.notContinuation (byteVal b) = true) as Hnext.
  { intros b [Hb|Hb]; apply orb_true_iff; [left; apply Z.ltb_lt | right; apply Z.ltb_lt];
      lia. }
  destruct t as [|b t].
  { rewrite append_nil. destruct r as [|b r]; [reflexivity|]. cbn [cleanStart] in Hr.
    now rewrite Hsecond. }
  rewrite append_cons.
  destruct ((byteVal b <? lo) || (hi <? byteVal b)); [reflexivity|].
  destruct (sz <=? 2); [reflexivity|].
  destruct t as [|c t].
  { rewrite append_nil. destruct r as [|c r]; [reflexivity|]. cbn [cleanStart] in Hr.
    now rewrite Hnext. }
  rewrite append_cons.
  destruct (utf8.notContinuation (byteVal c)); [reflexivity|].
  destruct (sz <=? 3); [reflexivity|].
  destruct t as [|d t].
  { rewrite append_nil. destruct r as [|d r]; [reflexivity|]. cbn [cleanStart] in Hr.
    now rewrite Hnext. }
  now rewrite append_cons.
Qed.

Lemma runes_append (n : nat) (c r : string) :
  (String.length c <= n)%nat ->
  cleanStart r ->
  runes (c +:+ r) = runes c ++ runes r.
Proof.
  revert c. induction n as [|n IH]; intros c Hn Hr.
  - destruct c; [reflexivity | cbn [String.length] in Hn; lia].
  - destruct c as [|a t]; [reflexivity|]. cbn [String.length] in Hn.
    rewrite (runes_cons a t). pose proof (Decode_width a t) as Hw.
    pose proof (Decode_append a t r Hr) as Hd.
    rewrite append_cons in *. rewrite runes_cons, Hd.
    destruct (utf8.DecodeRuneInString (String a t)) as [x w]. cbn [fst snd] in *.
    rewrite <- append_cons, skip_append by (cbn [String.length]; lia).
    rewrite IH; [reflexivity| |assumption].
    rewrite length_skip. cbn [String.length]. lia.
Qed.

(** What Map writes for a list of runes. *)
Lemma Map_cons (mapping : Z -> Z) (a : ascii) (t : string) :
  Map mapping (String a t)
  = (if 0 <=? mapping (fst (utf8.DecodeRuneInString (String a t)))
     then utf8.AppendRune (mapping (fst (utf8.DecodeRuneInString (String a t))))
     else EmptyString)
    +:+ Map mapping (skip (snd (utf8.DecodeRuneInString (String a t))) (String a t)).
Proof.
  unfold Map. rewrite runes_cons. cbn [fold_right]. cbv zeta.
  now destruct (0 <=? _).
Qed.

Lemma Map_runes (mapping : Z -> Z) (s t : string) :
  map mapping (runes s) = map mapping (runes t) -> Map mapping s = Map mapping t.
Proof.
  unfold Map. generalize (runes s) (runes t).
  induction l as [|x l IH]; intros [|y l'] H; try discriminate; [reflexivity|].
  cbn [map] in H. injection H as Hx Hl. cbn [fold_right]. cbv zeta.
  now rewrite Hx, (IH l' Hl).
Qed.

Lemma Map_append (mapping : Z -> Z) (c r : string) :
  cleanStart r -> Map mapping (c +:+ r) = Map mapping c +:+ Map mapping r.
Proof.
  intros Hr. unfold Map. rewrite (runes_append (String.length c)) by (lia || assumption).
  induction (runes c) as [|x l IH]; [reflexivity|].
  cbn [app fold_right]. cbv zeta. rewrite IH.
  destruct (0 <=? mapping x); [now rewrite append_assoc | reflexivity].
Qed.

Lemma lowerByte_not_upper (a : ascii) :
  ~ (65 <= byteVal a <= 90) -> lowerByte a = a.
Proof.
  intros H. unfold lowerByte, isUpper.
  destruct (65 <=? byteVal a) eqn:E1; [|reflexivity].
  destruct (byteVal a <=? 90) eqn:E2; [|reflexivity].
  apply Z.leb_le in E1, E2. lia.
Qed.

Lemma lowerByte_upper (a : ascii) :
  65 <= byteVal a <= 90 -> lowerByte a = byteOf (byteVal a + 32).
Proof.
  intros H. unfold lowerByte, isUpper.
  now rewrite (proj2 (Z.leb_le _ _) (proj1 H)), (proj2 (Z.leb_le _ _) (proj2 H)).
Qed.

(** **** Bytes below 0x80 *)

Lemma Decode_ascii (a : ascii) (t : string) :
  byteVal a < 0x80 -> utf8.DecodeRuneInString (String a t) = (byteVal a, 1%nat).
Proof.
  intros H. unfold utf8.DecodeRuneInString, utf8.RuneSelf. cbv zeta.
  now rewrite (proj2 (Z.ltb_lt _ _) H).
Qed.

Lemma AppendRune_ascii (v : Z) :
  0 <= v <= 0x7F -> utf8.AppendRune v = String (byteOf v) EmptyString.
Proof.
  intros H. unfold utf8.AppendRune.
  now rewrite (proj2 (Z.leb_le _ _) (proj1 H)), (proj2 (Z.leb_le _ _) (proj2 H)).
Qed.

Lemma ToLower_ascii (a : ascii) :
  byteVal a < 0x80 ->
  0 <= unicode.ToLower (byteVal a) <= 0x7F
  /\ byteOf (unicode.ToLower (byteVal a)) = lowerByte a.
Proof.
  intros H. pose proof (byteVal_range a) as Hr.
  unfold unicode.ToLower, unicode.MaxASCII, lowerByte, isUpper.
  rewrite (proj2 (Z.leb_le (byteVal a) 0x7F)) by lia.
  destruct ((65 <=? byteVal a) && (byteVal a <=? 90)) eqn:E.
  - apply andb_true_iff in E as [E1 E2]. apply Z.leb_le in E1, E2. split; [lia|reflexivity].
  - split; [lia | apply byteOf_byteVal].
Qed.

Lemma Map_ascii (a : ascii) (t : string) :
  byteVal a < 0x80 ->
  Map unicode.ToLower (String a t) = String (lowerByte a) (Map unicode.ToLower t).
Proof.
  intros H. rewrite Map_cons, (Decode_ascii a t H). cbn [fst snd skip].
  destruct (ToLower_ascii a H) as [Hr <-].
  rewrite (proj2 (Z.leb_le _ _) (proj1 Hr)), AppendRune_ascii by assumption.
  reflexivity.
Qed.

Lemma Map_lowerBytes (s : string) :
  isASCII s = true -> Map unicode.ToLower s = lowerBytes s.
Proof.
  induction s as [|a s IH]; [reflexivity|]. cbn [isASCII lowerBytes].
  intros H. apply andb_true_iff in H as [Ha Hs]. apply Z.ltb_lt in Ha.
  now rewrite Map_ascii, IH.
Qed.

Lemma lowerBytes_no_upper (s : string) : hasUpper s = false -> lowerBytes s = s.
Proof.
  induction s as [|a s IH]; [reflexivity|]. cbn [hasUpper lowerBytes].
  intros H. apply orb_false_iff in H as [Ha Hs].
  unfold lowerByte. now rewrite Ha, IH.
Qed.

(** The fast path of ToLower computes what Map does. *)
Lemma ToLower_Map (s : string) : ToLower s = Map unicode.ToLower s.
Proof.
  unfold ToLower. destruct (isASCII s) eqn:E; [|reflexivity].
  rewrite (Map_lowerBytes s E).
  destruct (hasUpper s) eqn:U; [reflexivity|]. symmetry. now apply lowerBytes_no_upper.
Qed.

(** **** White space runes have no other case *)

Lemma byte_is (a : ascii) (v : Z) : byteVal a = v -> a = byteOf v.
Proof. intros <-. symmetry. apply byteOf_byteVal. Qed.

Ltac rune_step :=
  rewrite Map_cons;
  match goal with
  | |- context [utf8.DecodeRuneInString ?x] =>
      let d := eval vm_compute in (utf8.DecodeRuneInString x) in
      change (utf8.DecodeRuneInString x) with d
  end;
  cbn [fst snd skip];
  match goal with
  | |- context [unicode.ToLower ?c] =>
      let v := eval vm_compute in (unicode.ToLower c) in
      change (unicode.ToLower c) with v
  end;
  match goal with
  | |- context [utf8.AppendRune ?c] =>
      let v := eval vm_compute in (utf8.AppendRune c) in
      change (utf8.AppendRune c) with v
  end;
  reflexivity.

Lemma Map_space (r s : string) :
  spaceRune r = true -> Map unicode.ToLower (r +:+ s) = r +:+ Map unicode.ToLower s.
Proof.
  intros H.
  destruct (spaceRune_cases r H) as [(a & -> & Ha)|[(a & b & -> & Ha)|(a & b & c & -> & Ha)]];
    rewrite !append_cons, append_nil.
  - apply asciiSpace_spec in Ha.
    rewrite Map_ascii by lia. now rewrite lowerByte_not_upper by lia.
  - apply space2_spec in Ha as [Ea Eb]. apply byte_is in Ea. subst a.
    destruct Eb as [Eb|Eb]; apply byte_is in Eb; subst b; rune_step.
  - apply space3_spec in Ha.
    assert (byteVal a = 0xE1 /\ byteVal b = 0x9A /\ byteVal c = 0x80
            \/ byteVal a = 0xE2 /\ byteVal b = 0x80
               /\ (byteVal c = 0x80 \/ byteVal c = 0x81 \/ byteVal c = 0x82
                   \/ byteVal c = 0x83 \/ byteVal c = 0x84 \/ byteVal c = 0x85
                   \/ byteVal c = 0x86 \/ byteVal c = 0x87 \/ byteVal c = 0x88
                   \/ byteVal c = 0x89 \/ byteVal c = 0x8A \/ byteVal c = 0xA8
                   \/ byteVal c = 0xA9 \/ byteVal c = 0xAF)
            \/ byteVal a = 0xE2 /\ byteVal b = 0x81 /\ byteVal c = 0x9F
            \/ byteVal a = 0xE3 /\ byteVal b = 0x80 /\ byteVal c = 0x80) as Hc by lia.
    clear Ha.
    destruct Hc as [(Ea & Eb & Ec)|[(Ea & Eb & Ec)|[(Ea & Eb & Ec)|(Ea & Eb & Ec)]]];
      apply byte_is in Ea, Eb; subst a b;
      repeat (destruct Ec as [Ec|Ec]; [apply byte_is in Ec; subst c; rune_step|]);
      apply byte_is in Ec; subst c; rune_step.
Qed.

Lemma Map_whiteSpace_append (l s : string) :
  whiteSpace l -> Map unicode.ToLower (l +:+ s) = l +:+ Map unicode.ToLower s.
Proof.
  induction 1 as [|r l Hr Hl IH]; [reflexivity|].
  now rewrite !append_assoc, Map_space, IH.
Qed.

Lemma ToLower_whiteSpace (l : string) : whiteSpace l -> ToLower l = l.
Proof.
  intros H. rewrite ToLower_Map, <- (append_empty_r l) at 1.
  rewrite (Map_whiteSpace_append l EmptyString H). apply append_empty_r.
Qed.

(** White space around a string stays around its lower-case form. *)
Lemma ToLower_padding (l c r : string) :
  whiteSpace l -> whiteSpace r -> ToLower (l +:+ c +:+ r) = l +:+ ToLower c +:+ r.
Proof.
  intros Hl Hr. rewrite !ToLower_Map, (Map_whiteSpace_append l _ Hl).
  rewrite (Map_append _ c r (whiteSpace_start r Hr)).
  now rewrite <- (ToLower_Map r), (ToLower_whiteSpace r Hr).
Qed.

(** **** The case table *)

Lemma In_points (r lo hi stride delta : Z) :
  unicode.holds r lo hi stride = true -> In r (points (lo, hi, stride, delta)).
Proof.
  unfold unicode.holds. destruct (lo <=? r) eqn:H1; [|discriminate].
  destruct (r <=? hi) eqn:H2; [|discriminate]. intros Hs.
  apply Z.leb_le in H1, H2. unfold points. apply filter_In. split; [|exact Hs].
  apply in_map_iff. exists (Z.to_nat (r - lo)). split; [lia|].
  apply in_seq. lia.
Qed.

Lemma to_cased (r : Z) (table : list (Z * Z * Z * Z)) :
  In r (flat_map points table) \/ unicode.to r table = r.
Proof.
  induction table as [|[[[lo hi] stride] delta] table IH]; [now right|].
  cbn [unicode.to flat_map].
  destruct (unicode.holds r lo hi stride) eqn:E.
  - left. apply in_app_iff. left. now apply In_points.
  - destruct IH as [IH|IH]; [left; apply in_app_iff; now right | now right].
Qed.

(** A rune is in the list [cased] or is its own lower-case form. *)
Lemma ToLower_cased (r : Z) : In r cased \/ unicode.ToLower r = r.
Proof.
  unfold unicode.ToLower, unicode.MaxASCII.
  destruct (r <=? 0x7F) eqn:E; [|apply to_cased].
  destruct ((65 <=? r) && (r <=? 90)) eqn:U; [|now right].
  left. apply andb_true_iff in U as [U1 U2]. apply Z.leb_le in U1, U2.
  unfold cased. change unicode.CaseRanges with ((0x41, 0x5A, 1, 32) :: tl unicode.CaseRanges).
  cbn [flat_map]. apply in_app_iff. left. apply In_points. unfold unicode.holds.
  rewrite (proj2 (Z.leb_le 0x41 r)), (proj2 (Z.leb_le r 0x5A)), Z.mod_1_r by lia.
  reflexivity.
Qed.

Lemma cased_check (check : Z -> bool) :
  forallb check cased = true ->
  (forall r, unicode.ToLower r = r -> check r = true) ->
  forall r, check r = true.
Proof.
  intros Hc Hid r. destruct (ToLower_cased r) as [H|H]; [|now apply Hid].
  now apply (proj1 (forallb_forall check cased) Hc).
Qed.

Lemma ToLower_idempotent_rune (r : Z) :
  unicode.ToLower (unicode.ToLower r) = unicode.ToLower r.
Proof.
  apply Z.eqb_eq.
  apply (cased_check (fun r => unicode.ToLower (unicode.ToLower r) =? unicode.ToLower r)).
  - vm_compute. reflexivity.
  - intros x Hx. rewrite !Hx. apply Z.eqb_refl.
Qed.

Lemma sameLetter_lower (a b : Z) :
  sameLetter a b -> unicode.ToLower a = unicode.ToLower b.
Proof.
  intros [->|[<-|<-]]; [reflexivity| |]; now rewrite ToLower_idempotent_rune.
Qed.

Lemma ToLower_caseVariant (s t : string) : caseVariant s t -> ToLower s = ToLower t.
Proof.
  intros H. rewrite !ToLower_Map. apply Map_runes. unfold caseVariant in H.
  induction H as [|a b l l' Hab Hl IH]; [reflexivity|].
  cbn [map]. now rewrite (sameLetter_lower a b Hab), IH.
Qed.

Lemma normalize_sameQuery (q1 q2 : string) :
  sameQuery q1 q2 -> TrimSpace (ToLower q1) = TrimSpace (ToLower q2).
Proof.
  intros (l1 & c1 & r1 & l2 & c2 & r2 & -> & -> & Hl1 & Hr1 & Hl2 & Hr2 & Hc).
  rewrite !ToLower_padding by assumption.
  rewrite !TrimSpace_padding by assumption.
  now rewrite (ToLower_caseVariant c1 c2 Hc).
Qed.

(** *** The digits of the key *)

Lemma hexDigit_hex (n : Z) : 0 <= n < 16 -> isHexDigit (fmt.hexDigit n) = true.
Proof.
  intros H. unfold isHexDigit, fmt.hexDigit. cbv zeta.
  destruct (n <? 10) eqn:E.
  - apply Z.ltb_lt in E. rewrite byteVal_byteOf by lia.
    apply orb_true_iff. left. apply andb_true_iff. split; apply Z.leb_le; lia.
  - apply Z.ltb_ge in E. rewrite byteVal_byteOf by lia.
    apply orb_true_iff. right. apply andb_true_iff. split; apply Z.leb_le; lia.
Qed.

Lemma allHex_hex (bs : list Z) :
  Forall (fun b => 0 <= b < 256) bs -> allHex (fmt.hex bs) = true.
Proof.
  induction 1 as [|b bs Hb Hbs IH]; [reflexivity|].
  cbn [fmt.hex allHex]. rewrite IH.
  rewrite !hexDigit_hex; [reflexivity| |].
  - apply Z.mod_pos_bound. lia.
  - split; [apply Z.div_pos; lia | apply Z.div_lt_upper_bound; lia].
Qed.

Lemma wordBytes_range (w : Z) : Forall (fun b => 0 <= b < 256) (sha256.wordBytes w).
Proof.
  unfold sha256.wordBytes. repeat constructor; apply Z.mod_pos_bound; lia.
Qed.

Lemma Sum256_range (msg : list Z) : Forall (fun b => 0 <= b < 256) (sha256.Sum256 msg).
Proof.
  unfold sha256.Sum256.
  destruct (sha256.blocks _ _ _) as [a b c d e f g h].
  repeat (apply Forall_app; split); apply wordBytes_range.
Qed.

End Normalize.

(** C6 as it was stated fails for a letter and a capital whose
    lower-case form is another letter. The Greek word for street in
    capitals ends in the capital sigma, in small letters in the final sigma;
    the capital sigma is the upper-case form of the final sigma, but its
    lower-case form is the other small sigma, and ToLower leaves the final
    sigma as it is: the two spellings differ only in letter case and get
    different keys. *)
Lemma query_hash_case_counterexample :
  caseFormVariant Examples.capitalOdos Examples.smallOdos
  /\ strings.unicode.ToUpper 0x3C2 = 0x3A3
  /\ strings.unicode.ToLower 0x3A3 = 0x3C3
  /\ strings.unicode.ToLower 0x3C2 = 0x3C2
  /\ strings.ToLower Examples.capitalOdos <> strings.ToLower Examples.smallOdos
  /\ queryHash Examples.capitalOdos <> queryHash Examples.smallOdos
  /\ ~ (forall q1 q2, sameQueryAnyCase q1 q2 -> queryHash q1 = queryHash q2).
Proof.
  assert (caseFormVariant Examples.capitalOdos Examples.smallOdos) as Hforms.
  { unfold caseFormVariant.
    change (strings.runes Examples.capitalOdos) with [0x39F; 0x394; 0x39F; 0x3A3].
    change (strings.runes Examples.smallOdos) with [0x3BF; 0x3B4; 0x3BF; 0x3C2].
    repeat (constructor; [right; right; vm_compute; reflexivity|]). constructor. }
  assert (queryHash Examples.capitalOdos <> queryHash Examples.smallOdos) as Hkeys
    by (vm_compute; discriminate).
  split; [exact Hforms|]. split; [vm_compute; reflexivity|].
  split; [vm_compute; reflexivity|]. split; [vm_compute; reflexivity|].
  split; [vm_compute; discriminate|]. split; [exact Hkeys|].
  intros H. apply Hkeys, H.
  exists EmptyString, Examples.capitalOdos, EmptyString,
    EmptyString, Examples.smallOdos, EmptyString.
  split; [vm_compute; reflexivity|]. split; [vm_compute; reflexivity|].
  repeat (split; [constructor|]). exact Hforms.
Qed.

(** C6, as amended. Two queries that differ only in white space before
    and after them, or in that letters of the one are the lower-case forms
    of the letters of the other, have the same cache key: letters are
    compared rune by rune, the lower-case form is that of unicode.ToLower,
    and a byte that is no valid UTF-8 counts as the rune U+FFFD. The key
    is SHA-256 of the normalized query, written as 64 lower-case
    hexadecimal digits whatever the length of the query: it is the digest
    that is stored as the key, not the text of the query, from which it
    differs as soon as the query is not itself 64 hexadecimal digits. *)
Theorem query_hash_normalizes :
  (forall q1 q2, sameQuery q1 q2 -> queryHash q1 = queryHash q2)
  /\ (forall q,
        queryHash q
        = fmt.hex (sha256.Sum256
                     (strings.toBytes (strings.TrimSpace (strings.ToLower q)))))
  /\ (forall q, String.length (queryHash q) = 64%nat /\ allHex (queryHash q) = true)
  /\ (forall q, String.length q <> 64%nat \/ allHex q = false -> queryHash q <> q)
  /\ (forall config env q count force w k v,
        In (CacheWrite k v) (events (Search config env q count force w)) ->
        k = queryHash q)
  /\ fmt.hex (sha256.Sum256 (strings.toBytes "abc"))
     = "ba7816bf8f01cfea414140de5dae2223b00361a396177a9cb410ff61f20015ad".
Proof.
  assert (forall q, allHex (queryHash q) = true) as Hhex.
  { intros q. unfold queryHash. apply allHex_hex, Sum256_range. }
  split; [|split; [|split; [|split; [|split]]]].
  - intros q1 q2 H. unfold queryHash. now rewrite (normalize_sameQuery q1 q2 H).
  - reflexivity.
  - intros q. split; [apply length_queryHash | apply Hhex].
  - intros q [H|H] E.
    + apply H. rewrite <- E. apply length_queryHash.
    + rewrite <- E, Hhex in H. discriminate.
  - intros config env q count force w k v Hin.
    destruct (Search_SearchRun config env q count force w) as [o HR| | |c o HG HR];
      cbn [events] in Hin.
    + now apply (Run_write_key _ _ _ _ _ _ _ _ _ HR Hin).
    + destruct Hin as [Hin|[]]. discriminate.
    + destruct Hin as [Hin|[]]. discriminate.
    + destruct Hin as [Hin|Hin]; [discriminate|].
      now apply (Run_write_key _ _ _ _ _ _ _ _ _ HR Hin).
  - vm_compute. reflexivity.
Qed.

Lemma query_hash_normalizes_witness :
  queryHash "Golang concurrency" = queryHash "  golang concurrency  "
  /\ queryHash "Golang concurrency" = queryHash "GOLANG CONCURRENCY"
  /\ queryHash (Examples.capitalEAcute +:+ "COLE")
     = queryHash (" " +:+ Examples.smallEAcute +:+ "cole")
  /\ queryHash "golang concurrency" <> "golang concurrency".
Proof.
  split; [|split; [|split]].
  - apply (proj1 query_hash_normalizes).
    exists EmptyString, "Golang concurrency", EmptyString, "  ", "golang concurrency", "  ".
    split; [reflexivity|]. split; [reflexivity|].
    repeat (split; [repeat constructor|]).
    + apply (whiteSpace_rune " " " "); [reflexivity|].
      apply (whiteSpace_rune " " EmptyString); [reflexivity | constructor].
    + apply (whiteSpace_rune " " " "); [reflexivity|].
      apply (whiteSpace_rune " " EmptyString); [reflexivity | constructor].
    + case_variant.
  - apply (proj1 query_hash_normalizes).
    exists EmptyString, "Golang concurrency", EmptyString, EmptyString, "GOLANG CONCURRENCY", EmptyString.
    split; [reflexivity|]. split; [reflexivity|].
    repeat (split; [constructor|]).
    case_variant.
  - apply (proj1 query_hash_normalizes).
    exists EmptyString, (Examples.capitalEAcute +:+ "COLE"), EmptyString,
      " ", (Examples.smallEAcute +:+ "cole"), EmptyString.
    split; [reflexivity|]. split; [reflexivity|].
    split; [constructor|]. split; [constructor|].
    split; [|split; [constructor|]].
    + apply (whiteSpace_rune " " EmptyString); [reflexivity | constructor].
    + case_variant.
  - apply (proj1 (proj2 (proj2 (proj2 query_hash_normalizes)))).
    left. vm_compute. discriminate.
Defined.

(** ** The page fetcher *)

Section Scrape.

Variables (net : Network) (urls : list string).

Lemma task_fetched (results : list ScrapedPage) (idx : nat) (u : string) :
  task net results idx u = <[idx := fetched net idx u]> results.
Proof. unfold task, fetched. now destruct (scrapeSingle net idx u). Qed.

(** One completion: the goroutine of index [idx] writes its slot. *)
Lemma complete_cons (results : list ScrapedPage) (idx : nat) (sched : list nat) :
  complete net urls results (idx :: sched)
  = complete net urls
      match urls !! idx with
      | Some u => task net results idx u
      | None => results
      end
      sched.
Proof. reflexivity. Qed.

Lemma step_length (results : list ScrapedPage) (idx : nat) :
  length match urls !! idx with
         | Some u => task net results idx u
         | None => results
         end
  = length results.
Proof.
  destruct (urls !! idx); [|reflexivity].
  rewrite task_fetched. apply length_insert.
Qed.

Lemma step_lookup (results : list ScrapedPage) (idx i : nat) :
  length results = length urls ->
  match urls !! idx with
  | Some u => task net results idx u
  | None => results
  end !! i
  = if decide (i = idx) then fetched net i <$> urls !! i else results !! i.
Proof.
  intros Hlen. destruct (decide (i = idx)) as [->|Hne].
  - destruct (urls !! idx) as [u|] eqn:E.
    + rewrite task_fetched. apply list_lookup_insert_eq.
      rewrite Hlen. now apply lookup_lt_Some in E.
    + cbn. apply lookup_ge_None. rewrite Hlen. now apply lookup_ge_None.
  - destruct (urls !! idx) as [u|]; [|reflexivity].
    rewrite task_fetched. now apply list_lookup_insert_ne.
Qed.

Lemma complete_length (sched : list nat) (results : list ScrapedPage) :
  length (complete net urls results sched) = length results.
Proof.
  revert results. induction sched as [|idx sched IH]; intros results; [reflexivity|].
  now rewrite complete_cons, IH, step_length.
Qed.

(** After the completions of [sched], slot [i] holds the result of its
    goroutine when [i] is in [sched], and what it held before when not. *)
Lemma complete_lookup (sched : list nat) (results : list ScrapedPage) (i : nat) :
  length results = length urls ->
  complete net urls results sched !! i
  = if decide (i ∈ sched) then fetched net i <$> urls !! i else results !! i.
Proof.
  revert results. induction sched as [|idx sched IH]; intros results Hlen.
  - destruct (decide (i ∈ [])) as [Hin|]; [|reflexivity].
    now apply elem_of_nil in Hin.
  - rewrite complete_cons, IH by (now rewrite step_length).
    rewrite step_lookup by assumption.
    destruct (decide (i ∈ sched)) as [Hin|Hin].
    + destruct (decide (i ∈ idx :: sched)) as [|Hn]; [reflexivity|].
      exfalso. apply Hn. now apply elem_of_cons; right.
    + destruct (decide (i = idx)) as [->|Hne].
      * destruct (decide (idx ∈ idx :: sched)) as [|Hn]; [reflexivity|].
        exfalso. apply Hn. now apply elem_of_cons; left.
      * destruct (decide (i ∈ idx :: sched)) as [Hi|]; [|reflexivity].
        apply elem_of_cons in Hi as [Hi|Hi]; [congruence | contradiction].
Qed.

Lemma ScrapeUnder_imap (sched : list nat) :
  Permutation sched (seq 0 (length urls)) ->
  ScrapeUnder sched net urls = imap (fetched net) urls.
Proof.
  intros Hperm. apply list_eq. intros i. unfold ScrapeUnder.
  rewrite complete_lookup by apply length_replicate.
  rewrite list_lookup_imap.
  destruct (decide (i ∈ sched)) as [Hin|Hin]; [reflexivity|].
  destruct (urls !! i) as [u|] eqn:E.
  - exfalso. apply Hin. apply list_elem_of_In.
    apply (Permutation_in i (Permutation_sym Hperm)).
    apply in_seq. apply lookup_lt_Some in E. lia.
  - cbn. apply lookup_replicate_None. now apply lookup_ge_None.
Qed.

End Scrape.

Section Counting.

Lemma partition_pages (pages : list ScrapedPage) :
  length pages
  = (length (List.filter failure pages) + length (List.filter blank pages)
     + length (List.filter survivor pages))%nat.
Proof.
  induction pages as [|p pages IH]; [reflexivity|].
  cbn [List.filter length]. unfold failure at 1, blank at 1, survivor at 1.
  destruct (Err p); [cbn [length]; lia|].
  destruct (String.eqb _ _); cbn [negb length]; lia.
Qed.

End Counting.

(** C5. For every list of N URLs and every order in which the goroutines
    complete, Scrape returns exactly N results, the result at index i
    carrying the URL at index i with either the extracted text and no
    error or an error and no text, each goroutine having run once; the
    result does not depend on the order of completion; and the survivor
    count of consolidate on it is N minus the number of failed fetches minus
    the number of fetches that succeeded with white-space-only text. *)
Theorem scrape_one_result_per_url (net : Network) (urls : list string)
    (sched : list nat) :
  Permutation sched (seq 0 (length urls)) ->
  length (ScrapeUnder sched net urls) = length urls
  /\ (forall i u,
        urls !! i = Some u ->
        exists p,
          ScrapeUnder sched net urls !! i = Some p
          /\ URL p = u
          /\ ((exists text,
                 net i u = inl text /\ scraper.Content p = text /\ Err p = None)
              \/ (exists e,
                    net i u = inr e /\ scraper.Content p = EmptyString
                    /\ Err p = Some e)))
  /\ map URL (ScrapeUnder sched net urls) = urls
  /\ ScrapeUnder sched net urls = Scrape net urls
  /\ snd (consolidate (ScrapeUnder sched net urls))
     = Z.of_nat (length urls)
       - Z.of_nat (length (List.filter failure (ScrapeUnder sched net urls)))
       - Z.of_nat (length (List.filter blank (ScrapeUnder sched net urls))).
Proof.
  intros Hperm.
  pose proof (ScrapeUnder_imap net urls sched Hperm) as E.
  assert (length (ScrapeUnder sched net urls) = length urls) as Hlen
    by (rewrite E; apply length_imap).
  split; [exact Hlen|]. split; [|split; [|split]].
  - intros i u Hu. exists (fetched net i u). split.
    + rewrite E, list_lookup_imap, Hu. reflexivity.
    + split; [reflexivity|]. unfold fetched, scrapeSingle.
      destruct (net i u) as [text|e]; cbn [fst snd scraper.Content Err]; eauto 6.
  - apply list_eq. intros i.
    rewrite list_lookup_fmap, E, list_lookup_imap.
    now destruct (urls !! i).
  - rewrite E. symmetry. apply ScrapeUnder_imap. reflexivity.
  - rewrite consolidate_document. cbn [snd]. unfold survivorCount, survivors.
    pose proof (partition_pages (ScrapeUnder sched net urls)) as Hp.
    rewrite Hlen in Hp. lia.
Qed.

Lemma scrape_one_result_per_url_witness :
  ScrapeUnder [1; 0]%nat (network Examples.envAllFail) ["u1"; "u2"]
  = [mkPage "u1" EmptyString (Some (External "timeout")); mkPage "u2" "  " None]
  /\ snd (consolidate (ScrapeUnder [1; 0]%nat (network Examples.envAllFail) ["u1"; "u2"]))
     = 2 - 1 - 1.
Proof.
  split; [reflexivity|].
  destruct (scrape_one_result_per_url (network Examples.envAllFail) ["u1"; "u2"]
              [1; 0]%nat) as (_ & _ & _ & _ & H).
  - apply perm_swap.
  - exact H.
Defined.

(** ** The tests of the repository, on the model *)

Section RepositoryTests.

(** The digests of the empty message and of a message of two blocks. *)
Example Sum256_empty :
  fmt.hex (sha256.Sum256 [])
  = "e3b0c44298fc1c149afbf4c8996fb92427ae41e4649b934ca495991b7852b855".
Proof. vm_compute. reflexivity. Qed.

Example Sum256_two_blocks :
  fmt.hex (sha256.Sum256
             (strings.toBytes "abcdbcdecdefdefgefghfghighijhijkijkljklmklmnlmnomnopnopq"))
  = "248d6a61d20638b8e5c026930c3e6039a33ce45964ff2167f6ecedd419db06c1".
Proof. vm_compute. reflexivity. Qed.

(** strings.TrimSpace on white space of one, two and three bytes. *)
Example TrimSpace_unicode :
  strings.TrimSpace
    (strings.ofBytes [32; 0xE2; 0x80; 0x80; 65; 32; 66; 0xC2; 0xA0; 0xE3; 0x80; 0x80; 10])
  = "A B".
Proof. vm_compute. reflexivity. Qed.

(** engine_test.go, TestConsolidate. *)
Example TestConsolidate_empty : consolidate [] = (EmptyString, 0).
Proof. reflexivity. Qed.

Example TestConsolidate_all_errors :
  consolidate [mkPage "http://a.com" EmptyString (Some Examples.errDummy)] = (EmptyString, 0).
Proof. reflexivity. Qed.

Example TestConsolidate_single_page :
  consolidate [mkPage "http://a.com" "Hello" None]
  = ("## http://a.com" +:+ nl +:+ nl +:+ "Hello", 1).
Proof. vm_compute. reflexivity. Qed.

Example TestConsolidate_multiple_pages :
  consolidate [mkPage "http://a.com" "First" None; mkPage "http://b.com" "Second" None]
  = ("## http://a.com" +:+ nl +:+ nl +:+ "First" +:+ divider
       +:+ "## http://b.com" +:+ nl +:+ nl +:+ "Second", 2).
Proof. vm_compute. reflexivity. Qed.

Example TestConsolidate_skip_errors_and_empty :
  consolidate [mkPage "http://a.com" "OK" None;
               mkPage "http://b.com" EmptyString (Some Examples.errDummy);
               mkPage "http://c.com" "  " None;
               mkPage "http://d.com" "Also OK" None]
  = ("## http://a.com" +:+ nl +:+ nl +:+ "OK" +:+ divider
       +:+ "## http://d.com" +:+ nl +:+ nl +:+ "Also OK", 2).
Proof. vm_compute. reflexivity. Qed.

(** engine_test.go, TestQueryHash. *)
Example TestQueryHash :
  queryHash "Golang concurrency" = queryHash "  golang concurrency  "
  /\ queryHash "Golang concurrency" = queryHash "GOLANG CONCURRENCY"
  /\ queryHash "Golang concurrency" <> queryHash "different query".
Proof.
  split; [|split]; vm_compute; [reflexivity | reflexivity | discriminate].
Qed.

(** cache_test.go, at any instant [now] at which the test runs. *)
Example TestSetAndGet (now : Z) :
  cache.Get now "abc123" (fst (cache.Set_ now "abc123" "hello, world" Examples.emptyStore))
  = ("hello, world", true, None).
Proof.
  apply Get_after_Set; [reflexivity|].
  unfold cache.cacheTTL, time.Hour, time.Second. lia.
Qed.

Example TestGetMiss (now : Z) :
  cache.Get now "nonexistent" Examples.emptyStore = (EmptyString, false, None).
Proof. reflexivity. Qed.

Example TestUpsert (now : Z) :
  cache.Get now "key1"
    (fst (cache.Set_ now "key1" "second"
            (fst (cache.Set_ now "key1" "first" Examples.emptyStore))))
  = ("second", true, None).
Proof.
  apply Get_after_Set; [reflexivity|].
  unfold cache.cacheTTL, time.Hour, time.Second. lia.
Qed.

Example TestClearOne (now : Z) :
  let c := fst (cache.Set_ now "b" "2" (fst (cache.Set_ now "a" "1" Examples.emptyStore))) in
  snd (cache.Clear "a" c) = None
  /\ snd (fst (cache.Get now "a" (fst (cache.Clear "a" c)))) = false
  /\ snd (fst (cache.Get now "b" (fst (cache.Clear "a" c)))) = true.
Proof.
  cbv zeta. split; [reflexivity|]. split; [reflexivity|].
  apply Get_hit_iff; [reflexivity|].
  exists (cache.Row "2" (cache.CURRENT_TIMESTAMP now)). split; [reflexivity|].
  apply stamp_age. unfold cache.cacheTTL, time.Hour, time.Second. lia.
Qed.

Example TestClearAll (now : Z) :
  let c := fst (cache.Set_ now "b" "2" (fst (cache.Set_ now "a" "1" Examples.emptyStore))) in
  snd (cache.Clear EmptyString c) = None
  /\ snd (fst (cache.Get now "a" (fst (cache.Clear EmptyString c)))) = false
  /\ snd (fst (cache.Get now "b" (fst (cache.Clear EmptyString c)))) = false.
Proof. cbv zeta. repeat split. Qed.

(** The end-to-end property of the specification: a first run fetches
    two pages and stores their document; an immediate second run, the
    servers being down, returns the same content from the cache and
    invokes neither discovery nor fetch. *)
Example end_to_end :
  let doc := "## u1" +:+ nl +:+ nl +:+ "Goroutines..." +:+ divider
             +:+ "## u2" +:+ nl +:+ nl +:+ "Table-driven tests..." in
  let first := Search Examples.config Examples.envTwoPages "golang concurrency" 5 false
                 Examples.emptyWorld in
  let second := Search Examples.config Examples.envAllFail "golang concurrency" 5 false
                  (world first) in
  res first = inr (mkSearchResult doc 2 false)
  /\ events first
     = [CacheRead (queryHash "golang concurrency");
        Discover "golang concurrency" 5 "google";
        Fetch ["u1"; "u2"];
        CacheWrite (queryHash "golang concurrency") doc]
  /\ res second = inr (mkSearchResult doc 2 true)
  /\ events second = [CacheRead (queryHash "golang concurrency")].
Proof. vm_compute. repeat split. Qed.

End RepositoryTests.

(** ** Further properties of the cache store *)

Section CacheMore.

Lemma Set_open (t : Z) (k v : string) (c : cache.Cache) :
  cache.closed c = false ->
  cache.Set_ t k v c
  = (cache.mkCache (<[k := cache.Row v (cache.CURRENT_TIMESTAMP t)]> (cache.rows c)) false,
     None).
Proof. intros Hc. unfold cache.Set_. now rewrite Hc. Qed.

Lemma Clear_open (k : string) (c : cache.Cache) :
  cache.closed c = false ->
  cache.Clear k c
  = (cache.mkCache (if String.eqb k EmptyString then ∅ else delete k (cache.rows c)) false,
     None).
Proof.
  intros Hc. unfold cache.Clear. rewrite Hc. now destruct (String.eqb k EmptyString).
Qed.

Lemma stamp_window (t t' : Z) :
  t' - cache.scanTime (cache.CURRENT_TIMESTAMP t) <= cache.cacheTTL
  <-> t' <= t / time.Second * time.Second + cache.cacheTTL.
Proof. unfold cache.scanTime, cache.CURRENT_TIMESTAMP. lia. Qed.

End CacheMore.

(** X1. On an open store Set never fails and touches the row of its key
    only: at every instant Get on any other key answers as before. *)
Theorem cache_set_frame (c : cache.Cache) (t now : Z) (k k' v : string) :
  cache.closed c = false ->
  k' <> k ->
  snd (cache.Set_ t k v c) = None
  /\ cache.closed (fst (cache.Set_ t k v c)) = false
  /\ cache.Get now k' (fst (cache.Set_ t k v c)) = cache.Get now k' c.
Proof.
  intros Hc Hk. rewrite Set_open by assumption. cbn [fst snd cache.closed].
  split; [reflexivity|]. split; [reflexivity|].
  rewrite !Get_open by (assumption || reflexivity). cbn [cache.rows].
  now rewrite lookup_insert_ne by congruence.
Qed.

Lemma cache_set_frame_witness :
  cache.Get 7 "b" (fst (cache.Set_ 7 "a" "1" Examples.emptyStore))
  = cache.Get 7 "b" Examples.emptyStore.
Proof.
  apply (cache_set_frame Examples.emptyStore 7 7 "a" "b" "1"); [reflexivity | discriminate].
Defined.

(** X2. Set is an upsert: a second Set on a key replaces content and time
    stamp, leaving the store as if only the second had happened, and Sets
    on two different keys commute. *)
Theorem cache_set_upsert (c : cache.Cache) (t1 t2 : Z) (k k' v1 v2 : string) :
  cache.closed c = false ->
  fst (cache.Set_ t2 k v2 (fst (cache.Set_ t1 k v1 c))) = fst (cache.Set_ t2 k v2 c)
  /\ (k <> k' ->
      fst (cache.Set_ t2 k' v2 (fst (cache.Set_ t1 k v1 c)))
      = fst (cache.Set_ t1 k v1 (fst (cache.Set_ t2 k' v2 c)))).
Proof.
  intros Hc. rewrite !(Set_open _ _ _ c) by assumption. cbn [fst].
  rewrite !Set_open by reflexivity. cbn [fst cache.rows]. split.
  - now rewrite insert_insert_eq.
  - intros Hk. now rewrite insert_insert_ne by congruence.
Qed.

Lemma cache_set_upsert_witness :
  fst (cache.Set_ 9 "key1" "second" (fst (cache.Set_ 3 "key1" "first" Examples.emptyStore)))
  = fst (cache.Set_ 9 "key1" "second" Examples.emptyStore).
Proof.
  apply (proj1 (cache_set_upsert Examples.emptyStore 3 9 "key1" "key1" "first" "second"
                  eq_refl)).
Defined.

(** X3. The window of a hit: on an open store, Get at the instant t' after
    Set(k, v) at the instant t hits, with content v, exactly when t' is at
    most the second of t plus 24 hours; the bound is included, and past it
    the entry stays stale. *)
Theorem cache_hit_window (c : cache.Cache) (t t' : Z) (k v : string) :
  cache.closed c = false ->
  (t' <= t / time.Second * time.Second + cache.cacheTTL ->
   cache.Get t' k (fst (cache.Set_ t k v c)) = (v, true, None))
  /\ (t / time.Second * time.Second + cache.cacheTTL < t' ->
      cache.Get t' k (fst (cache.Set_ t k v c)) = (EmptyString, false, None)).
Proof.
  intros Hc. rewrite Set_open by assumption. cbn [fst].
  rewrite Get_open by reflexivity. cbn [cache.rows].
  rewrite lookup_insert_eq. cbn [cache.updated_at cache.content].
  split; intros H.
  - apply stamp_window in H. now rewrite (proj2 (Since_fresh _ _) H).
  - assert (cache.cacheTTL < t' - cache.scanTime (cache.CURRENT_TIMESTAMP t)) as H'
      by (pose proof (stamp_window t t'); lia).
    now rewrite (proj2 (Since_stale _ _) H').
Qed.

Lemma cache_hit_window_witness :
  cache.Get (1500000000 + cache.cacheTTL) "k"
    (fst (cache.Set_ 1500000000 "k" "v" Examples.emptyStore))
  = (EmptyString, false, None)
  /\ cache.Get (1000000000 + cache.cacheTTL) "k"
       (fst (cache.Set_ 1500000000 "k" "v" Examples.emptyStore))
     = ("v", true, None).
Proof.
  split.
  - apply (proj2 (cache_hit_window Examples.emptyStore 1500000000
                    (1500000000 + cache.cacheTTL) "k" "v" eq_refl)).
    vm_compute. reflexivity.
  - apply (proj1 (cache_hit_window Examples.emptyStore 1500000000
                    (1000000000 + cache.cacheTTL) "k" "v" eq_refl)).
    vm_compute. discriminate.
Defined.

(** X4. The empty key: on an open store a row stored under the empty
    string is served like any other, but Clear with the empty string
    deletes every row of the table, whatever its key, so that row cannot be
    deleted alone. *)
Theorem cache_empty_key (c : cache.Cache) (now : Z) (v : string) :
  cache.closed c = false ->
  cache.Get now EmptyString (fst (cache.Set_ now EmptyString v c)) = (v, true, None)
  /\ cache.rows (fst (cache.Clear EmptyString (fst (cache.Set_ now EmptyString v c)))) = ∅
  /\ (forall k t,
        cache.Get t k (fst (cache.Clear EmptyString (fst (cache.Set_ now EmptyString v c))))
        = (EmptyString, false, None)).
Proof.
  intros Hc. split; [|split].
  - apply Get_after_Set; [assumption|].
    unfold cache.cacheTTL, time.Hour, time.Second. lia.
  - rewrite Set_open by assumption. cbn [fst]. now rewrite Clear_open by reflexivity.
  - intros k t. rewrite Set_open by assumption. cbn [fst].
    rewrite Clear_open by reflexivity. cbn [fst].
    rewrite Get_open by reflexivity. cbn [cache.rows].
    change (String.eqb EmptyString EmptyString) with true. cbv iota.
    now rewrite lookup_empty.
Qed.

Lemma cache_empty_key_witness :
  cache.Get 0 "a"
    (fst (cache.Clear EmptyString
            (fst (cache.Set_ 0 EmptyString "x"
                    (fst (cache.Set_ 0 "a" "1" Examples.emptyStore))))))
  = (EmptyString, false, None).
Proof.
  apply (proj2 (proj2 (cache_empty_key (fst (cache.Set_ 0 "a" "1" Examples.emptyStore))
                         0 "x" eq_refl))).
Defined.

(** ** Further properties of the orchestrator *)

Section SearchMore.

Variables (config : Config) (env : Env).

Lemma Scrape_length (net : Network) (urls : list string) :
  length (Scrape net urls) = length urls.
Proof.
  unfold Scrape. rewrite (ScrapeUnder_imap net urls _ (Permutation_refl _)).
  apply length_imap.
Qed.

Lemma survivors_length (pages : list ScrapedPage) :
  (length (survivors pages) <= length pages)%nat.
Proof. pose proof (partition_pages pages). unfold survivors. lia. Qed.

(** What a successful run through the pipeline did. *)
Lemma Run_success (hash query : string) (count : Z) (w : World) (o : Out SearchResult)
    (r : SearchResult) :
  Run config env hash query count w o ->
  res o = inr r ->
  exists results,
    searchSearch env query count (SearchEngine config) = inl results
    /\ results <> nil
    /\ survivors (Scrape (network env) (map search.URL results)) <> nil
    /\ cache.closed (store w) = false
    /\ r = mkSearchResult (document (Scrape (network env) (map search.URL results)))
                          (survivorCount (Scrape (network env) (map search.URL results)))
                          false
    /\ world o
       = mkWorld
           (cache.mkCache
              (<[hash := cache.Row (document (Scrape (network env) (map search.URL results)))
                           (cache.CURRENT_TIMESTAMP (storeTime config env w))]>
                 (cache.rows (store w)))
              false)
           (storeTime config env w)
    /\ events o
       = Discover query count (SearchEngine config)
           :: pause config
           ++ [Fetch (map search.URL results);
               CacheWrite hash (document (Scrape (network env) (map search.URL results)))].
Proof.
  intros [] [= <-]. eexists. repeat (split; [eassumption || reflexivity|]).
  cbn [world events]. split; [|reflexivity].
  now rewrite Set_open by assumption.
Qed.

(** A run through the pipeline keeps the store when it fails, and changes
    the row of its key only when it succeeds. *)
Lemma Run_frame (hash query : string) (count : Z) (w : World) (o : Out SearchResult) :
  Run config env hash query count w o ->
  cache.closed (store (world o)) = cache.closed (store w)
  /\ (forall k, k <> hash ->
                cache.rows (store (world o)) !! k = cache.rows (store w) !! k)
  /\ (forall e, res o = inl e -> store (world o) = store w).
Proof.
  intros HR. destruct HR; cbn [res world store]; try (repeat split; congruence).
  rewrite Set_open by assumption. cbn [fst cache.closed cache.rows].
  split; [congruence|]. split; [|intros e [=]].
  intros k Hk. now rewrite lookup_insert_ne by congruence.
Qed.

Lemma Run_order (hash query : string) (count : Z) (w : World) (o : Out SearchResult) :
  Run config env hash query count w o ->
  exists urls doc rest,
    Discover query count (SearchEngine config)
      :: pause config ++ [Fetch urls; CacheWrite hash doc]
    = events o ++ rest.
Proof.
  intros []; cbn [events].
  - exists nil, EmptyString. eexists. reflexivity.
  - exists nil, EmptyString. eexists. reflexivity.
  - exists (map search.URL results), EmptyString, [CacheWrite hash EmptyString].
    cbn [app]. f_equal. now rewrite <- app_assoc.
  - eexists _, _, nil. now rewrite app_nil_r.
  - eexists _, _, nil. now rewrite app_nil_r.
Qed.

Lemma Get_closed (now : Z) (k : string) (c : cache.Cache) :
  cache.closed c = true ->
  cache.Get now k c = (EmptyString, false, Some (CacheGetError k SqlClosed)).
Proof. intros H. unfold cache.Get. now rewrite H. Qed.

End SearchMore.

(** X5. A hit has no other effect than the cache read: when the store is
    open and holds a row for the key of the query that is not older than
    24 hours, Search without force returns the content of the row with
    FromCache = true, leaves the world as it was and invokes neither
    discovery nor fetch nor a cache write. *)
Theorem search_hit_is_pure (config : Config) (env : Env) (query : string) (count : Z)
    (w : World) (r : cache.row) :
  cache.closed (store w) = false ->
  cache.rows (store w) !! queryHash query = Some r ->
  clock w - cache.scanTime (cache.updated_at r) <= cache.cacheTTL ->
  Search config env query count false w
  = mkOut (inr (mkSearchResult (cache.content r) (countSections (cache.content r)) true))
          w [CacheRead (queryHash query)].
Proof.
  intros Hc Hr Hage. apply Search_hit.
  rewrite Get_open, Hr by assumption. now rewrite (proj2 (Since_fresh _ _) Hage).
Qed.

Lemma search_hit_is_pure_witness :
  Search Examples.config Examples.envAllFail "q" 5 false Examples.cachedWorld
  = mkOut (inr (mkSearchResult "cached" (countSections "cached") true))
          Examples.cachedWorld [CacheRead (queryHash "q")].
Proof.
  apply (search_hit_is_pure Examples.config Examples.envAllFail "q" 5 Examples.cachedWorld
           (cache.Row "cached" 0)).
  - reflexivity.
  - apply lookup_singleton_eq.
  - vm_compute. discriminate.
Defined.

(** X6. A run that returns a fresh result has stored it: the store then
    holds, under the key of the query, the returned content stamped with
    the second of the write, every other row being as before; the content
    is not empty and the count is at least 1 and at most the number of
    URLs fetched. *)
Theorem search_success_stores (config : Config) (env : Env) (query : string) (count : Z)
    (force : bool) (w : World) (r : SearchResult) :
  res (Search config env query count force w) = inr r ->
  FromCache r = false ->
  store (world (Search config env query count force w))
  = cache.mkCache
      (<[queryHash query :=
           cache.Row (Content r)
             (cache.CURRENT_TIMESTAMP (clock (world (Search config env query count force w))))]>
         (cache.rows (store w)))
      false
  /\ Content r <> EmptyString
  /\ exists urls,
       In (Fetch urls) (events (Search config env query count force w))
       /\ 1 <= ResultCount r <= Z.of_nat (length urls).
Proof.
  intros Hres Hfresh.
  assert (exists o,
            Run config env (queryHash query) query count w o
            /\ res o = inr r
            /\ world (Search config env query count force w) = world o
            /\ (forall ev, In ev (events o) ->
                           In ev (events (Search config env query count force w))))
    as (o & HR & Hro & Hw & Hev).
  { destruct (Search_SearchRun config env query count force w) as [o HR| |c|c o HG HR];
      cbn [res world events] in *.
    - eauto.
    - discriminate.
    - injection Hres as <-. discriminate.
    - exists o. repeat (split; [assumption || reflexivity|]). intros ev. now right. }
  rewrite Hw.
  destruct (Run_success _ _ _ _ _ _ _ _ HR Hro)
    as (results & Hs & Hne & Hsurv & Hc & -> & -> & Hevents).
  cbn [world store clock Content ResultCount]. split; [reflexivity|]. split.
  - now rewrite document_empty.
  - exists (map search.URL results). split.
    + apply Hev. rewrite Hevents. right. apply in_app_iff. right. now left.
    + unfold survivorCount.
      pose proof (survivors_length (Scrape (network env) (map search.URL results))) as Hl.
      rewrite Scrape_length in Hl.
      destruct (survivors (Scrape (network env) (map search.URL results)));
        [congruence|]. cbn [length] in *. lia.
Qed.

Lemma search_success_stores_witness :
  cache.rows
    (store (world (Search Examples.config Examples.envTwoPages "q" 5 true
                     Examples.emptyWorld))) !! queryHash "q"
  = Some (cache.Row
            (fst (consolidate [mkPage "u1" "Goroutines..." None;
                               mkPage "u2" "Table-driven tests..." None])) 0).
Proof.
  destruct (search_success_stores Examples.config Examples.envTwoPages "q" 5 true
              Examples.emptyWorld
              (mkSearchResult
                 (fst (consolidate [mkPage "u1" "Goroutines..." None;
                                    mkPage "u2" "Table-driven tests..." None])) 2 false))
    as (H & _).
  - vm_compute. reflexivity.
  - reflexivity.
  - rewrite H. cbn [cache.rows Content]. apply lookup_insert_eq.
Defined.

(** X7. An absent or stale entry makes Search without force the forced
    Search: on an open store whose row for the key is missing or older
    than 24 hours, both return the same result and leave the same world,
    the unforced one performing one cache read before the same effects. *)
Theorem search_miss_equals_forced (config : Config) (env : Env) (query : string)
    (count : Z) (w : World) :
  cache.closed (store w) = false ->
  (cache.rows (store w) !! queryHash query = None
   \/ exists r, cache.rows (store w) !! queryHash query = Some r
                /\ cache.cacheTTL < clock w - cache.scanTime (cache.updated_at r)) ->
  res (Search config env query count false w) = res (Search config env query count true w)
  /\ world (Search config env query count false w)
     = world (Search config env query count true w)
  /\ events (Search config env query count false w)
     = CacheRead (queryHash query) :: events (Search config env query count true w).
Proof.
  intros Hc Hmiss.
  assert (cache.Get (clock w) (queryHash query) (store w) = (EmptyString, false, None)) as HG.
  { rewrite Get_open by assumption. destruct Hmiss as [->|(r & -> & Hage)]; [reflexivity|].
    now rewrite (proj2 (Since_stale _ _) Hage). }
  rewrite (Search_miss _ _ _ _ _ _ HG), Search_forced. repeat split.
Qed.

Lemma search_miss_equals_forced_witness :
  res (Search Examples.config Examples.envTwoPages "q" 5 false Examples.emptyWorld)
  = res (Search Examples.config Examples.envTwoPages "q" 5 true Examples.emptyWorld).
Proof.
  apply (search_miss_equals_forced Examples.config Examples.envTwoPages "q" 5
           Examples.emptyWorld eq_refl).
  left. apply lookup_empty.
Defined.

(** X8. Storage errors are surfaced, never bypassed. On a closed store
    Search without force fails on the cache read before any discovery;
    forced Search never succeeds, and when its fetch leaves a survivor it
    fails on the cache write after having discovered and fetched;
    ClearCache fails; and none of them changes the store. *)
Theorem search_closed_store (config : Config) (env : Env) (query : string) (count : Z)
    (w : World) :
  cache.closed (store w) = true ->
  Search config env query count false w
  = mkOut (inl (EngineCacheGet (CacheGetError (queryHash query) SqlClosed))) w
          [CacheRead (queryHash query)]
  /\ (forall r, res (Search config env query count true w) <> inr r)
  /\ store (world (Search config env query count true w)) = store w
  /\ (forall results,
        searchSearch env query count (SearchEngine config) = inl results ->
        survivors (Scrape (network env) (map search.URL results)) <> nil ->
        res (Search config env query count true w)
        = inl (EngineCacheSet (CacheSetError (queryHash query) SqlClosed))
        /\ In (Fetch (map search.URL results))
              (events (Search config env query count true w)))
  /\ (forall q,
        res (ClearCache q w) = inl (EngineClearCache (CacheClearError SqlClosed))
        /\ world (ClearCache q w) = w).
Proof.
  intros Hc. split; [|split; [|split; [|split]]].
  - apply (Search_get_error _ _ _ _ _ EmptyString false). now apply Get_closed.
  - intros r Hres. rewrite Search_forced in Hres.
    destruct (Run_success _ _ _ _ _ _ _ _ (pipeline_Run config env _ query count w) Hres)
      as (_ & _ & _ & _ & Hopen & _). congruence.
  - rewrite Search_forced.
    pose proof (pipeline_Run config env (queryHash query) query count w) as HR.
    destruct (res (pipeline config env (queryHash query) query count w)) as [e|r] eqn:E.
    + now apply (Run_failure_keeps_store _ _ _ _ _ _ _ _ HR E).
    + destruct (Run_success _ _ _ _ _ _ _ _ HR E) as (_ & _ & _ & _ & Hopen & _).
      congruence.
  - intros results Hs Hsurv. rewrite Search_forced.
    pose proof (pipeline_Run config env (queryHash query) query count w) as HR.
    assert (results <> nil) as Hnil by (intros ->; now apply Hsurv).
    destruct HR as [e He|He|rs He Hne Hs0|rs He Hne Hs0 Hcl|rs He Hne Hs0 Hcl];
      try congruence.
    assert (rs = results) as -> by congruence.
    cbn [res events]. split; [reflexivity|].
    right. apply in_app_iff. right. now left.
  - intros q. unfold ClearCache, wrap, cacheClear, cache.Clear. rewrite Hc.
    cbn [res world]. split; [reflexivity|]. now destruct w.
Qed.

Lemma search_closed_store_witness :
  res (Search Examples.config Examples.envTwoPages "q" 5 true
         (mkWorld (fst (cache.Close Examples.emptyStore)) 0))
  = inl (EngineCacheSet (CacheSetError (queryHash "q") SqlClosed)).
Proof.
  apply (proj1 (proj2 (proj2 (proj2
           (search_closed_store Examples.config Examples.envTwoPages "q" 5
              (mkWorld (fst (cache.Close Examples.emptyStore)) 0) eq_refl))))
           [search.mkResult "u1" "first"; search.mkResult "u2" "second"]).
  - reflexivity.
  - vm_compute. discriminate.
Defined.

(** X9. The order of effects. The effects of any call of Search are an
    initial segment of: the cache read (unless forced), discovery, the
    rate-limit wait, the fetch, the cache write. The wait is a single
    sleep of the configured delay and is absent when that delay is zero
    or negative. *)
Theorem search_effects_in_order (config : Config) (env : Env) (query : string)
    (count : Z) (force : bool) (w : World) :
  exists urls doc rest,
    (if force then [] else [CacheRead (queryHash query)])
      ++ Discover query count (SearchEngine config)
      :: (if 0 <? RateLimit config then [Sleep (RateLimit config)] else [])
      ++ [Fetch urls; CacheWrite (queryHash query) doc]
    = events (Search config env query count force w) ++ rest.
Proof.
  change (if 0 <? RateLimit config then [Sleep (RateLimit config)] else [])
    with (pause config).
  destruct (Search_SearchRun config env query count force w) as [o HR| | |c o HG HR];
    cbn [events app].
  - apply (Run_order _ _ _ _ _ _ _ HR).
  - exists nil, EmptyString. eexists. reflexivity.
  - exists nil, EmptyString. eexists. reflexivity.
  - destruct (Run_order _ _ _ _ _ _ _ HR) as (urls & doc & rest & E).
    exists urls, doc, rest. now rewrite E.
Qed.

(** X10. Variants of a query share one entry: after a run for q1 that
    returned a fresh result, Search without force for any q2 that differs
    from q1 only in surrounding white space or in letters that are
    lower-case forms of each other, within 24 hours less one second, is a
    hit that returns the same content. *)
Theorem search_variants_share_entry (config : Config) (env : Env) (q1 q2 : string)
    (count : Z) (force : bool) (w : World) (r : SearchResult)
    (config' : Config) (env' : Env) (count' t' : Z) :
  res (Search config env q1 count force w) = inr r ->
  FromCache r = false ->
  sameQuery q1 q2 ->
  t' - clock (world (Search config env q1 count force w))
  <= cache.cacheTTL - time.Second ->
  Search config' env' q2 count' false
    (mkWorld (store (world (Search config env q1 count force w))) t')
  = mkOut (inr (mkSearchResult (Content r) (countSections (Content r)) true))
          (mkWorld (store (world (Search config env q1 count force w))) t')
          [CacheRead (queryHash q1)].
Proof.
  intros Hres Hfresh Hsame Ht.
  assert (queryHash q2 = queryHash q1) as Hkey
    by (unfold queryHash; now rewrite (normalize_sameQuery q1 q2 Hsame)).
  assert (exists o,
            Run config env (queryHash q1) q1 count w o
            /\ res o = inr r
            /\ world (Search config env q1 count force w) = world o)
    as (o & HR & Hro & Hw).
  { destruct (Search_SearchRun config env q1 count force w) as [o HR| |c|c o HG HR];
      cbn [res world events] in *.
    - eauto.
    - discriminate.
    - injection Hres as <-. discriminate.
    - eauto. }
  rewrite Hw in *.
  destruct (Run_stored _ _ _ _ _ _ _ _ HR Hro) as (urls & _ & -> & Hget).
  rewrite <- Hkey. apply Search_hit. rewrite Hkey. cbn [store clock Content].
  now apply Hget.
Qed.

Lemma search_variants_share_entry_witness :
  res (Search Examples.config Examples.envAllFail "  Q " 5 false
         (mkWorld (store (world (Search Examples.config Examples.envTwoPages "q" 5 false
                                   Examples.emptyWorld))) 60))
  = inr (mkSearchResult
           (fst (consolidate [mkPage "u1" "Goroutines..." None;
                              mkPage "u2" "Table-driven tests..." None]))
           2 true).
Proof.
  rewrite (search_variants_share_entry Examples.config Examples.envTwoPages "q" "  Q " 5
             false Examples.emptyWorld
             (mkSearchResult
                (fst (consolidate [mkPage "u1" "Goroutines..." None;
                                   mkPage "u2" "Table-driven tests..." None])) 2 false)
             Examples.config Examples.envAllFail 5 60).
  - vm_compute. reflexivity.
  - vm_compute. reflexivity.
  - reflexivity.
  - exists EmptyString, "q", EmptyString, "  ", "Q", " ".
    split; [reflexivity|]. split; [reflexivity|].
    split; [constructor|]. split; [constructor|].
    split; [|split].
    + apply (whiteSpace_rune " " " "); [reflexivity|].
      apply (whiteSpace_rune " " EmptyString); [reflexivity | constructor].
    + apply (whiteSpace_rune " " EmptyString); [reflexivity | constructor].
    + case_variant.
  - vm_compute. discriminate.
Defined.

(** X11. Eviction is seen by the next search: on an open store, after
    ClearCache(q) with q not empty, Search without force for q or for any
    variant of q in surrounding white space or in letters that are
    lower-case forms of each other is not a hit: it reads the cache and
    goes on to discovery; after ClearCache("") this holds for every
    query. *)
Theorem clear_then_search_misses (config : Config) (env : Env) (q q' : string)
    (count t : Z) (w : World) :
  cache.closed (store w) = false ->
  (q = EmptyString \/ sameQuery q q') ->
  (forall r,
     res (Search config env q' count false (mkWorld (store (world (ClearCache q w))) t))
     = inr r ->
     FromCache r = false)
  /\ exists rest,
       events (Search config env q' count false
                 (mkWorld (store (world (ClearCache q w))) t))
       = CacheRead (queryHash q') :: Discover q' count (SearchEngine config) :: rest.
Proof.
  intros Hc Hq.
  assert (cache.Get t (queryHash q') (store (world (ClearCache q w)))
          = (EmptyString, false, None)) as HG.
  { rewrite ClearCache_open by assumption. cbn [world store].
    rewrite Get_open by reflexivity. cbn [cache.rows].
    destruct (String.eqb q EmptyString) eqn:E.
    - now rewrite lookup_empty.
    - apply String.eqb_neq in E. destruct Hq as [Hq|Hq]; [contradiction|].
      assert (queryHash q' = queryHash q) as ->
        by (unfold queryHash; now rewrite (normalize_sameQuery q q' Hq)).
      now rewrite lookup_delete_eq. }
  rewrite (Search_miss config env q' count
             (mkWorld (store (world (ClearCache q w))) t) EmptyString HG).
  cbn [res events].
  pose proof (pipeline_Run config env (queryHash q') q' count
                (mkWorld (store (world (ClearCache q w))) t)) as HR.
  split.
  - intros r. now apply (Run_fresh_result _ _ _ _ _ _ _ _ HR).
  - destruct (Run_starts _ _ _ _ _ _ _ HR) as (rest & ->). eauto.
Qed.

Lemma clear_then_search_misses_witness :
  exists rest,
    events (Search Examples.config Examples.envEmpty "Q" 5 false
              (mkWorld (store (world (ClearCache "q" Examples.cachedWorld))) 0))
    = CacheRead (queryHash "Q") :: Discover "Q" 5 "google" :: rest.
Proof.
  apply (clear_then_search_misses Examples.config Examples.envEmpty "q" "Q" 5 0
           Examples.cachedWorld eq_refl).
  right. exists EmptyString, "q", EmptyString, EmptyString, "Q", EmptyString.
  split; [reflexivity|]. split; [reflexivity|].
  repeat (split; [constructor|]).
  case_variant.
Defined.

(** X12. What Search may change in the store: never whether it is open,
    never a row under another key than that of the query; nothing at all
    when it fails or when it answers from the cache. *)
Theorem search_store_frame (config : Config) (env : Env) (query : string) (count : Z)
    (force : bool) (w : World) :
  cache.closed (store (world (Search config env query count force w)))
  = cache.closed (store w)
  /\ (forall k,
        k <> queryHash query ->
        cache.rows (store (world (Search config env query count force w))) !! k
        = cache.rows (store w) !! k)
  /\ (forall e,
        res (Search config env query count force w) = inl e ->
        store (world (Search config env query count force w)) = store w)
  /\ (forall r,
        res (Search config env query count force w) = inr r ->
        FromCache r = true ->
        world (Search config env query count force w) = w).
Proof.
  destruct (Search_SearchRun config env query count force w) as [o HR| | |c o HG HR];
    cbn [res world]; try (repeat split; congruence).
  - destruct (Run_frame _ _ _ _ _ _ _ HR) as (H1 & H2 & H3).
    repeat split; try assumption.
    intros r Hr Hc. now rewrite (Run_fresh_result _ _ _ _ _ _ _ _ HR Hr) in Hc.
  - destruct (Run_frame _ _ _ _ _ _ _ HR) as (H1 & H2 & H3).
    repeat split; try assumption.
    intros r Hr Hc. now rewrite (Run_fresh_result _ _ _ _ _ _ _ _ HR Hr) in Hc.
Qed.

(** X13. The two results of consolidate agree: the document is empty
    exactly when the count is 0, which is exactly when every page carries
    an error or white-space-only text; the count is never negative nor
    above the number of pages. Testing the document for emptiness, as
    Search does, is testing the count. *)
Theorem consolidate_empty_iff_zero (pages : list ScrapedPage) :
  (fst (consolidate pages) = EmptyString <-> snd (consolidate pages) = 0)
  /\ (snd (consolidate pages) = 0
      <-> forall p, In p pages ->
                    Err p <> None
                    \/ strings.TrimSpace (scraper.Content p) = EmptyString)
  /\ 0 <= snd (consolidate pages) <= Z.of_nat (length pages).
Proof.
  rewrite consolidate_document. cbn [fst snd]. unfold survivorCount.
  pose proof (survivors_length pages) as Hl.
  split; [|split].
  - rewrite document_empty. destruct (survivors pages); cbn [length]; split;
      intros H; (reflexivity || discriminate || lia).
  - rewrite <- survivors_nil. destruct (survivors pages); cbn [length]; split;
      intros H; (reflexivity || discriminate || lia).
  - lia.
Qed.

(** ** The surfaces: HTTP API and MCP tools *)

Section Surfaces.

Lemma Run_discover (config : Config) (env : Env) (hash query : string) (count : Z)
    (w : World) (o : Out SearchResult) (q' : string) (c : Z) (e : string) :
  Run config env hash query count w o ->
  In (Discover q' c e) (events o) ->
  q' = query /\ c = count /\ e = SearchEngine config.
Proof.
  intros [] [Hin|Hin]; cbn [events] in *; try (injection Hin as <- <- <-; auto);
    try contradiction.
  all: apply in_app_iff in Hin as [Hin|Hin]; [apply In_pause in Hin; discriminate|].
  all: cbn in Hin; intuition discriminate.
Qed.

Lemma Search_discover (config : Config) (env : Env) (query : string) (count : Z)
    (force : bool) (w : World) (q' : string) (c : Z) (e : string) :
  In (Discover q' c e) (events (Search config env query count force w)) ->
  q' = query /\ c = count /\ e = SearchEngine config.
Proof.
  destruct (Search_SearchRun config env query count force w) as [o HR| | |x o HG HR];
    cbn [events]; intros Hin.
  - now apply (Run_discover _ _ _ _ _ _ _ _ _ _ HR).
  - destruct Hin as [Hin|[]]. discriminate.
  - destruct Hin as [Hin|[]]. discriminate.
  - destruct Hin as [Hin|Hin]; [discriminate|].
    now apply (Run_discover _ _ _ _ _ _ _ _ _ _ HR).
Qed.

Lemma Search_failure_keeps_store (config : Config) (env : Env) (query : string)
    (count : Z) (force : bool) (w : World) (e : error) :
  res (Search config env query count force w) = inl e ->
  store (world (Search config env query count force w)) = store w.
Proof.
  destruct (Search_SearchRun config env query count force w) as [o HR| | |x o HG HR];
    cbn [res world]; intros Hres; try reflexivity.
  - now apply (Run_failure_keeps_store _ _ _ _ _ _ _ _ HR Hres).
  - now apply (Run_failure_keeps_store _ _ _ _ _ _ _ _ HR Hres).
Qed.

Lemma Search_forced_no_read (config : Config) (env : Env) (query : string) (count : Z)
    (w : World) (k : string) :
  ~ In (CacheRead k) (events (Search config env query count true w)).
Proof.
  rewrite Search_forced. apply (Run_no_read _ _ _ _ _ _ _ (pipeline_Run _ _ _ _ _ _)).
Qed.

Lemma Search_unforced_reads (config : Config) (env : Env) (query : string) (count : Z)
    (w : World) :
  hd_error (events (Search config env query count false w))
  = Some (CacheRead (queryHash query)).
Proof.
  destruct (cache.Get (clock w) (queryHash query) (store w)) as [[content hit] [e|]] eqn:HG.
  - now rewrite (Search_get_error _ _ _ _ _ _ _ _ HG).
  - destruct hit.
    + now rewrite (Search_hit _ _ _ _ _ _ HG).
    + now rewrite (Search_miss _ _ _ _ _ _ HG).
Qed.

(** *** Decimal numbers *)

Lemma digit_byte (d : Z) :
  0 <= d <= 9 -> strings.byteVal (strings.byteOf (48 + d)) - 48 = d.
Proof. intros H. rewrite byteVal_byteOf by lia. lia. Qed.

Lemma digits_cons_digit (d : Z) (s : string) (acc : Z) :
  0 <= d <= 9 ->
  strconv.digits (String (strings.byteOf (48 + d)) s) acc
  = strconv.digits s (acc * 10 + d).
Proof.
  intros H. cbn [strconv.digits]. cbv zeta. rewrite digit_byte by assumption.
  now rewrite (proj2 (Z.leb_le 0 d)), (proj2 (Z.leb_le d 9)) by lia.
Qed.

Lemma digits_digitsOf (fuel : nat) (n : Z) (rest : string) :
  0 <= n < 10 ^ Z.of_nat fuel ->
  strconv.digits (strconv.digitsOf fuel n rest) 0 = strconv.digits rest n.
Proof.
  revert n rest. induction fuel as [|fuel IH]; intros n rest Hn.
  - cbn [strconv.digitsOf]. replace n with 0 by (cbn in Hn; lia). reflexivity.
  - cbn [strconv.digitsOf]. cbv zeta.
    pose proof (Z.mod_pos_bound n 10 ltac:(lia)) as Hm.
    pose proof (Z.div_mod n 10 ltac:(lia)) as Hd.
    destruct (n <? 10) eqn:E.
    + apply Z.ltb_lt in E. rewrite digits_cons_digit by lia.
      f_equal. rewrite Z.mod_small by lia. lia.
    + apply Z.ltb_ge in E. rewrite IH.
      * rewrite digits_cons_digit by lia. f_equal. lia.
      * rewrite Nat2Z.inj_succ, Z.pow_succ_r in Hn by lia.
        split; [apply Z.div_pos; lia | apply Z.div_lt_upper_bound; lia].
Qed.

Lemma digitsOf_head (fuel : nat) (n : Z) (rest : string) :
  exists d s,
    strconv.digitsOf (S fuel) n rest = String (strings.byteOf (48 + d)) s /\ 0 <= d <= 9.
Proof.
  revert n rest. induction fuel as [|fuel IH]; intros n rest.
  - exists (n mod 10), rest. cbn [strconv.digitsOf]. cbv zeta.
    pose proof (Z.mod_pos_bound n 10 ltac:(lia)).
    split; [now destruct (n <? 10) | lia].
  - change (strconv.digitsOf (S (S fuel)) n rest)
      with (let rest' := String (strings.byteOf (48 + n mod 10)) rest in
            if n <? 10 then rest' else strconv.digitsOf (S fuel) (n / 10) rest').
    cbv zeta. destruct (n <? 10).
    + exists (n mod 10), rest. pose proof (Z.mod_pos_bound n 10 ltac:(lia)).
      split; [reflexivity | lia].
    + apply IH.
Qed.

Lemma digit_not_sign (d : Z) (c : ascii) :
  0 <= d <= 9 -> strings.byteVal c < 48 -> Ascii.eqb (strings.byteOf (48 + d)) c = false.
Proof.
  intros Hd Hc. apply Ascii.eqb_neq. intros E.
  rewrite <- E, byteVal_byteOf in Hc by lia. lia.
Qed.

Lemma Atoi_FormatInt (n : Z) :
  strconv.minInt <= n <= strconv.maxInt -> strconv.Atoi (strconv.FormatInt n) = Some n.
Proof.
  unfold strconv.minInt, strconv.maxInt. intros Hn.
  unfold strconv.FormatInt. destruct (n <? 0) eqn:E.
  - apply Z.ltb_lt in E.
    destruct (digitsOf_head 19 (- n) EmptyString) as (d & s & Hs & Hd).
    unfold strconv.Atoi. change (Ascii.eqb "-" "-") with true. cbv zeta. cbn [orb].
    pose proof (digits_digitsOf 20 (- n) EmptyString) as Hdig.
    rewrite Hs in *. rewrite Hdig by lia. cbn [strconv.digits].
    rewrite Z.opp_involutive. unfold strconv.minInt, strconv.maxInt.
    now rewrite (proj2 (Z.leb_le _ n)), (proj2 (Z.leb_le n _)) by lia.
  - apply Z.ltb_ge in E.
    destruct (digitsOf_head 19 n EmptyString) as (d & s & Hs & Hd).
    pose proof (digits_digitsOf 20 n EmptyString) as Hdig.
    rewrite Hs in *. unfold strconv.Atoi. cbv zeta.
    rewrite (digit_not_sign d "-" Hd), (digit_not_sign d "+" Hd) by (vm_compute; reflexivity).
    cbn [orb]. rewrite Hdig by lia. cbn [strconv.digits].
    unfold strconv.minInt, strconv.maxInt.
    now rewrite (proj2 (Z.leb_le _ n)), (proj2 (Z.leb_le n _)) by lia.
Qed.

End Surfaces.

(** X14. The search handler of the HTTP API validates before it calls the
    engine: for a method other than GET it replies 405, for a GET
    without the parameter q it replies 400, and in both cases it performs
    no effect and leaves the world as it was. *)
Theorem api_search_validates (config : Config) (env : Env) (r : api.Request) (w : World) :
  api.Method r <> "GET" \/ api.q r = EmptyString ->
  api.effects (api.searchHandler config env r w) = nil
  /\ api.after (api.searchHandler config env r w) = w
  /\ api.code (api.searchHandler config env r w)
     = (if String.eqb (api.Method r) "GET" then 400 else 405)
  /\ exists m,
       api.body (api.searchHandler config env r w) = api.failureBody (api.Text m)
       /\ m <> EmptyString.
Proof.
  intros H. unfold api.searchHandler.
  destruct (String.eqb (api.Method r) "GET") eqn:EM; cbn [negb].
  - destruct H as [H|H]; [now apply String.eqb_eq in EM|].
    rewrite H. change (String.eqb EmptyString EmptyString) with true. cbv iota.
    cbn [api.effects api.after api.code api.body]. repeat split.
    eexists. split; [reflexivity | discriminate].
  - cbn [api.effects api.after api.code api.body]. repeat split.
    eexists. split; [reflexivity | discriminate].
Qed.

Lemma api_search_validates_witness :
  api.code (api.searchHandler Examples.config Examples.envTwoPages
              (api.mkRequest "POST" "test" EmptyString EmptyString) Examples.emptyWorld)
  = 405.
Proof.
  apply (api_search_validates Examples.config Examples.envTwoPages
           (api.mkRequest "POST" "test" EmptyString EmptyString) Examples.emptyWorld).
  left. discriminate.
Defined.

(** X15. The count the search handler passes on is always positive: every
    discovery it triggers is for the query q with a count of at least 1
    and at most the largest int; the count is 5 unless the parameter count
    is a decimal number that Atoi reads as a positive int, and a positive
    int n written in decimal is passed on as n. *)
Theorem api_search_count_positive (config : Config) (env : Env) (r : api.Request)
    (w : World) (q' : string) (c : Z) (e : string) :
  In (Discover q' c e) (api.effects (api.searchHandler config env r w)) ->
  q' = api.q r
  /\ 1 <= c <= strconv.maxInt
  /\ (c <> 5 -> strconv.Atoi (api.count r) = Some c)
  /\ (forall n, 1 <= n <= strconv.maxInt -> api.count r = strconv.FormatInt n -> c = n).
Proof.
  unfold api.searchHandler.
  destruct (negb (String.eqb (api.Method r) "GET")); [intros []|].
  destruct (String.eqb (api.q r) EmptyString); [intros []|].
  cbv zeta.
  set (count := if String.eqb (api.count r) EmptyString then 5
                else match strconv.Atoi (api.count r) with
                     | Some n => if 0 <? n then n else 5
                     | None => 5
                     end).
  set (force := String.eqb (api.force r) "true" || String.eqb (api.force r) "1").
  intros Hin.
  assert (In (Discover q' c e) (events (Search config env (api.q r) count force w))) as Hin'
    by (destruct (res (Search config env (api.q r) count force w)); exact Hin).
  apply Search_discover in Hin' as (-> & -> & ->).
  split; [reflexivity|].
  assert (forall s n, strconv.Atoi s = Some n -> n <= strconv.maxInt) as Hmax.
  { intros s n. unfold strconv.Atoi. destruct s as [|a s]; [discriminate|]. cbv zeta.
    destruct (if Ascii.eqb a "-" || Ascii.eqb a "+" then s else String a s);
      [discriminate|].
    destruct (strconv.digits _ 0) as [m|]; [|discriminate].
    destruct ((strconv.minInt <=? _) && _) eqn:E; [|discriminate].
    intros [= <-]. apply andb_true_iff in E as [_ E]. now apply Z.leb_le in E. }
  unfold count. destruct (String.eqb (api.count r) EmptyString) eqn:Ec.
  - apply String.eqb_eq in Ec. split; [vm_compute; split; discriminate|].
    split; [congruence|]. intros n Hn E. rewrite Ec in E.
    pose proof (Atoi_FormatInt n ltac:(unfold strconv.minInt, strconv.maxInt in *; lia)) as HA.
    rewrite <- E in HA. discriminate.
  - destruct (strconv.Atoi (api.count r)) as [n|] eqn:EA.
    + destruct (0 <? n) eqn:En.
      * apply Z.ltb_lt in En. pose proof (Hmax _ _ EA). split; [lia|].
        split; [reflexivity|]. intros m Hm E.
        pose proof (Atoi_FormatInt m ltac:(unfold strconv.minInt, strconv.maxInt in *; lia)).
        congruence.
      * apply Z.ltb_ge in En. split; [vm_compute; split; discriminate|].
        split; [congruence|]. intros m Hm E.
        pose proof (Atoi_FormatInt m ltac:(unfold strconv.minInt, strconv.maxInt in *; lia)).
        assert (m = n) by congruence. lia.
    + split; [vm_compute; split; discriminate|]. split; [congruence|]. intros m Hm E.
      pose proof (Atoi_FormatInt m ltac:(unfold strconv.minInt, strconv.maxInt in *; lia)).
      congruence.
Qed.

Lemma api_search_count_positive_witness :
  "q" = "q" /\ 1 <= 5 <= strconv.maxInt
  /\ (5 <> 5 -> strconv.Atoi "-3" = Some 5)
  /\ (forall n, 1 <= n <= strconv.maxInt -> "-3" = strconv.FormatInt n -> 5 = n).
Proof.
  apply (api_search_count_positive Examples.config Examples.envEmpty
           (api.mkRequest "GET" "q" "-3" "1") Examples.emptyWorld "q" 5 "google").
  vm_compute. left. reflexivity.
Defined.

(** X16. The status of a search reply tells what happened to the store:
    the status is one of 200, 400, 405 and 500; it is 200 exactly when the
    reply carries no error message; and after any other status the store is
    exactly what it was before the request. *)
Theorem api_search_status (config : Config) (env : Env) (r : api.Request) (w : World) :
  In (api.code (api.searchHandler config env r w)) [200; 400; 405; 500]
  /\ (api.code (api.searchHandler config env r w) = 200
      <-> api.Error (api.body (api.searchHandler config env r w)) = api.Text EmptyString)
  /\ (api.code (api.searchHandler config env r w) <> 200 ->
      store (api.after (api.searchHandler config env r w)) = store w
      /\ api.Content (api.body (api.searchHandler config env r w)) = EmptyString).
Proof.
  unfold api.searchHandler.
  destruct (negb (String.eqb (api.Method r) "GET")).
  { cbn. repeat split; try (intros; discriminate); tauto. }
  destruct (String.eqb (api.q r) EmptyString).
  { cbn. repeat split; try (intros; discriminate); tauto. }
  cbv zeta.
  set (count := if String.eqb (api.count r) EmptyString then 5
                else match strconv.Atoi (api.count r) with
                     | Some n => if 0 <? n then n else 5
                     | None => 5
                     end).
  set (force := String.eqb (api.force r) "true" || String.eqb (api.force r) "1").
  destruct (res (Search config env (api.q r) count force w)) as [e|result] eqn:E.
  - cbn [api.code api.body api.after api.Error api.Content api.failureBody].
    split; [cbn; tauto|]. split; [split; discriminate|].
    intros _. split; [|reflexivity]. now apply (Search_failure_keeps_store _ _ _ _ _ _ e).
  - cbn [api.code api.body api.after api.Error api.Content].
    split; [cbn; tauto|]. split; [split; reflexivity|]. intros H. now contradiction H.
Qed.

(** X17. The parameter force of the search handler: on a GET with a
    query, the values "true" and "1" (and no other spelling) make the
    search a forced one, which reads no cache; with any other value the
    first effect is the cache read under the key of the query. *)
Theorem api_search_force (config : Config) (env : Env) (r : api.Request) (w : World) :
  api.Method r = "GET" ->
  api.q r <> EmptyString ->
  (api.force r = "true" \/ api.force r = "1" ->
   forall k, ~ In (CacheRead k) (api.effects (api.searchHandler config env r w)))
  /\ (api.force r <> "true" -> api.force r <> "1" ->
      hd_error (api.effects (api.searchHandler config env r w))
      = Some (CacheRead (queryHash (api.q r)))).
Proof.
  intros HM Hq. unfold api.searchHandler.
  rewrite HM. change (String.eqb "GET" "GET") with true. cbn [negb].
  apply String.eqb_neq in Hq. rewrite Hq. cbv zeta.
  set (count := if String.eqb (api.count r) EmptyString then 5
                else match strconv.Atoi (api.count r) with
                     | Some n => if 0 <? n then n else 5
                     | None => 5
                     end).
  split.
  - intros Hf k.
    replace (String.eqb (api.force r) "true" || String.eqb (api.force r) "1") with true
      by (destruct Hf as [-> | ->]; reflexivity).
    pose proof (Search_forced_no_read config env (api.q r) count w k) as Hno.
    now destruct (res (Search config env (api.q r) count true w)).
  - intros H1 H2. apply String.eqb_neq in H1, H2. rewrite H1, H2. cbn [orb].
    pose proof (Search_unforced_reads config env (api.q r) count w) as Hrd.
    now destruct (res (Search config env (api.q r) count false w)).
Qed.

Lemma api_search_force_witness :
  hd_error (api.effects (api.searchHandler Examples.config Examples.envEmpty
                           (api.mkRequest "GET" "q" EmptyString "TRUE")
                           Examples.emptyWorld))
  = Some (CacheRead (queryHash "q")).
Proof.
  apply (proj2 (api_search_force Examples.config Examples.envEmpty
                  (api.mkRequest "GET" "q" EmptyString "TRUE") Examples.emptyWorld
                  eq_refl ltac:(discriminate))); discriminate.
Defined.

(** X18. The cache handler of the HTTP API: for a method other than
    DELETE it replies 405 and touches nothing; a DELETE on an open store
    replies 200 with status "ok", empties the store when q is absent and
    otherwise deletes the row under the key of q and no other; on a closed
    store it replies 500 and the store is unchanged. *)
Theorem api_cache_handler (r : api.Request) (w : World) :
  (api.Method r <> "DELETE" ->
   api.cacheHandler r w
   = api.mkReply 405 (api.failureBody (api.Text "method not allowed")) w nil)
  /\ (api.Method r = "DELETE" ->
      cache.closed (store w) = false ->
      api.code (api.cacheHandler r w) = 200
      /\ api.body (api.cacheHandler r w) = api.okBody
      /\ cache.rows (store (api.after (api.cacheHandler r w)))
         = if String.eqb (api.q r) EmptyString then ∅
           else delete (queryHash (api.q r)) (cache.rows (store w)))
  /\ (api.Method r = "DELETE" ->
      cache.closed (store w) = true ->
      api.code (api.cacheHandler r w) = 500 /\ api.after (api.cacheHandler r w) = w).
Proof.
  unfold api.cacheHandler. split; [|split].
  - intros H. apply String.eqb_neq in H. now rewrite H.
  - intros H Hc. rewrite H. change (String.eqb "DELETE" "DELETE") with true.
    cbn [negb]. cbv zeta. rewrite ClearCache_open by assumption.
    cbn [res world api.code api.body api.after store cache.rows]. repeat split.
  - intros H Hc. rewrite H. change (String.eqb "DELETE" "DELETE") with true.
    cbn [negb]. cbv zeta.
    unfold ClearCache, wrap, cacheClear, cache.Clear. rewrite Hc.
    cbn [res world api.code api.after]. split; [reflexivity|]. now destruct w.
Qed.

Lemma api_cache_handler_witness :
  api.cacheHandler (api.mkRequest "GET" EmptyString EmptyString EmptyString)
    Examples.cachedWorld
  = api.mkReply 405 (api.failureBody (api.Text "method not allowed"))
      Examples.cachedWorld nil.
Proof.
  apply (proj1 (api_cache_handler (api.mkRequest "GET" EmptyString EmptyString EmptyString)
                  Examples.cachedWorld)).
  discriminate.
Defined.

(** X19. The tool web_search: it calls the engine for every input, the
    empty query included, with the count of the input when that is
    positive and 5 otherwise; its result is an error result exactly when
    the engine fails, and then the store is unchanged. *)
Theorem mcp_web_search (config : Config) (env : Env) (input : mcp.webSearchInput)
    (w : World) :
  mcp.effects (mcp.webSearch config env input w)
  = events (Search config env (mcp.Query input)
              (if 0 <? mcp.Count input then mcp.Count input else 5)
              (mcp.Force input) w)
  /\ (forall q' c e,
        In (Discover q' c e) (mcp.effects (mcp.webSearch config env input w)) ->
        q' = mcp.Query input /\ 1 <= c)
  /\ (mcp.IsError (mcp.result (mcp.webSearch config env input w)) = true
      <-> exists e,
            res (Search config env (mcp.Query input)
                   (if 0 <? mcp.Count input then mcp.Count input else 5)
                   (mcp.Force input) w) = inl e)
  /\ (mcp.IsError (mcp.result (mcp.webSearch config env input w)) = true ->
      store (mcp.after (mcp.webSearch config env input w)) = store w).
Proof.
  unfold mcp.webSearch. cbv zeta.
  assert ((if mcp.Count input <=? 0 then 5 else mcp.Count input)
          = (if 0 <? mcp.Count input then mcp.Count input else 5)) as ->.
  { destruct (mcp.Count input <=? 0) eqn:E1, (0 <? mcp.Count input) eqn:E2;
      try reflexivity.
    - apply Z.leb_le in E1. apply Z.ltb_lt in E2. lia.
    - apply Z.leb_gt in E1. apply Z.ltb_ge in E2. lia. }
  set (count := if 0 <? mcp.Count input then mcp.Count input else 5).
  assert (1 <= count) as Hcount.
  { unfold count. destruct (0 <? mcp.Count input) eqn:E; [apply Z.ltb_lt in E|]; lia. }
  destruct (res (Search config env (mcp.Query input) count (mcp.Force input) w))
    as [e|r] eqn:E; cbn [mcp.effects mcp.result mcp.after mcp.IsError].
  - split; [reflexivity|]. split.
    + intros q' c e' Hin. apply Search_discover in Hin as (-> & -> & _). auto.
    + split; [split; eauto|]. intros _.
      now apply (Search_failure_keeps_store _ _ _ _ _ _ e).
  - split; [reflexivity|]. split.
    + intros q' c e' Hin. apply Search_discover in Hin as (-> & -> & _). auto.
    + split; [split; [discriminate | intros (e & [=])]|]. discriminate.
Qed.

(** ** Discovery: package search *)

Section Discovery.

Import search.

Lemma len_app (a b : list Result) : len (a ++ b) = len a + len b.
Proof. unfold len. rewrite length_app. lia. Qed.

Lemma HasPrefix_http_absolute (h : string) :
  strings.HasPrefix h "http" = true -> strings.HasPrefix h "/" = false.
Proof.
  destruct h as [|c h]; [discriminate|]. cbn [strings.HasPrefix].
  destruct (Ascii.eqb c "h") eqn:E; [|discriminate].
  apply Ascii.eqb_eq in E. now subst c.
Qed.

(** Each of the three closures appends at most one result, and only when
    fewer than count results have been collected: it is the closure run
    with count 1 on the empty list, guarded by the test on the length. *)
Lemma fold_closure {A : Type} (f : Z -> list Result -> A -> list Result) (count : Z) :
  (forall c acc x, f c acc x = if c <=? len acc then acc else acc ++ f 1 nil x) ->
  (forall x, (length (f 1%Z nil x) <= 1)%nat) ->
  forall l acc,
    fold_left (f count) l acc
    = acc ++ take (Z.to_nat (count - len acc)) (concat (map (f 1 nil) l)).
Proof.
  intros Hf H1. induction l as [|x l IH]; intros acc; cbn [fold_left map concat].
  - now rewrite take_nil, app_nil_r.
  - rewrite IH, (Hf count acc x). destruct (count <=? len acc) eqn:E.
    + apply Z.leb_le in E. replace (Z.to_nat (count - len acc)) with 0%nat by lia.
      now rewrite !take_0.
    + apply Z.leb_gt in E. specialize (H1 x).
      destruct (f 1 nil x) as [|r [|r' rest]]; cbn [length] in H1; [| |lia].
      * now rewrite app_nil_r.
      * rewrite len_app. change (len [r]) with 1. rewrite <- app_assoc.
        cbn [app]. replace (Z.to_nat (count - len acc))
          with (S (Z.to_nat (count - (len acc + 1)))) by lia.
        reflexivity.
Qed.

Lemma googleBlock_guard (c : Z) (acc : list Result) (s : Block) :
  googleBlock c acc s = if c <=? len acc then acc else acc ++ googleBlock 1 nil s.
Proof.
  unfold googleBlock. change (1 <=? len nil) with false. cbv iota.
  destruct (c <=? len acc); [reflexivity|].
  destruct (href (link s)) as [h|]; [|now rewrite app_nil_r].
  destruct (String.eqb h EmptyString); [now rewrite app_nil_r|].
  destruct (strings.HasPrefix h "/" || strings.Contains h "google.com");
    [now rewrite app_nil_r | reflexivity].
Qed.

Lemma googleAnchor_guard (c : Z) (acc : list Result) (s : Anchor) :
  googleAnchor c acc s = if c <=? len acc then acc else acc ++ googleAnchor 1 nil s.
Proof.
  unfold googleAnchor. change (1 <=? len nil) with false. cbv iota.
  destruct (c <=? len acc); [reflexivity|].
  destruct (href s) as [h|]; [|now rewrite app_nil_r]. cbv zeta.
  destruct (String.eqb _ EmptyString || negb _); [now rewrite app_nil_r|].
  destruct (strings.Contains _ "google.com" || strings.Contains _ "youtube.com");
    [now rewrite app_nil_r|].
  destruct (String.eqb _ EmptyString || (200 <? _));
    [now rewrite app_nil_r | reflexivity].
Qed.

Lemma duckAnchor_guard (c : Z) (acc : list Result) (s : Anchor) :
  duckAnchor c acc s = if c <=? len acc then acc else acc ++ duckAnchor 1 nil s.
Proof.
  unfold duckAnchor. change (1 <=? len nil) with false. cbv iota.
  destruct (c <=? len acc); [reflexivity|].
  destruct (href s) as [h|]; [|now rewrite app_nil_r].
  destruct (String.eqb h EmptyString); [now rewrite app_nil_r | reflexivity].
Qed.

Lemma googleBlock_one (s : Block) (r : Result) :
  In r (googleBlock 1 nil s) ->
  googleBlock 1 nil s = [r]
  /\ URL r <> EmptyString
  /\ strings.HasPrefix (URL r) "/" = false
  /\ strings.Contains (URL r) "google.com" = false.
Proof.
  unfold googleBlock. change (1 <=? len nil) with false. cbv iota.
  destruct (href (link s)) as [h|]; [|intros []].
  destruct (String.eqb h EmptyString) eqn:E1; [intros []|].
  destruct (strings.HasPrefix h "/" || strings.Contains h "google.com") eqn:E2;
    [intros []|].
  apply orb_false_iff in E2 as [E2 E3]. apply String.eqb_neq in E1.
  cbn [app]. intros [<-|[]]. cbn [URL]. auto.
Qed.

Lemma googleAnchor_one (s : Anchor) (r : Result) :
  In r (googleAnchor 1 nil s) ->
  googleAnchor 1 nil s = [r]
  /\ URL r <> EmptyString
  /\ strings.HasPrefix (URL r) "/" = false
  /\ strings.Contains (URL r) "google.com" = false.
Proof.
  unfold googleAnchor. change (1 <=? len nil) with false. cbv iota.
  destruct (href s) as [h0|]; [|intros []]. cbv zeta.
  set (h := if strings.HasPrefix h0 "/url?" then _ else _).
  destruct (String.eqb h EmptyString || negb (strings.HasPrefix h "http")) eqn:E1;
    [intros []|].
  destruct (strings.Contains h "google.com" || strings.Contains h "youtube.com") eqn:E2;
    [intros []|].
  destruct (String.eqb _ EmptyString || (200 <? _)); [intros []|].
  apply orb_false_iff in E1 as [E1 E1'], E2 as [E2 _].
  apply String.eqb_neq in E1. apply negb_false_iff in E1'.
  cbn [app]. intros [<-|[]]. cbn [URL].
  auto using HasPrefix_http_absolute.
Qed.

Lemma duckAnchor_one (s : Anchor) (r : Result) :
  In r (duckAnchor 1 nil s) -> duckAnchor 1 nil s = [r] /\ URL r <> EmptyString.
Proof.
  unfold duckAnchor. change (1 <=? len nil) with false. cbv iota.
  destruct (href s) as [h|]; [|intros []].
  destruct (String.eqb h EmptyString) eqn:E1; [intros []|].
  apply String.eqb_neq in E1. cbv zeta. cbn [app]. intros [<-|[]]. cbn [URL].
  split; [reflexivity|].
  destruct (strings.Contains h "duckduckgo.com/l/?"); [|assumption].
  destruct (target s) as [uddg|]; [|assumption].
  destruct (String.eqb uddg EmptyString) eqn:E2; [assumption|].
  now apply String.eqb_neq in E2.
Qed.

Lemma one_length {A : Type} (f : A -> list Result) (P : Result -> Prop) :
  (forall x r, In r (f x) -> f x = [r] /\ P r) ->
  forall x, (length (f x) <= 1)%nat.
Proof.
  intros H x. destruct (f x) as [|r l] eqn:E; [cbn; lia|].
  destruct (H x r) as [E' _]; [rewrite E; now left|].
  rewrite E in E'. injection E' as ->. cbn. lia.
Qed.

Lemma In_take_concat {A : Type} (f : A -> list Result) (n : nat) (l : list A)
    (r : Result) :
  In r (take n (concat (map f l))) -> exists x, In x l /\ In r (f x).
Proof.
  intros H. apply list_elem_of_In, elem_of_take in H as (i & H & _).
  apply list_elem_of_lookup_2, list_elem_of_In, in_concat in H as (y & Hy & Hr).
  apply in_map_iff in Hy as (x & <- & Hx). eauto.
Qed.

Lemma len_take (n : Z) (l : list Result) : len (take (Z.to_nat n) l) <= Z.max n 0.
Proof. unfold len. rewrite length_take. lia. Qed.

Lemma searchGoogle_first (bases : Bases) (web : Web) (query : string) (count : Z) :
  searchGoogle bases web query count
  = match web (googleURL bases query count) with
    | inr err => inr (GoogleFailed err)
    | inl doc =>
        inl match take (Z.to_nat count) (concat (map (googleBlock 1 nil) (blocks doc))) with
            | nil => take (Z.to_nat count) (concat (map (googleAnchor 1 nil) (anchors doc)))
            | results => results
            end
    end.
Proof.
  unfold searchGoogle. destruct (web _) as [doc|err]; [|reflexivity]. cbv zeta.
  rewrite (fold_closure googleBlock count googleBlock_guard
             (one_length _ _ googleBlock_one)).
  cbn [app]. change (len nil) with 0. rewrite Z.sub_0_r.
  destruct (take _ _); [|reflexivity].
  rewrite (fold_closure googleAnchor count googleAnchor_guard
             (one_length _ _ googleAnchor_one)).
  cbn [app]. change (len nil) with 0. now rewrite Z.sub_0_r.
Qed.

Lemma searchDuckDuckGo_first (bases : Bases) (web : Web) (query : string) (count : Z) :
  searchDuckDuckGo bases web query count
  = match web (duckDuckGoURL bases query) with
    | inr err => inr (DuckDuckGoFailed err)
    | inl doc =>
        inl (take (Z.to_nat count) (concat (map (duckAnchor 1 nil) (resultAnchors doc))))
    end.
Proof.
  unfold searchDuckDuckGo. destruct (web _) as [doc|err]; [|reflexivity].
  rewrite (fold_closure duckAnchor count duckAnchor_guard
             (one_length _ _ duckAnchor_one)).
  cbn [app]. change (len nil) with 0. now rewrite Z.sub_0_r.
Qed.

End Discovery.

Section RequestAddress.

Import search.

Lemma upperhex_inj (n m : Z) :
  0 <= n < 16 -> 0 <= m < 16 -> url.upperhex n = url.upperhex m -> n = m.
Proof.
  intros Hn Hm H. apply (f_equal strings.byteVal) in H. unfold url.upperhex in H.
  destruct (n <? 10) eqn:En, (m <? 10) eqn:Em;
    rewrite !byteVal_byteOf in H by lia; lia.
Qed.

Lemma escaped_byte_inj (a b : ascii) :
  url.upperhex (strings.byteVal a / 16) = url.upperhex (strings.byteVal b / 16) ->
  url.upperhex (strings.byteVal a mod 16) = url.upperhex (strings.byteVal b mod 16) ->
  a = b.
Proof.
  intros H1 H2.
  pose proof (byteVal_range a) as Ha. pose proof (byteVal_range b) as Hb.
  pose proof (Z.div_mod (strings.byteVal a) 16 ltac:(lia)) as Da.
  pose proof (Z.div_mod (strings.byteVal b) 16 ltac:(lia)) as Db.
  pose proof (Z.mod_pos_bound (strings.byteVal a) 16 ltac:(lia)).
  pose proof (Z.mod_pos_bound (strings.byteVal b) 16 ltac:(lia)).
  apply upperhex_inj in H1;
    [|split; [apply Z.div_pos; lia | apply Z.div_lt_upper_bound; lia]..].
  apply upperhex_inj in H2; [|assumption..].
  rewrite <- (byteOf_byteVal a), <- (byteOf_byteVal b). f_equal. lia.
Qed.

(** An escaped query holds no ampersand, so what follows it in an address
    can be told from it. *)
Lemma QueryEscape_split (q1 q2 t1 t2 : string) :
  url.QueryEscape q1 +:+ String "&" t1 = url.QueryEscape q2 +:+ String "&" t2 ->
  q1 = q2 /\ t1 = t2.
Proof.
  revert q2. induction q1 as [|a q1 IH]; intros [|b q2]; cbn [url.QueryEscape].
  - rewrite !append_nil. now intros [= ->].
  - rewrite append_nil.
    destruct (url.unreserved b) eqn:Ub; [|destruct (Ascii.eqb b " ")];
      rewrite !append_cons; intros [= E]; try discriminate.
    subst b. discriminate.
  - rewrite append_nil.
    destruct (url.unreserved a) eqn:Ua; [|destruct (Ascii.eqb a " ")];
      rewrite !append_cons; intros [= E]; try discriminate.
    subst a. discriminate.
  - destruct (url.unreserved a) eqn:Ua; [|destruct (Ascii.eqb a " ") eqn:Sa];
      (destruct (url.unreserved b) eqn:Ub; [|destruct (Ascii.eqb b " ") eqn:Sb]);
      rewrite !append_cons; intros H; injection H; clear H.
    + intros H ->. now destruct (IH _ H) as [-> ->].
    + intros _ ->. discriminate.
    + intros _ ->. discriminate.
    + intros _ <-. discriminate.
    + intros H. apply Ascii.eqb_eq in Sa, Sb. subst a b.
      now destruct (IH _ H) as [-> ->].
    + discriminate.
    + intros _ <-. discriminate.
    + discriminate.
    + intros H H2 H1. rewrite (escaped_byte_inj a b H1 H2).
      now destruct (IH _ H) as [-> ->].
Qed.

Lemma QueryEscape_inj (q1 q2 : string) :
  url.QueryEscape q1 = url.QueryEscape q2 -> q1 = q2.
Proof.
  intros H. apply (QueryEscape_split q1 q2 EmptyString EmptyString). now rewrite H.
Qed.

Lemma append_cancel (base x y : string) : base +:+ x = base +:+ y -> x = y.
Proof.
  induction base as [|c base IH]; [now rewrite !append_nil|].
  rewrite !append_cons. intros [= H]. auto.
Qed.

Lemma FormatInt_inj (n m : Z) :
  strconv.minInt <= n <= strconv.maxInt ->
  strconv.minInt <= m <= strconv.maxInt ->
  strconv.FormatInt n = strconv.FormatInt m -> n = m.
Proof.
  intros Hn Hm H. pose proof (Atoi_FormatInt n Hn) as E.
  rewrite H, (Atoi_FormatInt m Hm) in E. congruence.
Qed.

End RequestAddress.

(** X20. What a scraper of result pages returns, read off the page: the
    results are the first count of the results the closure gives for each
    element alone, in the order of the page (none when count is not
    positive); Google's fallback over all anchors is used exactly when its
    result blocks give nothing; a failed request gives the wrapped error and
    no results. *)
Theorem search_takes_first_results (bases : search.Bases) (web : search.Web)
    (query : string) (count : Z) :
  search.searchGoogle bases web query count
  = match web (search.googleURL bases query count) with
    | inr err => inr (search.GoogleFailed err)
    | inl doc =>
        inl match take (Z.to_nat count)
                    (concat (map (search.googleBlock 1 nil) (search.blocks doc))) with
            | nil => take (Z.to_nat count)
                       (concat (map (search.googleAnchor 1 nil) (search.anchors doc)))
            | results => results
            end
    end
  /\ search.searchDuckDuckGo bases web query count
     = match web (search.duckDuckGoURL bases query) with
       | inr err => inr (search.DuckDuckGoFailed err)
       | inl doc =>
           inl (take (Z.to_nat count)
                  (concat (map (search.duckAnchor 1 nil) (search.resultAnchors doc))))
       end.
Proof.
  split; [apply searchGoogle_first | apply searchDuckDuckGo_first].
Qed.

(** X21. Search returns at most count results, none when count is zero
    or negative, and no result has an empty URL, whatever the engine and
    the page. *)
Theorem search_results_bounded (bases : search.Bases) (web : search.Web)
    (query : string) (count : Z) (engine : string) (results : list search.Result) :
  search.Search bases web query count engine = inl results ->
  search.len results <= Z.max count 0
  /\ forall r, In r results -> search.URL r <> EmptyString.
Proof.
  unfold search.Search. cbv zeta.
  destruct (String.eqb _ "duckduckgo" || String.eqb _ "ddg").
  - rewrite searchDuckDuckGo_first. destruct (web _) as [doc|err]; [|discriminate].
    intros [= <-]. split; [apply len_take|].
    intros r Hr. apply In_take_concat in Hr as (x & _ & Hr).
    now apply duckAnchor_one in Hr.
  - rewrite searchGoogle_first. destruct (web _) as [doc|err]; [|discriminate].
    intros [= <-].
    destruct (take _ (concat (map (search.googleBlock 1 nil) _))) as [|r0 l] eqn:E.
    + split; [apply len_take|].
      intros r Hr. apply In_take_concat in Hr as (x & _ & Hr).
      now apply googleAnchor_one in Hr.
    + rewrite <- E. split; [apply len_take|].
      intros r Hr. apply In_take_concat in Hr as (x & _ & Hr).
      now apply googleBlock_one in Hr.
Qed.

Lemma search_results_bounded_witness :
  search.len [search.mkResult "https://a.example/" "A"] <= Z.max 1 0
  /\ forall r, In r [search.mkResult "https://a.example/" "A"] ->
               search.URL r <> EmptyString.
Proof.
  apply (search_results_bounded (search.mkBases "G" "D")
           (fun _ => inl (search.mkDocument nil nil
                            [search.mkAnchor (Some "https://a.example/") " A " None;
                             search.mkAnchor (Some "https://b.example/") "B" None]))
           "q" 1 "DDG").
  vm_compute. reflexivity.
Defined.

(** X22. A result of searchGoogle never points into Google: its URL does
    not start with a slash and does not contain google.com, whether it
    comes from a result block or from the fallback over all anchors. *)
Theorem google_results_foreign (bases : search.Bases) (web : search.Web)
    (query : string) (count : Z) (results : list search.Result) (r : search.Result) :
  search.searchGoogle bases web query count = inl results ->
  In r results ->
  strings.HasPrefix (search.URL r) "/" = false
  /\ strings.Contains (search.URL r) "google.com" = false.
Proof.
  rewrite searchGoogle_first. destruct (web _) as [doc|err]; [|discriminate].
  intros [= <-].
  destruct (take _ (concat (map (search.googleBlock 1 nil) _))) as [|r0 l] eqn:E.
  - intros Hr. apply In_take_concat in Hr as (x & _ & Hr).
    now apply googleAnchor_one in Hr.
  - rewrite <- E. intros Hr. apply In_take_concat in Hr as (x & _ & Hr).
    now apply googleBlock_one in Hr.
Qed.

Lemma google_results_foreign_witness :
  strings.HasPrefix "https://a.example/" "/" = false
  /\ strings.Contains "https://a.example/" "google.com" = false.
Proof.
  apply (google_results_foreign (search.mkBases "G" "D")
           (fun _ => inl (search.mkDocument nil
                            [search.mkAnchor (Some "/url?q=x") "A" (Some "https://a.example/");
                             search.mkAnchor (Some "https://maps.google.com/") "M" None]
                            nil))
           "q" 3 [search.mkResult "https://a.example/" "A"]
           (search.mkResult "https://a.example/" "A")).
  - vm_compute. reflexivity.
  - left. reflexivity.
Defined.

(** X23. The name of the engine is read through strings.ToLower: two
    names whose letters, rune by rune, are equal or lower-case forms of
    each other select the same scraper and give the same outcome; a
    spelling of duckduckgo with the Kelvin sign for its k selects
    DuckDuckGo. *)
Theorem search_engine_name_case (bases : search.Bases) (web : search.Web)
    (query : string) (count : Z) (e1 e2 : string) :
  caseVariant e1 e2 ->
  search.Search bases web query count e1 = search.Search bases web query count e2.
Proof.
  intros H. unfold search.Search. now rewrite (ToLower_caseVariant e1 e2 H).
Qed.

Lemma search_engine_name_case_witness :
  search.Search (search.mkBases "G" "D") (fun _ => inr (External "down")) "q" 3
    ("duc" +:+ Examples.kelvin +:+ "DUC" +:+ Examples.kelvin +:+ "go")
  = search.Search (search.mkBases "G" "D") (fun _ => inr (External "down")) "q" 3
      "duckduckgo".
Proof.
  apply (search_engine_name_case (search.mkBases "G" "D")
           (fun _ => inr (External "down")) "q" 3
           ("duc" +:+ Examples.kelvin +:+ "DUC" +:+ Examples.kelvin +:+ "go")
           "duckduckgo").
  case_variant.
Defined.

(** X24. The address a scraper requests determines the query: two
    queries sent to the same DuckDuckGo address are equal, and two Google
    requests with the same address have the same query and, for counts
    within the range of an int, the same count. *)
Theorem request_address_injective (bases : search.Bases) (q1 q2 : string) (c1 c2 : Z) :
  strconv.minInt <= c1 <= strconv.maxInt ->
  strconv.minInt <= c2 <= strconv.maxInt ->
  (search.duckDuckGoURL bases q1 = search.duckDuckGoURL bases q2 -> q1 = q2)
  /\ (search.googleURL bases q1 c1 = search.googleURL bases q2 c2 ->
      q1 = q2 /\ c1 = c2).
Proof.
  intros H1 H2. unfold search.duckDuckGoURL, search.googleURL. split; intros H.
  - apply append_cancel, append_cancel in H. now apply QueryEscape_inj.
  - apply append_cancel, append_cancel in H.
    change ("&num=" +:+ ?x) with (String "&" ("num=" +:+ x)) in H.
    apply QueryEscape_split in H as [-> H]. split; [reflexivity|].
    apply append_cancel in H. now apply FormatInt_inj.
Qed.

Lemma request_address_injective_witness :
  (search.duckDuckGoURL (search.mkBases "G" "D") "a b"
   = search.duckDuckGoURL (search.mkBases "G" "D") "a b" -> "a b" = "a b")
  /\ (search.googleURL (search.mkBases "G" "D") "a b" 5
      = search.googleURL (search.mkBases "G" "D") "a b" 5 -> "a b" = "a b" /\ 5 = 5).
Proof.
  apply (request_address_injective (search.mkBases "G" "D") "a b" "a b" 5 5);
    vm_compute; split; discriminate.
Defined.

(** ** The normal form of a query *)

Section NormalForm.

Import strings.

(** **** Bit operations as arithmetic *)

Lemma lor_low (m b k : Z) :
  0 <= k -> 0 <= b < 2 ^ k -> Z.lor (m * 2 ^ k) b = m * 2 ^ k + b.
Proof.
  intros Hk Hb. rewrite <- (Z.add_lor_land (m * 2 ^ k) b).
  assert (Z.land (m * 2 ^ k) b = 0) as ->; [|lia].
  apply Z.bits_inj'. intros n Hn. rewrite Z.land_spec, Z.bits_0.
  destruct (Z.lt_ge_cases n k) as [Hlt|Hge].
  - now rewrite Z.mul_pow2_bits_low.
  - destruct (Z.eq_dec b 0) as [->|Hnz]; [now rewrite Z.bits_0, andb_false_r|].
    rewrite (Z.bits_above_log2 b n), andb_false_r; [reflexivity|lia|].
    apply Z.log2_lt_pow2; [lia|].
    apply Z.lt_le_trans with (2 ^ k); [lia|]. apply Z.pow_le_mono_r; lia.
Qed.

Lemma land_low (x : Z) : Z.land x 0x3F = x mod 64.
Proof. change 0x3F with (Z.ones 6). now rewrite Z.land_ones. Qed.

Lemma continuation_byte (x : Z) : Z.lor 0x80 (Z.land x 0x3F) = 128 + x mod 64.
Proof.
  rewrite land_low. pose proof (Z.mod_pos_bound x 64 ltac:(lia)).
  apply (lor_low 2 (x mod 64) 6); lia.
Qed.

Lemma lead2 (r : Z) : 0 <= r <= 0x7FF -> Z.lor 0xC0 (Z.shiftr r 6) = 192 + r / 64.
Proof.
  intros H. rewrite Z.shiftr_div_pow2 by lia. change (2 ^ 6) with 64.
  apply (lor_low 3 (r / 64) 6); [lia|].
  split; [apply Z.div_pos; lia | apply Z.div_lt_upper_bound; lia].
Qed.

Lemma lead3 (r : Z) : 0 <= r <= 0xFFFF -> Z.lor 0xE0 (Z.shiftr r 12) = 224 + r / 4096.
Proof.
  intros H. rewrite Z.shiftr_div_pow2 by lia. change (2 ^ 12) with 4096.
  apply (lor_low 7 (r / 4096) 5); [lia|].
  split; [apply Z.div_pos; lia | apply Z.div_lt_upper_bound; lia].
Qed.

Lemma lead4 (r : Z) :
  0 <= r <= 0x10FFFF -> Z.lor 0xF0 (Z.shiftr r 18) = 240 + r / 262144.
Proof.
  intros H. rewrite Z.shiftr_div_pow2 by lia. change (2 ^ 18) with 262144.
  apply (lor_low 15 (r / 262144) 4); [lia|].
  split; [apply Z.div_pos; lia | apply Z.div_lt_upper_bound; lia].
Qed.

Lemma rune2 (s0 s1 : Z) :
  Z.lor (Z.shiftl (Z.land s0 0x1F) 6) (Z.land s1 0x3F) = s0 mod 32 * 64 + s1 mod 64.
Proof.
  change 0x1F with (Z.ones 5). rewrite Z.land_ones, land_low, Z.shiftl_mul_pow2 by lia.
  apply lor_low; [lia|]. apply Z.mod_pos_bound. lia.
Qed.

Lemma rune3 (s0 s1 s2 : Z) :
  Z.lor (Z.lor (Z.shiftl (Z.land s0 0x0F) 12) (Z.shiftl (Z.land s1 0x3F) 6))
        (Z.land s2 0x3F)
  = s0 mod 16 * 4096 + s1 mod 64 * 64 + s2 mod 64.
Proof.
  change 0x0F with (Z.ones 4). rewrite Z.land_ones, !land_low, !Z.shiftl_mul_pow2 by lia.
  change (2 ^ 4) with 16.
  pose proof (Z.mod_pos_bound s1 64 ltac:(lia)).
  pose proof (Z.mod_pos_bound s2 64 ltac:(lia)).
  rewrite (lor_low (s0 mod 16) (s1 mod 64 * 2 ^ 6) 12) by lia.
  replace (s0 mod 16 * 2 ^ 12 + s1 mod 64 * 2 ^ 6)
    with ((s0 mod 16 * 64 + s1 mod 64) * 2 ^ 6) by lia.
  rewrite lor_low by lia. lia.
Qed.

Lemma rune4 (s0 s1 s2 s3 : Z) :
  Z.lor (Z.lor (Z.lor (Z.shiftl (Z.land s0 0x07) 18) (Z.shiftl (Z.land s1 0x3F) 12))
               (Z.shiftl (Z.land s2 0x3F) 6))
        (Z.land s3 0x3F)
  = s0 mod 8 * 262144 + s1 mod 64 * 4096 + s2 mod 64 * 64 + s3 mod 64.
Proof.
  change 0x07 with (Z.ones 3). rewrite Z.land_ones, !land_low, !Z.shiftl_mul_pow2 by lia.
  change (2 ^ 3) with 8.
  pose proof (Z.mod_pos_bound s1 64 ltac:(lia)).
  pose proof (Z.mod_pos_bound s2 64 ltac:(lia)).
  pose proof (Z.mod_pos_bound s3 64 ltac:(lia)).
  rewrite (lor_low (s0 mod 8) (s1 mod 64 * 2 ^ 12) 18) by lia.
  replace (s0 mod 8 * 2 ^ 18 + s1 mod 64 * 2 ^ 12)
    with ((s0 mod 8 * 64 + s1 mod 64) * 2 ^ 12) by lia.
  rewrite (lor_low _ (s2 mod 64 * 2 ^ 6) 12) by lia.
  replace ((s0 mod 8 * 64 + s1 mod 64) * 2 ^ 12 + s2 mod 64 * 2 ^ 6)
    with (((s0 mod 8 * 64 + s1 mod 64) * 64 + s2 mod 64) * 2 ^ 6) by lia.
  rewrite lor_low by lia. lia.
Qed.

(** **** The runes the decoder yields *)

Lemma ValidRune_spec (r : Z) :
  utf8.ValidRune r = true <-> (0 <= r < 0xD800 \/ 0xDFFF < r <= 0x10FFFF).
Proof.
  unfold utf8.ValidRune, utf8.surrogateMin, utf8.surrogateMax, utf8.MaxRune.
  rewrite orb_true_iff, !andb_true_iff, !Z.leb_le, !Z.ltb_lt. tauto.
Qed.

Lemma first_cases (x sz lo hi : Z) :
  utf8.first x = Some (sz, lo, hi) ->
  (sz = 2 /\ 0xC2 <= x <= 0xDF /\ lo = 0x80 /\ hi = 0xBF)
  \/ (sz = 3 /\ x = 0xE0 /\ lo = 0xA0 /\ hi = 0xBF)
  \/ (sz = 3 /\ (0xE1 <= x <= 0xEC \/ 0xEE <= x <= 0xEF) /\ lo = 0x80 /\ hi = 0xBF)
  \/ (sz = 3 /\ x = 0xED /\ lo = 0x80 /\ hi = 0x9F)
  \/ (sz = 4 /\ x = 0xF0 /\ lo = 0x90 /\ hi = 0xBF)
  \/ (sz = 4 /\ 0xF1 <= x <= 0xF3 /\ lo = 0x80 /\ hi = 0xBF)
  \/ (sz = 4 /\ x = 0xF4 /\ lo = 0x80 /\ hi = 0x8F).
Proof.
  unfold utf8.first.
  repeat match goal with
         | |- context [if ?b then _ else _] => destruct b eqn:?
         end;
    intros [= <- <- <-];
    repeat match goal with
           | H : (_ && _) = true |- _ => apply andb_true_iff in H as [? ?]
           | H : (_ <=? _) = true |- _ => apply Z.leb_le in H
           | H : (_ =? _) = true |- _ => apply Z.eqb_eq in H
           end;
    lia.
Qed.

Lemma Decode_valid (a : ascii) (t : string) :
  utf8.ValidRune (fst (utf8.DecodeRuneInString (String a t))) = true.
Proof.
  assert (utf8.ValidRune utf8.RuneError = true) as Herr by reflexivity.
  pose proof (byteVal_range a) as Ra.
  unfold utf8.DecodeRuneInString. cbv zeta. unfold utf8.RuneSelf.
  destruct (byteVal a <? 0x80) eqn:E0.
  { apply Z.ltb_lt in E0. apply ValidRune_spec. cbn [fst]. lia. }
  destruct (utf8.first (byteVal a)) as [[[sz lo] hi]|] eqn:Ef; [|exact Herr].
  apply first_cases in Ef.
  destruct t as [|b t]; [exact Herr|].
  destruct ((byteVal b <? lo) || (hi <? byteVal b)) eqn:E1; [exact Herr|].
  apply orb_false_iff in E1 as [E1 E1']. apply Z.ltb_ge in E1, E1'.
  destruct (sz <=? 2) eqn:S2.
  { apply Z.leb_le in S2. cbn [fst]. rewrite rune2. apply ValidRune_spec.
    Z.to_euclidean_division_equations. lia. }
  apply Z.leb_gt in S2.
  destruct t as [|c t]; [exact Herr|].
  destruct (utf8.notContinuation (byteVal c)) eqn:E2; [exact Herr|].
  apply orb_false_iff in E2 as [E2 E2']. apply Z.ltb_ge in E2, E2'.
  destruct (sz <=? 3) eqn:S3.
  { apply Z.leb_le in S3. cbn [fst]. rewrite rune3. apply ValidRune_spec.
    Z.to_euclidean_division_equations. lia. }
  apply Z.leb_gt in S3.
  destruct t as [|d t]; [exact Herr|].
  destruct (utf8.notContinuation (byteVal d)) eqn:E3; [exact Herr|].
  apply orb_false_iff in E3 as [E3 E3']. apply Z.ltb_ge in E3, E3'.
  cbn [fst]. rewrite rune4. apply ValidRune_spec.
  Z.to_euclidean_division_equations. lia.
Qed.

Lemma runes_valid (n : nat) (s : string) :
  (String.length s <= n)%nat -> Forall (fun r => utf8.ValidRune r = true) (runes s).
Proof.
  revert s. induction n as [|n IH]; intros s Hn.
  - destruct s; [constructor | cbn [String.length] in Hn; lia].
  - destruct s as [|a t]; [constructor|]. cbn [String.length] in Hn.
    rewrite runes_cons. pose proof (Decode_width a t) as Hw. constructor.
    + apply Decode_valid.
    + apply IH. rewrite length_skip. cbn [String.length]. lia.
Qed.

(** **** Decoding what AppendRune wrote *)

Ltac tests :=
  repeat match goal with
         | |- context [?x <=? ?y] => destruct (Z.leb_spec x y); try lia
         | |- context [?x <? ?y] => destruct (Z.ltb_spec x y); try lia
         | |- context [?x =? ?y] => destruct (Z.eqb_spec x y); try lia
         end.

Lemma Decode_AppendRune (r : Z) (t : string) :
  utf8.ValidRune r = true ->
  utf8.DecodeRuneInString (utf8.AppendRune r +:+ t)
  = (r, String.length (utf8.AppendRune r)).
Proof.
  intros H. apply ValidRune_spec in H.
  assert (0 <= r <= 0x7F \/ 0x7F < r <= 0x7FF \/ 0x7FF < r <= 0xFFFF \/ 0xFFFF < r) as
    [Hr|[Hr|[Hr|Hr]]] by lia;
    unfold utf8.AppendRune, utf8.MaxRune, utf8.surrogateMin, utf8.surrogateMax.
  - rewrite (proj2 (Z.leb_le 0 r)), (proj2 (Z.leb_le r 0x7F)) by lia. cbn [andb].
    rewrite append_cons, append_nil, Decode_ascii; rewrite byteVal_byteOf by lia;
      [reflexivity | lia].
  - rewrite (proj2 (Z.leb_le 0 r)), (proj2 (Z.leb_gt r 0x7F)),
      (proj2 (Z.leb_le r 0x7FF)) by lia.
    cbn [andb]. unfold utf8.tail1.
    rewrite lead2, continuation_byte, !append_cons, append_nil by lia.
    cbn [String.length].
    unfold utf8.DecodeRuneInString, utf8.RuneSelf, utf8.first. cbv zeta.
    pose proof (Z.mod_pos_bound r 64 ltac:(lia)).
    assert (2 <= r / 64 <= 31) by (Z.to_euclidean_division_equations; lia).
    rewrite !byteVal_byteOf by lia.
    rewrite (proj2 (Z.ltb_ge (192 + r / 64) 0x80)) by lia.
    rewrite (proj2 (Z.leb_le 0xC2 (192 + r / 64))), (proj2 (Z.leb_le (192 + r / 64) 0xDF))
      by lia.
    cbn [andb]. rewrite (proj2 (Z.ltb_ge (128 + r mod 64) 0x80)),
      (proj2 (Z.ltb_ge 0xBF (128 + r mod 64))) by lia.
    cbn [orb]. change (2 <=? 2) with true. cbv iota. rewrite rune2. f_equal.
    Z.to_euclidean_division_equations. lia.
  - rewrite (proj2 (Z.leb_le 0 r)), (proj2 (Z.leb_gt r 0x7F)),
      (proj2 (Z.leb_gt r 0x7FF)), (proj2 (Z.ltb_ge r 0)),
      (proj2 (Z.ltb_ge 0x10FFFF r)), (proj2 (Z.leb_le r 0xFFFF)) by lia.
    cbn [andb orb].
    assert ((0xD800 <=? r) && (r <=? 0xDFFF) = false) as ->.
    { apply andb_false_iff. destruct H as [H|H]; [left; apply Z.leb_gt | right; apply Z.leb_gt]; lia. }
    unfold utf8.tail2, utf8.tail1.
    rewrite lead3, !continuation_byte, !append_cons, append_nil by lia.
    rewrite Z.shiftr_div_pow2 by lia. change (2 ^ 6) with 64.
    cbn [String.length].
    unfold utf8.DecodeRuneInString, utf8.RuneSelf, utf8.notContinuation. cbv zeta.
    pose proof (Z.mod_pos_bound r 64 ltac:(lia)).
    pose proof (Z.mod_pos_bound (r / 64) 64 ltac:(lia)).
    assert (0 <= r / 4096 <= 15) by (Z.to_euclidean_division_equations; lia).
    rewrite !byteVal_byteOf by lia.
    rewrite (proj2 (Z.ltb_ge (224 + r / 4096) 0x80)) by lia.
    destruct (utf8.first (224 + r / 4096)) as [[[sz lo] hi]|] eqn:Ef.
    2:{ exfalso. revert Ef. unfold utf8.first. tests; discriminate. }
    apply first_cases in Ef.
    assert (sz = 3) as -> by lia.
    assert ((128 + r / 64 mod 64 <? lo) || (hi <? 128 + r / 64 mod 64) = false) as ->.
    { apply orb_false_iff. split; apply Z.ltb_ge; Z.to_euclidean_division_equations; lia. }
    change (3 <=? 2) with false. change (3 <=? 3) with true. cbv iota.
    rewrite (proj2 (Z.ltb_ge (128 + r mod 64) 0x80)),
      (proj2 (Z.ltb_ge 0xBF (128 + r mod 64))) by lia.
    cbn [orb]. rewrite rune3. f_equal. Z.to_euclidean_division_equations. lia.
  - rewrite (proj2 (Z.leb_gt r 0x7F)), (proj2 (Z.leb_gt r 0x7FF)), (proj2 (Z.ltb_ge r 0)),
      (proj2 (Z.ltb_ge 0x10FFFF r)), (proj2 (Z.leb_gt r 0xFFFF)),
      (proj2 (Z.leb_le 0xD800 r)), (proj2 (Z.leb_gt r 0xDFFF)) by lia.
    rewrite !andb_false_r. cbn [andb orb].
    unfold utf8.tail3, utf8.tail2, utf8.tail1.
    rewrite lead4, !continuation_byte, !append_cons, append_nil by lia.
    rewrite !Z.shiftr_div_pow2 by lia. change (2 ^ 6) with 64. change (2 ^ 12) with 4096.
    cbn [String.length].
    unfold utf8.DecodeRuneInString, utf8.RuneSelf, utf8.notContinuation. cbv zeta.
    pose proof (Z.mod_pos_bound r 64 ltac:(lia)).
    pose proof (Z.mod_pos_bound (r / 64) 64 ltac:(lia)).
    pose proof (Z.mod_pos_bound (r / 4096) 64 ltac:(lia)).
    assert (0 <= r / 262144 <= 4) by (Z.to_euclidean_division_equations; lia).
    rewrite !byteVal_byteOf by lia.
    rewrite (proj2 (Z.ltb_ge (240 + r / 262144) 0x80)) by lia.
    destruct (utf8.first (240 + r / 262144)) as [[[sz lo] hi]|] eqn:Ef.
    2:{ exfalso. revert Ef. unfold utf8.first. tests; discriminate. }
    apply first_cases in Ef.
    assert (sz = 4) as -> by lia.
    assert ((128 + r / 4096 mod 64 <? lo) || (hi <? 128 + r / 4096 mod 64) = false) as ->.
    { apply orb_false_iff. split; apply Z.ltb_ge; Z.to_euclidean_division_equations; lia. }
    change (4 <=? 2) with false. change (4 <=? 3) with false. cbv iota.
    rewrite (proj2 (Z.ltb_ge (128 + r / 64 mod 64) 0x80)),
      (proj2 (Z.ltb_ge 0xBF (128 + r / 64 mod 64))),
      (proj2 (Z.ltb_ge (128 + r mod 64) 0x80)),
      (proj2 (Z.ltb_ge 0xBF (128 + r mod 64))) by lia.
    cbn [orb]. rewrite rune4. f_equal. Z.to_euclidean_division_equations. lia.
Qed.

Lemma AppendRune_cons (r : Z) : exists a t, utf8.AppendRune r = String a t.
Proof.
  unfold utf8.AppendRune.
  repeat match goal with
         | |- context [if ?b then _ else _] => destruct b
         end; eauto.
Qed.

Lemma runes_AppendRune (r : Z) (t : string) :
  utf8.ValidRune r = true -> runes (utf8.AppendRune r +:+ t) = r :: runes t.
Proof.
  intros H. pose proof (Decode_AppendRune r t H) as Hd.
  destruct (AppendRune_cons r) as (a & u & E). rewrite E in *.
  rewrite append_cons in *. rewrite runes_cons, Hd. cbn [fst snd]. f_equal.
  rewrite <- append_cons, skip_append by lia. f_equal.
  clear. induction (String a u) as [|x s IH]; [reflexivity|]. exact IH.
Qed.

(** **** The lower-case form of a valid rune *)

Lemma ToLower_valid (r : Z) : utf8.ValidRune r = true -> utf8.ValidRune (unicode.ToLower r) = true.
Proof.
  intros H.
  pose proof (cased_check (fun r => implb (utf8.ValidRune r) (utf8.ValidRune (unicode.ToLower r))))
    as Hc.
  cbv beta in Hc. specialize (Hc ltac:(vm_compute; reflexivity)).
  specialize (Hc ltac:(intros x ->; now destruct (utf8.ValidRune x)) r).
  now rewrite H in Hc.
Qed.

Lemma ValidRune_nonneg (r : Z) : utf8.ValidRune r = true -> (0 <=? r) = true.
Proof. intros H. apply ValidRune_spec in H. apply Z.leb_le. lia. Qed.

(** The runes of the lower-case form are the lower-case forms of the
    runes. *)
Lemma runes_Map_ToLower (n : nat) (s : string) :
  (String.length s <= n)%nat ->
  runes (Map unicode.ToLower s) = map unicode.ToLower (runes s).
Proof.
  revert s. induction n as [|n IH]; intros s Hn.
  - destruct s; [reflexivity | cbn [String.length] in Hn; lia].
  - destruct s as [|a t]; [reflexivity|]. cbn [String.length] in Hn.
    rewrite Map_cons, runes_cons. pose proof (Decode_width a t) as Hw.
    pose proof (ToLower_valid _ (Decode_valid a t)) as Hv.
    rewrite (ValidRune_nonneg _ Hv), runes_AppendRune by assumption.
    cbn [map]. f_equal. apply IH. rewrite length_skip. cbn [String.length]. lia.
Qed.

Lemma ToLower_idempotent (s : string) : ToLower (ToLower s) = ToLower s.
Proof.
  rewrite !ToLower_Map. apply Map_runes.
  rewrite (runes_Map_ToLower (String.length s)) by lia.
  rewrite map_map. apply map_ext. apply ToLower_idempotent_rune.
Qed.

Lemma TrimLeft_decompose (n : nat) (s : string) :
  (String.length s <= n)%nat -> exists l, whiteSpace l /\ s = l +:+ TrimLeft s.
Proof.
  revert s. induction n as [|n IH]; intros s Hn.
  - destruct s; [|cbn [String.length] in Hn; lia].
    exists EmptyString. split; [constructor | reflexivity].
  - destruct s as [|a s]; [exists EmptyString; split; [constructor | reflexivity]|].
    cbn [String.length] in Hn. rewrite TrimLeft_cons.
    destruct (asciiSpace a) eqn:Ea.
    { destruct (IH s ltac:(lia)) as (l & Hl & E).
      exists (String a EmptyString +:+ l). split; [now apply whiteSpace_rune|].
      rewrite append_assoc, append_cons, append_nil. now f_equal. }
    destruct s as [|b s]; [exists EmptyString; split; [constructor | reflexivity]|].
    cbn [String.length] in Hn.
    destruct (space2 a b) eqn:Eb.
    { destruct (IH s ltac:(lia)) as (l & Hl & E).
      exists (String a (String b EmptyString) +:+ l). split; [now apply whiteSpace_rune|].
      rewrite append_assoc, !append_cons, append_nil. now do 2 f_equal. }
    destruct s as [|c s]; [exists EmptyString; split; [constructor | reflexivity]|].
    cbn [String.length] in Hn.
    destruct (space3 a b c) eqn:Ec.
    { destruct (IH s ltac:(lia)) as (l & Hl & E).
      exists (String a (String b (String c EmptyString)) +:+ l).
      split; [now apply whiteSpace_rune|].
      rewrite append_assoc, !append_cons, append_nil. now do 3 f_equal. }
    exists EmptyString. split; [constructor | reflexivity].
Qed.

Lemma TrimRight_decompose (s : string) :
  exists r, whiteSpace r /\ s = TrimRight s +:+ r.
Proof.
  induction s as [|a s (r & Hr & E)].
  - exists EmptyString. split; [constructor | reflexivity].
  - cbn [TrimRight]. cbv zeta. destruct (spaceRune (String a (TrimRight s))) eqn:Ea.
    + exists (String a (TrimRight s) +:+ r). split; [now apply whiteSpace_rune|].
      rewrite append_nil, append_cons. now f_equal.
    + exists r. split; [assumption|]. rewrite append_cons. now f_equal.
Qed.

Lemma TrimSpace_decompose (s : string) :
  exists l r, whiteSpace l /\ whiteSpace r /\ s = l +:+ TrimSpace s +:+ r.
Proof.
  destruct (TrimLeft_decompose (String.length s) s ltac:(lia)) as (l & Hl & El).
  destruct (TrimRight_decompose (TrimLeft s)) as (r & Hr & Er).
  exists l, r. unfold TrimSpace. now rewrite <- Er.
Qed.

Lemma TrimSpace_idempotent (s : string) : TrimSpace (TrimSpace s) = TrimSpace s.
Proof.
  destruct (TrimSpace_decompose s) as (l & r & Hl & Hr & E).
  rewrite E at 2. now rewrite TrimSpace_padding.
Qed.

(** Trimming before lowering changes nothing once the result is trimmed. *)
Lemma normalize_TrimSpace (s : string) :
  TrimSpace (ToLower (TrimSpace s)) = TrimSpace (ToLower s).
Proof.
  destruct (TrimSpace_decompose s) as (l & r & Hl & Hr & E).
  rewrite E at 2. now rewrite ToLower_padding, TrimSpace_padding.
Qed.

End NormalForm.

(** X25. The normal form of a query is a query with the same key:
    trimming a query, lowering its letters with strings.ToLower, or both,
    before handing it to queryHash does not change the key, the
    normalisation being idempotent on every string, valid UTF-8 or not;
    and what TrimSpace removes from a query is white space only. *)
Theorem query_hash_normal_form (query : string) :
  queryHash (strings.TrimSpace query) = queryHash query
  /\ queryHash (strings.ToLower query) = queryHash query
  /\ queryHash (strings.TrimSpace (strings.ToLower query)) = queryHash query
  /\ exists l r,
       whiteSpace l /\ whiteSpace r
       /\ query = l +:+ strings.TrimSpace query +:+ r.
Proof.
  unfold queryHash. cbv zeta.
  rewrite (normalize_TrimSpace (strings.ToLower query)), normalize_TrimSpace,
    ToLower_idempotent.
  repeat split. apply TrimSpace_decompose.
Qed.

Section Titles.

Import search.

Lemma googleBlock_title (s : Block) (r : Result) :
  In r (googleBlock 1 nil s) -> strings.TrimSpace (Title r) = Title r.
Proof.
  unfold googleBlock. change (1 <=? len nil) with false. cbv iota.
  destruct (href (link s)) as [h|]; [|intros []].
  destruct (String.eqb h EmptyString); [intros []|].
  destruct (strings.HasPrefix h "/" || strings.Contains h "google.com"); [intros []|].
  cbn [app]. intros [<-|[]]. cbn [Title]. apply TrimSpace_idempotent.
Qed.

Lemma googleAnchor_title (s : Anchor) (r : Result) :
  In r (googleAnchor 1 nil s) ->
  strings.TrimSpace (Title r) = Title r
  /\ Title r <> EmptyString
  /\ (String.length (Title r) <= 200)%nat.
Proof.
  unfold googleAnchor. change (1 <=? len nil) with false. cbv iota.
  destruct (href s) as [h0|]; [|intros []]. cbv zeta.
  destruct (String.eqb _ EmptyString || negb _); [intros []|].
  destruct (strings.Contains _ "google.com" || strings.Contains _ "youtube.com");
    [intros []|].
  destruct (String.eqb _ EmptyString || (200 <? _)) eqn:E; [intros []|].
  apply orb_false_iff in E as [E1 E2]. apply String.eqb_neq in E1. apply Z.ltb_ge in E2.
  cbn [app]. intros [<-|[]]. cbn [Title].
  split; [apply TrimSpace_idempotent|]. split; [assumption | lia].
Qed.

Lemma duckAnchor_title (s : Anchor) (r : Result) :
  In r (duckAnchor 1 nil s) -> strings.TrimSpace (Title r) = Title r.
Proof.
  unfold duckAnchor. change (1 <=? len nil) with false. cbv iota.
  destruct (href s) as [h|]; [|intros []].
  destruct (String.eqb h EmptyString); [intros []|].
  cbv zeta. cbn [app]. intros [<-|[]]. cbn [Title]. apply TrimSpace_idempotent.
Qed.

End Titles.

(** X26. The titles Search returns are trimmed: no title starts or ends
    with white space, TrimSpace leaving it as it is; and when searchGoogle
    finds no result block, the titles of its fallback are moreover not
    empty and at most 200 bytes long. *)
Theorem search_titles_trimmed (bases : search.Bases) (web : search.Web)
    (query : string) (count : Z) (engine : string) (results : list search.Result)
    (r : search.Result) :
  search.Search bases web query count engine = inl results ->
  In r results ->
  strings.TrimSpace (search.Title r) = search.Title r
  /\ (forall doc,
        search.searchGoogle bases web query count = inl results ->
        web (search.googleURL bases query count) = inl doc ->
        fold_left (search.googleBlock count) (search.blocks doc) nil = nil ->
        search.Title r <> EmptyString
        /\ (String.length (search.Title r) <= 200)%nat).
Proof.
  intros HS Hr. split.
  - revert HS. unfold search.Search. cbv zeta.
    destruct (String.eqb _ "duckduckgo" || String.eqb _ "ddg").
    + rewrite searchDuckDuckGo_first. destruct (web _) as [doc|err]; [|discriminate].
      intros [= <-]. apply In_take_concat in Hr as (x & _ & Hr).
      now apply duckAnchor_title in Hr.
    + rewrite searchGoogle_first. destruct (web _) as [doc|err]; [|discriminate].
      intros [= <-].
      destruct (take _ (concat (map (search.googleBlock 1 nil) _))) as [|r0 l] eqn:E.
      * apply In_take_concat in Hr as (x & _ & Hr). now apply googleAnchor_title in Hr.
      * rewrite <- E in Hr. apply In_take_concat in Hr as (x & _ & Hr).
        now apply googleBlock_title in Hr.
  - intros doc HG Hdoc Hnil. unfold search.searchGoogle in HG.
    rewrite Hdoc in HG. cbv zeta in HG. rewrite Hnil in HG. injection HG as <-.
    rewrite (fold_closure search.googleAnchor count googleAnchor_guard
               (one_length _ _ googleAnchor_one)) in Hr.
    cbn [app] in Hr. apply In_take_concat in Hr as (x & _ & Hr).
    now apply googleAnchor_title in Hr.
Qed.

Lemma search_titles_trimmed_witness :
  strings.TrimSpace "A" = "A".
Proof.
  refine (proj1 (search_titles_trimmed (search.mkBases "G" "D")
           (fun _ => inl (search.mkDocument nil nil
                            [search.mkAnchor (Some "https://a.example/") " A " None]))
           "q" 1 "ddg" [search.mkResult "https://a.example/" "A"]
           (search.mkResult "https://a.example/" "A") _ _)).
  - vm_compute. reflexivity.
  - left. reflexivity.
Defined.

(** X27. The two surfaces drive the engine alike. A GET request for a
    query with the count n written in decimal and the tool web_search
    called with the same query, count and force leave the same world and
    the same effects, and the request is answered 200 exactly when the
    tool result is no error; likewise a DELETE request and the tool
    clear_cache for the same query. *)
Theorem surfaces_agree (config : Config) (env : Env) (query : string) (n : Z)
    (force : bool) (w : World) :
  query <> EmptyString ->
  1 <= n <= strconv.maxInt ->
  (api.after (api.searchHandler config env
                (api.mkRequest "GET" query (strconv.FormatInt n)
                   (if force then "true" else "false")) w)
   = mcp.after (mcp.webSearch config env (mcp.mkWebSearchInput query n force) w)
   /\ api.effects (api.searchHandler config env
                     (api.mkRequest "GET" query (strconv.FormatInt n)
                        (if force then "true" else "false")) w)
      = mcp.effects (mcp.webSearch config env (mcp.mkWebSearchInput query n force) w)
   /\ (api.code (api.searchHandler config env
                   (api.mkRequest "GET" query (strconv.FormatInt n)
                      (if force then "true" else "false")) w) = 200
       <-> mcp.IsError (mcp.result (mcp.webSearch config env
                                      (mcp.mkWebSearchInput query n force) w)) = false))
  /\ (forall count f,
        api.after (api.cacheHandler (api.mkRequest "DELETE" query count f) w)
        = mcp.after (mcp.clearCache query w)
        /\ api.effects (api.cacheHandler (api.mkRequest "DELETE" query count f) w)
           = mcp.effects (mcp.clearCache query w)
        /\ (api.code (api.cacheHandler (api.mkRequest "DELETE" query count f) w) = 200
            <-> mcp.IsError (mcp.result (mcp.clearCache query w)) = false)).
Proof.
  intros Hq Hn. split.
  - unfold api.searchHandler, mcp.webSearch.
    cbn [api.Method api.q api.count api.force mcp.Query mcp.Count mcp.Force].
    change (String.eqb "GET" "GET") with true. cbn [negb].
    apply String.eqb_neq in Hq. rewrite Hq. cbv zeta.
    pose proof (Atoi_FormatInt n ltac:(unfold strconv.minInt, strconv.maxInt in *; lia))
      as HA.
    assert (String.eqb (strconv.FormatInt n) EmptyString = false) as ->.
    { apply String.eqb_neq. intros E. rewrite E in HA. discriminate. }
    rewrite HA, (proj2 (Z.ltb_lt 0 n)), (proj2 (Z.leb_gt n 0)) by lia.
    assert (String.eqb (if force then "true" else "false") "true"
            || String.eqb (if force then "true" else "false") "1" = force) as ->
      by now destruct force.
    destruct (res (Search config env query n force w));
      cbn [api.after api.effects api.code mcp.after mcp.effects mcp.result mcp.IsError];
      repeat split; discriminate.
  - intros count f. unfold api.cacheHandler, mcp.clearCache.
    cbn [api.Method api.q]. change (String.eqb "DELETE" "DELETE") with true.
    cbn [negb]. cbv zeta.
    destruct (res (ClearCache query w));
      cbn [api.after api.effects api.code mcp.after mcp.effects mcp.result mcp.IsError];
      repeat split; discriminate.
Qed.

Lemma surfaces_agree_witness :
  api.effects (api.searchHandler Examples.config Examples.envTwoPages
                 (api.mkRequest "GET" "test" (strconv.FormatInt 2) "true")
                 Examples.emptyWorld)
  = mcp.effects (mcp.webSearch Examples.config Examples.envTwoPages
                   (mcp.mkWebSearchInput "test" 2 true) Examples.emptyWorld).
Proof.
  refine (proj1 (proj2 (proj1 (surfaces_agree Examples.config Examples.envTwoPages
                                 "test" 2 true Examples.emptyWorld _ _)))).
  - discriminate.
  - vm_compute. split; discriminate.
Defined.
